(** * Run-size planning, device capability check and kernel selection

    A shallow embedding of [separation/src/setup_cl.c] of the
    Milkyway@Home separation client, and the properties of its
    run-size planner ([findRunSizes]), cost estimator ([findNChunk]),
    capability checker ([separationCheckDevCapabilities]), kernel
    variant selection ([setupSeparationCL]), kernel arguments
    ([separationSetKernelArgs]), kernel release
    ([releaseSeparationKernel]) and CUDA time estimate
    ([cudaEstimateIterTime]).

    Data model.  The C integer types are modelled as [Z] with the
    wrap-around of unsigned arithmetic written out: [cl_uint] is 32 bits,
    [cl_ulong] and [size_t] are 64 bits (a 64-bit platform).  A [cl_double] is an IEEE
    binary64 value ([spec_float] with precision 53 and maximal exponent
    1024), every floating-point operation rounding once to nearest even.
    Operations whose behaviour C leaves undefined (integer division by
    zero, conversion of an out-of-range double to an integer, signed
    overflow, reading past an array) are results of their own: they are
    never given a value.  What the file uses but does not define (the
    device library, the buffer size calculation, the build's precision)
    is a parameter of the model. *)

From Stdlib Require Import ZArith Lia Bool List Znumtheory.
From Stdlib Require Import Floats.SpecFloat.
Import ListNotations.
Local Open Scope Z_scope.

(* ================================================================= *)
(** ** Machine integers *)

Definition CL_ULONG_MAX : Z := 2 ^ 64 - 1.

(** Conversion to [cl_uint], [cl_ulong] and [size_t]: reduction modulo
    the width of the type. *)
Definition to_uint (x : Z) : Z := x mod 2 ^ 32.
Definition to_ulong (x : Z) : Z := x mod 2 ^ 64.
Definition to_size (x : Z) : Z := x mod 2 ^ 64.

Definition is_ulong (x : Z) : Prop := 0 <= x < 2 ^ 64.
Definition is_size (x : Z) : Prop := 0 <= x < 2 ^ 64.
Definition is_int (x : Z) : Prop := - 2 ^ 31 <= x < 2 ^ 31.

(* ================================================================= *)
(** ** Results of C computations *)

Inductive Undefined : Type :=
| DivisionByZero          (* [a / 0] or [a % 0] *)
| DoubleToIntOutOfRange   (* [(cl_uint) d], integral part of [d] not a cl_uint *)
| SignedOverflow          (* [++i] on [i == INT_MAX] *)
| OutOfBounds.            (* [ias[i]] past the end of the array *)

(** A computation yields a value, runs into undefined behaviour, or
    (for the loop, which is run with a bound) exhausts its bound. *)
Inductive result (A : Type) : Type :=
| Value (a : A)
| Undef (u : Undefined)
| OutOfFuel.

Arguments Value {A} a.
Arguments Undef {A} u.
Arguments OutOfFuel {A}.

Definition bind {A B : Type} (c : result A) (k : A -> result B) : result B :=
  match c with
  | Value a => k a
  | Undef u => Undef u
  | OutOfFuel => OutOfFuel
  end.

Notation "x <- c ;; k" := (bind c (fun x => k))
  (at level 61, c at next level, right associativity).

(** Unsigned division and remainder. *)
Definition udiv (a b : Z) : result Z :=
  if b =? 0 then Undef DivisionByZero else Value (a / b).

Definition umod (a b : Z) : result Z :=
  if b =? 0 then Undef DivisionByZero else Value (a mod b).

(** Modelled from the spec: the macro [mwDivisible(x, n)] of
    milkyway_util.h is not part of the sources; "exact multiple",
    that is [(x) % (n) == 0]. *)
Definition mwDivisible (x n : Z) : result bool :=
  m <- umod x n ;; Value (m =? 0).

(** Modelled from the spec: the macro [mwDivRoundup(a, b)] of
    milkyway_util.h is not part of the sources; "ceil(a / b)" on
    unsigned integers, that is [(a) % (b) != 0 ? (a) / (b) + 1 : (a) / (b)]. *)
Definition mwDivRoundup (a b : Z) : result Z :=
  m <- umod a b ;;
  q <- udiv a b ;;
  Value (if negb (m =? 0) then q + 1 else q).

(* ================================================================= *)
(** ** Doubles *)

Definition cl_double : Type := spec_float.

Definition dmul : cl_double -> cl_double -> cl_double := SFmul 53 1024.
Definition ddiv : cl_double -> cl_double -> cl_double := SFdiv 53 1024.

(** [(cl_double) z] for an integer [z]: the nearest double. *)
Definition double_of_Z (z : Z) : cl_double := binary_normalize 53 1024 z 0 false.

(** The integral part of a double (its value rounded toward zero);
    NaN and the infinities have none. *)
Definition double_trunc (d : cl_double) : option Z :=
  match d with
  | S754_zero _ => Some 0
  | S754_finite s m e => Some (cond_Zopp s (Z.shiftl (Zpos m) e))
  | S754_infinity _ => None
  | S754_nan => None
  end.

(** [(cl_uint) d]: the integral part when it is a [cl_uint], undefined
    otherwise (C99 6.3.1.4). *)
Definition cl_uint_of_double (d : cl_double) : result Z :=
  match double_trunc d with
  | Some t => if (0 <=? t) && (t <? 2 ^ 32) then Value t
              else Undef DoubleToIntOutOfRange
  | None => Undef DoubleToIntOutOfRange
  end.

(** The literals [1.0e-9], [1000.0] and [0.95]. *)
Definition d_1em9 : cl_double := S754_finite false 4835703278458517 (-82).
Definition d_1000 : cl_double := S754_finite false 8796093022208000 (-43).
Definition GPU_EFFICIENCY_ESTIMATE : cl_double := S754_finite false 8556839292003942 (-53).

(* ================================================================= *)
(** ** Data *)

(** The structures are declared in headers that are not part of the
    sources; only the fields this file reads or writes are modelled,
    with the types its format strings and casts show: [%u] fields are
    [cl_uint], [ZU] fields [size_t], [LLU] fields [cl_ulong]. *)

Record IntegralArea : Type := mkIntegralArea {
  r_steps : Z;    (* cl_uint *)
  mu_steps : Z;   (* cl_uint *)
  nu_steps : Z    (* cl_uint *)
}.

Record AstronomyParameters : Type := mkAstronomyParameters {
  number_streams : Z;     (* cl_uint *)
  convolve : Z;           (* cl_uint *)
  aux_bg_profile : Z;     (* cl_int, used as a flag *)
  number_integrals : Z    (* cl_uint *)
}.

Inductive MWCALtargetEnum : Type :=
| MW_CAL_TARGET_770
| MW_CAL_TARGET_CYPRESS
| MW_CAL_TARGET_CAYMAN
| MW_CAL_TARGET_other (id : Z).   (* every other target of the enumeration *)

(** [cl_device_type] is a bit field; [CL_DEVICE_TYPE_CPU] is [1 << 1]. *)
Definition CL_DEVICE_TYPE_CPU : Z := 2.
Definition CL_DEVICE_TYPE_GPU : Z := 4.

Record DevInfo : Type := mkDevInfo {
  devType : Z;                      (* cl_device_type *)
  maxCompUnits : Z;                 (* cl_uint *)
  memSize : Z;                      (* cl_ulong *)
  maxConstBufSize : Z;              (* cl_ulong *)
  maxConstArgs : Z;                 (* cl_uint *)
  maxMemAlloc : Z;                  (* cl_ulong *)
  warpSize : Z;                     (* cl_uint *)
  maxWorkItemSizes : Z * Z * Z;     (* size_t [3] *)
  calTarget : MWCALtargetEnum;
  nonOutput : bool                  (* cl_bool *)
}.

Record CLRequest : Type := mkCLRequest {
  targetFrequency : cl_double;
  magicFactor : Z;          (* cl_int *)
  nonResponsive : bool;     (* cl_bool *)
  forceNoILKernel : bool;   (* cl_bool *)
  verbose : bool            (* cl_bool *)
}.

Record WGInfo : Type := mkWGInfo {
  wgs : Z   (* size_t: CL_KERNEL_WORK_GROUP_SIZE *)
}.

(** What [ci->prog] holds, and the kernel object [_separationKernel]
    (a kernel of the program it was created from, or [NULL]). *)
Inductive Program : Type :=
| NoProgram        (* nothing built yet, or the last build failed *)
| SourceProgram    (* built by [mwSetProgramFromSrc] *)
| ReleasedProgram  (* released by [clReleaseProgram] *)
| ILProgram.       (* loaded by [mwSetProgramFromBin] *)

Definition cl_kernel : Type := option Program.

Record CLInfo : Type := mkCLInfo {
  di : DevInfo;
  prog : Program
}.

Definition set_prog (p : Program) (ci : CLInfo) : CLInfo := mkCLInfo (di ci) p.

Definition CL_SUCCESS : Z := 0.

Record RunSizes : Type := mkRunSizes {
  global : Z;            (* size_t global[0] *)
  local : Z;             (* size_t local[0] *)
  extra : Z;             (* cl_uint *)
  nChunk : Z;            (* size_t *)
  nChunkEstimate : Z;    (* size_t *)
  chunkSize : Z;         (* size_t *)
  area : Z;              (* cl_ulong *)
  effectiveArea : Z;     (* cl_ulong *)
  r : Z;                 (* cl_uint *)
  mu : Z;                (* cl_uint *)
  nu : Z                 (* cl_uint *)
}.

(** Assignments to the fields of [*sizes]. *)
Definition set_global (v : Z) (s : RunSizes) : RunSizes :=
  mkRunSizes v (local s) (extra s) (nChunk s) (nChunkEstimate s) (chunkSize s)
             (area s) (effectiveArea s) (r s) (mu s) (nu s).
Definition set_local (v : Z) (s : RunSizes) : RunSizes :=
  mkRunSizes (global s) v (extra s) (nChunk s) (nChunkEstimate s) (chunkSize s)
             (area s) (effectiveArea s) (r s) (mu s) (nu s).
Definition set_extra (v : Z) (s : RunSizes) : RunSizes :=
  mkRunSizes (global s) (local s) v (nChunk s) (nChunkEstimate s) (chunkSize s)
             (area s) (effectiveArea s) (r s) (mu s) (nu s).
Definition set_nChunk (v : Z) (s : RunSizes) : RunSizes :=
  mkRunSizes (global s) (local s) (extra s) v (nChunkEstimate s) (chunkSize s)
             (area s) (effectiveArea s) (r s) (mu s) (nu s).
Definition set_nChunkEstimate (v : Z) (s : RunSizes) : RunSizes :=
  mkRunSizes (global s) (local s) (extra s) (nChunk s) v (chunkSize s)
             (area s) (effectiveArea s) (r s) (mu s) (nu s).
Definition set_chunkSize (v : Z) (s : RunSizes) : RunSizes :=
  mkRunSizes (global s) (local s) (extra s) (nChunk s) (nChunkEstimate s) v
             (area s) (effectiveArea s) (r s) (mu s) (nu s).
Definition set_area (v : Z) (s : RunSizes) : RunSizes :=
  mkRunSizes (global s) (local s) (extra s) (nChunk s) (nChunkEstimate s) (chunkSize s)
             v (effectiveArea s) (r s) (mu s) (nu s).
Definition set_effectiveArea (v : Z) (s : RunSizes) : RunSizes :=
  mkRunSizes (global s) (local s) (extra s) (nChunk s) (nChunkEstimate s) (chunkSize s)
             (area s) v (r s) (mu s) (nu s).
Definition set_r (v : Z) (s : RunSizes) : RunSizes :=
  mkRunSizes (global s) (local s) (extra s) (nChunk s) (nChunkEstimate s) (chunkSize s)
             (area s) (effectiveArea s) v (mu s) (nu s).
Definition set_mu (v : Z) (s : RunSizes) : RunSizes :=
  mkRunSizes (global s) (local s) (extra s) (nChunk s) (nChunkEstimate s) (chunkSize s)
             (area s) (effectiveArea s) (r s) v (nu s).
Definition set_nu (v : Z) (s : RunSizes) : RunSizes :=
  mkRunSizes (global s) (local s) (extra s) (nChunk s) (nChunkEstimate s) (chunkSize s)
             (area s) (effectiveArea s) (r s) (mu s) v.

(** The byte sizes of the device buffers of one integral ([size_t]). *)
Module SeparationSizes.
Record t : Type := mk {
  outBg : Z;
  outStreams : Z;
  ap : Z;
  ia : Z;
  sc : Z;
  sg_dx : Z;
  lTrig : Z;
  bSin : Z;
  rPts : Z;
  rc : Z
}.
End SeparationSizes.
Abbreviation SeparationSizes := SeparationSizes.t.

Definition wf_SeparationSizes (sizes : SeparationSizes) : Prop :=
  is_size (SeparationSizes.outBg sizes) /\ is_size (SeparationSizes.outStreams sizes) /\
  is_size (SeparationSizes.ap sizes) /\ is_size (SeparationSizes.ia sizes) /\
  is_size (SeparationSizes.sc sizes) /\ is_size (SeparationSizes.sg_dx sizes) /\
  is_size (SeparationSizes.lTrig sizes) /\ is_size (SeparationSizes.bSin sizes) /\
  is_size (SeparationSizes.rPts sizes) /\ is_size (SeparationSizes.rc sizes).

(* ================================================================= *)
(** ** Cost estimator *)

(** [estimateWUGFLOPsPerIter]: the products of [cl_uint] operands are
    taken in 32 bits, the others in 64 bits. *)
Definition perIter (ap : AstronomyParameters) (ia : IntegralArea) : Z :=
  let tmp := to_uint (32 + to_uint (number_streams ap * 68)) in
  let tmp := if negb (aux_bg_profile ap =? 0) then to_ulong (tmp + 8) else tmp in
  let perItem :=
    to_ulong (to_ulong (to_ulong (tmp * convolve ap) + 1)
              + to_uint (number_streams ap * 2)) in
  to_ulong (to_ulong (perItem * mu_steps ia) * r_steps ia).

Definition estimateWUGFLOPsPerIter (ap : AstronomyParameters) (ia : IntegralArea)
  : cl_double :=
  dmul d_1em9 (double_of_Z (perIter ap ia)).

Section Planner.

(** The build's precision ([DOUBLEPREC]) and the device library's
    throughput estimate are not part of the sources: parameters. *)
Variable DOUBLEPREC : bool.
Variable mwDeviceEstimateGFLOPs : DevInfo -> bool -> cl_double.

(** The quotient [estIterTime / timePerIter] of [findNChunk]. *)
Definition chunkQuotient (ap : AstronomyParameters) (ia : IntegralArea)
           (di : DevInfo) (clr : CLRequest) : cl_double :=
  let gflops := mwDeviceEstimateGFLOPs di DOUBLEPREC in
  let effFlops := dmul GPU_EFFICIENCY_ESTIMATE gflops in
  let iterFlops := estimateWUGFLOPsPerIter ap ia in
  let estIterTime := ddiv (dmul d_1000 iterFlops) effFlops in
  let timePerIter := ddiv d_1000 (targetFrequency clr) in
  ddiv estIterTime timePerIter.

Definition findNChunk (ap : AstronomyParameters) (ia : IntegralArea)
           (di : DevInfo) (clr : CLRequest) : result Z :=
  n <- cl_uint_of_double (chunkQuotient ap ia di clr) ;;
  Value (if n =? 0 then 1 else n).

(* ================================================================= *)
(** ** Run-size planner *)

(** The kernel query of the device library: its status and the work
    group information it fills in. *)
Variable mwGetWorkGroupInfo : cl_kernel -> CLInfo -> Z * WGInfo.

(** Why [findRunSizes] returned [CL_TRUE], by the message it prints. *)
Inductive PlanFailure : Type :=
| AreaOverflows              (* "Integral area overflows cl_ulong" *)
| WorkGroupInfoFailed        (* "Failed to get work group info" *)
| GroupSizeNotWarpMultiple   (* "Kernel reported work group size ... not a multiple of warp size" *)
| LargeWorkunitUnhandled     (* "FIXME: I'm too lazy to handle very large workunits properly" *)
| EffectiveAreaTooSmall.     (* "Effective area less than actual area!" *)

(** The return value together with [*sizes] as the caller finds it. *)
Inductive PlanReturn : Type :=
| Planned (sizes : RunSizes)                      (* CL_FALSE *)
| PlanFailed (why : PlanFailure) (sizes : RunSizes).  (* CL_TRUE *)

Definition maxWorkDim (di : DevInfo) : Z :=
  let '(w0, w1, w2) := maxWorkItemSizes di in
  to_ulong (to_ulong (w0 * w1) * w2).

Definition blockSize (di : DevInfo) (wgi : WGInfo) : Z :=
  let nWavefrontPerCU := wgs wgi / warpSize di in
  to_size (to_size (nWavefrontPerCU * warpSize di) * maxCompUnits di).

(** The [while (sizes->chunkSize > maxWorkDim)] loop, run for at most
    [fuel] tests of its condition. *)
Fixpoint clampLoop (fuel : nat) (maxWorkDim : Z) (sizes : RunSizes)
  : result RunSizes :=
  match fuel with
  | O => OutOfFuel
  | S fuel' =>
      if chunkSize sizes >? maxWorkDim then
        let sizes := set_nChunk (to_size (nChunk sizes * 2)) sizes in
        c <- udiv (effectiveArea sizes) (nChunk sizes) ;;
        let sizes := set_chunkSize (to_size c) sizes in
        clampLoop fuel' maxWorkDim sizes
      else Value sizes
  end.

(** Doubling a 64-bit [nChunk] yields zero after at most 64 rounds, so
    65 tests of the condition always suffice ([clampLoop_fuel]). *)
Definition clampFuel : nat := 65.

(** [findRunSizes] is one long function; its body from line 193 on is
    given block by block. *)

(** Lines 193-214: the magic factor, the user's when positive, else
    the one computed from the chunk estimate. *)
Definition chooseMagic (clr : CLRequest) (blockSize : Z) (sizes : RunSizes)
  : result Z :=
  if magicFactor clr <=? 0 then
    m <- udiv (area sizes) (to_size (nChunkEstimate sizes * blockSize)) ;;
    let magic := to_uint m in
    Value (if magic =? 0 then 1 else magic)
  else Value (to_uint (magicFactor clr)).

(** Lines 216-235: chunk size, padded area and number of chunks. *)
Definition chooseChunks (forceOneChunk : bool) (blockSize magic : Z)
           (sizes : RunSizes) : result RunSizes :=
  let sizes := set_chunkSize (to_size (magic * blockSize)) sizes in
  q <- mwDivRoundup (area sizes) (chunkSize sizes) ;;
  let sizes := set_effectiveArea (to_ulong (chunkSize sizes * q)) sizes in
  n <- (if forceOneChunk then Value 1
        else mwDivRoundup (effectiveArea sizes) (chunkSize sizes)) ;;
  let sizes := set_nChunk (to_size n) sizes in
  let sizes := set_extra (to_uint (effectiveArea sizes - area sizes)) sizes in
  sizes <-
    (if nChunk sizes =? 1 then
       q1 <- mwDivRoundup (area sizes) blockSize ;;
       let sizes := set_effectiveArea (to_ulong (blockSize * q1)) sizes in
       let sizes := set_chunkSize (to_size (effectiveArea sizes)) sizes in
       let sizes := set_extra (to_uint (effectiveArea sizes - area sizes)) sizes in
       Value sizes
     else Value sizes) ;;
  _ <- udiv (chunkSize sizes) blockSize ;;   (* the magic factor printed *)
  c <- udiv (effectiveArea sizes) (nChunk sizes) ;;
  Value (set_chunkSize (to_size c) sizes).

(** Lines 238-256: the clamp against the maximum work dimension. *)
Definition clampChunks (maxWorkDim blockSize : Z) (sizes : RunSizes)
  : result PlanReturn :=
  if chunkSize sizes >? maxWorkDim then
    sizes <- clampLoop clampFuel maxWorkDim sizes ;;
    byLocal <- mwDivisible (chunkSize sizes) (local sizes) ;;
    if negb byLocal then Value (PlanFailed LargeWorkunitUnhandled sizes)
    else
      _ <- mwDivisible (chunkSize sizes) blockSize ;;   (* a warning only *)
      Value (Planned sizes)
  else Value (Planned sizes).

(** Lines 258-268: the global size and the final check. *)
Definition finishPlan (sizes : RunSizes) : PlanReturn :=
  let sizes := set_global (chunkSize sizes) sizes in
  if effectiveArea sizes <? area sizes
  then PlanFailed EffectiveAreaTooSmall sizes
  else Planned sizes.

(** [findRunSizes]: [kern] is the global [_separationKernel] and
    [sizes] is [*sizes] as the caller passes it; the result carries
    [*sizes] as the function leaves it. *)
Definition findRunSizes (kern : cl_kernel) (sizes : RunSizes) (ci : CLInfo)
           (di : DevInfo) (ap : AstronomyParameters) (ia : IntegralArea)
           (clr : CLRequest) : result PlanReturn :=
  let forceOneChunk := nonResponsive clr || nonOutput di in
  let maxWorkDim := maxWorkDim di in
  let r64 := r_steps ia in
  let mu64 := mu_steps ia in
  let sizes := set_r (r_steps ia) sizes in
  let sizes := set_mu (mu_steps ia) sizes in
  let sizes := set_nu (nu_steps ia) sizes in
  let sizes := set_area (to_ulong (r64 * mu64)) sizes in
  lim <- udiv CL_ULONG_MAX mu64 ;;
  if r64 >? lim then Value (PlanFailed AreaOverflows sizes)
  else if devType di =? CL_DEVICE_TYPE_CPU then
    let sizes := set_nChunkEstimate 1 sizes in
    let sizes := set_nChunk 1 sizes in
    let sizes := set_effectiveArea (area sizes) sizes in
    let sizes := set_chunkSize (to_size (area sizes)) sizes in
    let sizes := set_extra 0 sizes in
    let sizes := set_local 1 sizes in
    let sizes := set_global (to_size (area sizes)) sizes in
    Value (Planned sizes)
  else
    let '(err, wgi) := mwGetWorkGroupInfo kern ci in
    if negb (err =? CL_SUCCESS) then Value (PlanFailed WorkGroupInfoFailed sizes)
    else
      divisible <- mwDivisible (wgs wgi) (warpSize di) ;;
      if negb divisible then Value (PlanFailed GroupSizeNotWarpMultiple sizes)
      else
        let sizes := set_local (warpSize di) sizes in
        let blockSize := blockSize di wgi in
        est <- findNChunk ap ia di clr ;;
        let sizes := set_nChunkEstimate est sizes in
        magic <- chooseMagic clr blockSize sizes ;;
        sizes <- chooseChunks forceOneChunk blockSize magic sizes ;;
        clamped <- clampChunks maxWorkDim blockSize sizes ;;
        match clamped with
        | Planned sizes => Value (finishPlan sizes)
        | PlanFailed why sizes => Value (PlanFailed why sizes)
        end.

End Planner.

(* ================================================================= *)
(** ** Resource capability checker *)

Definition NUM_CONST_BUF_ARGS : Z := 5.

(** The messages of the checker, in the order of its tests. *)
Inductive Diagnostic : Type :=
| NoDoublePrecision       (* "Device doesn't support double precision" *)
| TotalMemoryExceeded     (* "Total required device memory ... > available" *)
| OutputMemoryExceeded    (* "Device has insufficient global memory for output buffers" *)
| OutputAllocExceeded     (* "An output buffer would exceed CL_DEVICE_MAX_MEM_ALLOC_SIZE" *)
| GlobalConstAllocExceeded (* "A global constant buffer would exceed CL_DEVICE_MAX_MEM_ALLOC_SIZE" *)
| ConstArgsExceeded       (* "Need more constant arguments than available" *)
| ConstBufferExceeded     (* "Device doesn't have enough constant buffer space" *)
| CutFailed (i : Z).      (* "Capability check failed for cut %u" *)

(** [separationCheckDevMemory]: its value and what it prints. *)
Definition separationCheckDevMemory (di : DevInfo) (sizes : SeparationSizes)
  : bool * list Diagnostic :=
  let totalOut :=
    to_size (SeparationSizes.outBg sizes + SeparationSizes.outStreams sizes) in
  let totalConstBuf :=
    to_size (to_size (to_size (SeparationSizes.ap sizes + SeparationSizes.ia sizes)
                      + SeparationSizes.sc sizes) + SeparationSizes.sg_dx sizes) in
  let totalGlobalConst :=
    to_size (to_size (to_size (SeparationSizes.lTrig sizes + SeparationSizes.bSin sizes)
                      + SeparationSizes.rPts sizes) + SeparationSizes.rc sizes) in
  let totalMem := to_size (to_size (totalOut + totalConstBuf) + totalGlobalConst) in
  if totalMem >? memSize di then (false, [TotalMemoryExceeded])
  else if totalOut >? memSize di then (false, [OutputMemoryExceeded])
  else if (SeparationSizes.outBg sizes >? maxMemAlloc di)
          || (SeparationSizes.outStreams sizes >? maxMemAlloc di)
  then (false, [OutputAllocExceeded])
  else if (SeparationSizes.lTrig sizes >? maxMemAlloc di)
          || (SeparationSizes.bSin sizes >? maxMemAlloc di)
          || (SeparationSizes.rPts sizes >? maxMemAlloc di)
          || (SeparationSizes.rc sizes >? maxMemAlloc di)
  then (false, [GlobalConstAllocExceeded])
  else if NUM_CONST_BUF_ARGS >? maxConstArgs di then (false, [ConstArgsExceeded])
  else if totalConstBuf >? maxConstBufSize di then (false, [ConstBufferExceeded])
  else (true, []).

Section Setup.

Variable DOUBLEPREC : bool.

(** Functions of the device library and of separation_cl_buffers.c,
    which are not part of the sources: parameters. *)
Variable mwSupportsDoubles : DevInfo -> bool.
Variable calculateSizes : AstronomyParameters -> IntegralArea -> SeparationSizes.
Variable mwIsAMDGPUDevice : DevInfo -> bool.
Variable mwPlatformSupportsAMDOfflineDevices : CLInfo -> bool.
Variable MW_CL_ERROR : Z.

(** The [for (i = 0; i < ap->number_integrals; ++i)] loop of
    [separationCheckDevCapabilities], with [todo] cuts left to check. *)
Fixpoint checkCuts (todo : nat) (i : Z) (di : DevInfo) (ap : AstronomyParameters)
         (ias : list IntegralArea) : result (bool * list Diagnostic) :=
  match todo with
  | O => Value (true, [])
  | S todo' =>
      match nth_error ias (Z.to_nat i) with
      | None => Undef OutOfBounds
      | Some ia =>
          let sizes := calculateSizes ap ia in
          let '(ok, log) := separationCheckDevMemory di sizes in
          if negb ok then Value (false, log ++ [CutFailed i])
          else if i =? 2 ^ 31 - 1 then Undef SignedOverflow
          else
            rest <- checkCuts todo' (i + 1) di ap ias ;;
            Value (fst rest, log ++ snd rest)
      end
  end.

Definition separationCheckDevCapabilities (di : DevInfo) (ap : AstronomyParameters)
           (ias : list IntegralArea) : result (bool * list Diagnostic) :=
  if DOUBLEPREC && negb (mwSupportsDoubles di)
  then Value (false, [NoDoublePrecision])
  else checkCuts (Z.to_nat (number_integrals ap)) 0 di ap ias.

(* ================================================================= *)
(** ** Kernel variant selection *)

Definition isILKernelTarget (di : DevInfo) : bool :=
  match calTarget di with
  | MW_CAL_TARGET_770 | MW_CAL_TARGET_CYPRESS | MW_CAL_TARGET_CAYMAN => true
  | MW_CAL_TARGET_other _ => false
  end.

Definition maxILKernelStreams : Z := 4.

Definition usingILKernelIsAcceptable (ci : CLInfo) (ap : AstronomyParameters)
           (clr : CLRequest) : bool :=
  let di := di ci in
  if negb DOUBLEPREC then false
  else if forceNoILKernel clr then false
  else if (number_streams ap >? maxILKernelStreams) || negb (aux_bg_profile ap =? 0)
  then false
  else mwIsAMDGPUDevice di && isILKernelTarget di
       && mwPlatformSupportsAMDOfflineDevices ci.

(** The calls into the device library, the flag generator and the
    binary patcher.  A run of [setupSeparationCL] makes each call at
    most once per call site; [Externals] gives the outcome at each. *)
Record Externals : Type := mkExternals {
  ext_mwSetupCL : Z * CLInfo;          (* status, and [*ci] as filled in *)
  ext_getCompilerFlags : bool;         (* a flag string was returned *)
  ext_mwSetProgramFromSrc : Z;         (* status of the first build *)
  ext_mwGetProgramBinary : bool;       (* a binary was returned *)
  ext_clReleaseProgram : Z;
  ext_getModifiedAMDBinary : bool;     (* a patched binary was returned *)
  ext_mwSetProgramFromBin : Z;
  ext_mwSetProgramFromSrc_again : Z;   (* status of the fallback build *)
  ext_mwCreateKernel : Z;
  ext_progAfterFailedBin : Program     (* [ci->prog] after a failed [mwSetProgramFromBin] *)
}.

Inductive Event : Type :=
| CallSetupCL
| CallGetCompilerFlags (useILKernel : bool)
| CallSetProgramFromSrc
| CallGetProgramBinary
| CallReleaseProgram
| CallGetModifiedAMDBinary (number_streams : Z) (target : MWCALtargetEnum)
| CallSetProgramFromBin
| CallCreateKernel.

(** [*ci], the global [_separationKernel] and the calls made so far. *)
Record SetupState : Type := mkSetupState {
  st_ci : CLInfo;
  st_kernel : cl_kernel;
  st_trace : list Event
}.

Definition call (e : Event) (st : SetupState) : SetupState :=
  mkSetupState (st_ci st) (st_kernel st) (st_trace st ++ [e]).

Definition with_prog (p : Program) (st : SetupState) : SetupState :=
  mkSetupState (set_prog p (st_ci st)) (st_kernel st) (st_trace st).

(** [mwSetProgramFromSrc]: on success the program of [*ci] is the one
    built from the source text. *)
Definition mwSetProgramFromSrc (status : Z) (st : SetupState) : Z * SetupState :=
  let st := call CallSetProgramFromSrc st in
  (status, if status =? CL_SUCCESS then with_prog SourceProgram st
           else with_prog NoProgram st).

(** Modelled from the spec: [mwCreateKernel(&_separationKernel, ci, name)]
    of the device library is not part of the sources.  "Produces exactly
    one named entry-point kernel handle ("probabilities") bound to
    whichever program variant succeeded", and "no partial RunSizes or
    KernelHandle is returned on failure": on success the global holds a
    kernel of the program of [*ci]; on failure it holds what it held. *)
Definition mwCreateKernel (ext : Externals) (st : SetupState) : Z * SetupState :=
  let st := call CallCreateKernel st in
  (ext_mwCreateKernel ext,
   if ext_mwCreateKernel ext =? CL_SUCCESS
   then mkSetupState (st_ci st) (Some (prog (st_ci st))) (st_trace st)
   else st).

(** [setProgramFromILKernel]: [clReleaseProgram] is given [ci->prog] by
    value, so [*ci] keeps the released program until
    [mwSetProgramFromBin] assigns it; what that call, which is not part
    of the sources, leaves there when it fails is a parameter. *)
Definition setProgramFromILKernel (ext : Externals) (ap : AstronomyParameters)
           (clr : CLRequest) (st : SetupState) : Z * SetupState :=
  let st := call CallGetProgramBinary st in
  if negb (ext_mwGetProgramBinary ext) then (MW_CL_ERROR, st)
  else
    let st := call CallReleaseProgram st in
    if negb (ext_clReleaseProgram ext =? CL_SUCCESS) then (ext_clReleaseProgram ext, st)
    else
      let st := with_prog ReleasedProgram st in
      let st := call (CallGetModifiedAMDBinary (number_streams ap)
                                               (calTarget (di (st_ci st)))) st in
      if negb (ext_getModifiedAMDBinary ext) then (MW_CL_ERROR, st)
      else
        let st := call CallSetProgramFromBin st in
        if negb (ext_mwSetProgramFromBin ext =? CL_SUCCESS)
        then (ext_mwSetProgramFromBin ext, with_prog (ext_progAfterFailedBin ext) st)
        else (CL_SUCCESS, with_prog ILProgram st).

Definition setupSeparationCL (ext : Externals) (st : SetupState)
           (ap : AstronomyParameters) (ias : list IntegralArea) (clr : CLRequest)
  : result (Z * SetupState) :=
  let st := call CallSetupCL st in
  let '(err, ci) := ext_mwSetupCL ext in
  let st := mkSetupState ci (st_kernel st) (st_trace st) in
  if negb (err =? CL_SUCCESS) then Value (err, st)
  else
    capable <- separationCheckDevCapabilities (di (st_ci st)) ap ias ;;
    if negb (fst capable) then Value (MW_CL_ERROR, st)
    else
      let useILKernel := usingILKernelIsAcceptable (st_ci st) ap clr in
      let st := call (CallGetCompilerFlags useILKernel) st in
      if negb (ext_getCompilerFlags ext) then Value (MW_CL_ERROR, st)
      else
        let '(err, st) := mwSetProgramFromSrc (ext_mwSetProgramFromSrc ext) st in
        if negb (err =? CL_SUCCESS) then Value (err, st)
        else
          let '(err, st) :=
            if useILKernel then
              let '(err, st) := setProgramFromILKernel ext ap clr st in
              if negb (err =? CL_SUCCESS)
              then mwSetProgramFromSrc (ext_mwSetProgramFromSrc_again ext) st
              else (err, st)
            else (err, st) in
          if err =? CL_SUCCESS then Value (mwCreateKernel ext st)
          else Value (err, st).

End Setup.

(* ================================================================= *)
(** ** Kernel arguments, release of the kernel and CUDA estimate *)

(** The buffers of [SeparationCLMem] that are arguments of the kernel
    ([cl_mem] handles). *)
Module SeparationCLMem.
Record t : Type := mk {
  outBg : Z;
  outStreams : Z;
  rc : Z;
  rPts : Z;
  lTrig : Z;
  bSin : Z;
  ap : Z;
  sc : Z;
  sg_dx : Z
}.
End SeparationCLMem.
Abbreviation SeparationCLMem := SeparationCLMem.t.

(** What [clSetKernelArg] is given: a buffer or a [cl_uint]. *)
Inductive KernelArg : Type :=
| BufferArg (mem : Z)
| UIntArg (value : Z).

(** The literals [1.87] and [1.53]. *)
Definition d_1_87 : cl_double := S754_finite false 8421731303182828 (-52).
Definition d_1_53 : cl_double := S754_finite false 6890507429876859 (-52).

Section Kernel.

(** [clSetKernelArg] and [clReleaseKernel] of OpenCL, and the test of
    the compute capability of the device library: parameters.  For
    [clSetKernelArg] the status of the call with an argument index and
    a value. *)
Variable clSetKernelArg : cl_kernel -> Z -> KernelArg -> Z.
Variable clReleaseKernel : Program -> Z.
Variable mwComputeCapabilityIs : DevInfo -> Z -> Z -> bool.

(** [releaseSeparationKernel]: the kernel object is released when
    there is one; the global [_separationKernel] is left as it is. *)
Definition releaseSeparationKernel (kern : cl_kernel) : Z :=
  let err := CL_SUCCESS in
  match kern with
  | Some k => clReleaseKernel k
  | None => err
  end.

(** [separationSetKernelArgs]: [kern] is the global [_separationKernel];
    [err |= ...] is the bitwise or of the [cl_int] statuses. *)
Definition separationSetKernelArgs (kern : cl_kernel) (cm : SeparationCLMem)
           (runSizes : RunSizes) : Z :=
  let err := CL_SUCCESS in
  let err := Z.lor err (clSetKernelArg kern 0 (BufferArg (SeparationCLMem.outBg cm))) in
  let err := Z.lor err (clSetKernelArg kern 1 (BufferArg (SeparationCLMem.outStreams cm))) in
  let err := Z.lor err (clSetKernelArg kern 2 (BufferArg (SeparationCLMem.rc cm))) in
  let err := Z.lor err (clSetKernelArg kern 3 (BufferArg (SeparationCLMem.rPts cm))) in
  let err := Z.lor err (clSetKernelArg kern 4 (BufferArg (SeparationCLMem.lTrig cm))) in
  let err := Z.lor err (clSetKernelArg kern 5 (BufferArg (SeparationCLMem.bSin cm))) in
  let err := Z.lor err (clSetKernelArg kern 6 (BufferArg (SeparationCLMem.ap cm))) in
  let err := Z.lor err (clSetKernelArg kern 7 (BufferArg (SeparationCLMem.sc cm))) in
  let err := Z.lor err (clSetKernelArg kern 8 (BufferArg (SeparationCLMem.sg_dx cm))) in
  let err := Z.lor err (clSetKernelArg kern 9 (UIntArg (extra runSizes))) in
  let err := Z.lor err (clSetKernelArg kern 10 (UIntArg (r runSizes))) in
  let err := Z.lor err (clSetKernelArg kern 11 (UIntArg (mu runSizes))) in
  let err := Z.lor err (clSetKernelArg kern 12 (UIntArg (nu runSizes))) in
  if negb (err =? CL_SUCCESS) then err else CL_SUCCESS.

(** [cudaEstimateIterTime], in milliseconds. *)
Definition cudaEstimateIterTime (di : DevInfo) (flopsPerIter flops : cl_double)
  : cl_double :=
  let devFactor := if mwComputeCapabilityIs di 1 3 then d_1_87 else d_1_53 in
  ddiv (dmul (dmul d_1000 devFactor) flopsPerIter) flops.

End Kernel.

(* ================================================================= *)
(** * Definitions for the statements *)

(** ** States of [*sizes] *)

Definition sizesOf (ret : PlanReturn) : RunSizes :=
  match ret with
  | Planned s => s
  | PlanFailed _ s => s
  end.

(** The return value with another global size in [*sizes]. *)
Definition with_global (g : Z) (ret : PlanReturn) : PlanReturn :=
  match ret with
  | Planned s => Planned (set_global g s)
  | PlanFailed why s => PlanFailed why (set_global g s)
  end.

(** [*sizes] after lines 136-139: the steps and the raw area stored. *)
Definition withArea (ia : IntegralArea) (sizes : RunSizes) : RunSizes :=
  set_area (to_ulong (r_steps ia * mu_steps ia))
    (set_nu (nu_steps ia) (set_mu (mu_steps ia) (set_r (r_steps ia) sizes))).

(** [*sizes] when the magic factor is chosen (line 194). *)
Definition atEstimate (di : DevInfo) (ia : IntegralArea) (est : Z)
           (sizes : RunSizes) : RunSizes :=
  set_nChunkEstimate est (set_local (warpSize di) (withArea ia sizes)).

(** [*sizes] as the short cut for CPU devices leaves it (lines 149-154). *)
Definition cpuSizes (ia : IntegralArea) (sizes : RunSizes) : RunSizes :=
  let a := to_ulong (r_steps ia * mu_steps ia) in
  mkRunSizes (to_size a) 1 0 1 1 (to_size a) a a
             (r_steps ia) (mu_steps ia) (nu_steps ia).

(** The fields that lines 193-256 leave alone. *)
Definition sameArea (s s' : RunSizes) : Prop :=
  global s' = global s /\ local s' = local s /\
  nChunkEstimate s' = nChunkEstimate s /\ area s' = area s /\
  r s' = r s /\ mu s' = mu s /\ nu s' = nu s.

(** ** The chunk count of the specification *)

(** The integral part of a double rounded up, for the chunk count as the
    specification words it: "ceil(estimated_iteration_time_ms /
    (1000 / target_frequency_hz)), floored at 1". *)
Definition double_ceil (d : cl_double) : option Z :=
  match d with
  | S754_zero _ => Some 0
  | S754_finite s m e => Some (- Z.shiftl (- cond_Zopp s (Zpos m)) e)
  | S754_infinity _ => None
  | S754_nan => None
  end.

Definition findNChunk_spec (DOUBLEPREC : bool)
           (mwDeviceEstimateGFLOPs : DevInfo -> bool -> cl_double)
           (ap : AstronomyParameters) (ia : IntegralArea)
           (di : DevInfo) (clr : CLRequest) : option Z :=
  match double_ceil (chunkQuotient DOUBLEPREC mwDeviceEstimateGFLOPs ap ia di clr) with
  | Some c => Some (Z.max 1 c)
  | None => None
  end.

(** ** The capability checks of the specification *)

(** The total of all buffers of a cut, as a number. *)
Definition totalSize (sizes : SeparationSizes) : Z :=
  SeparationSizes.outBg sizes + SeparationSizes.outStreams sizes
  + SeparationSizes.ap sizes + SeparationSizes.ia sizes
  + SeparationSizes.sc sizes + SeparationSizes.sg_dx sizes
  + SeparationSizes.lTrig sizes + SeparationSizes.bSin sizes
  + SeparationSizes.rPts sizes + SeparationSizes.rc sizes.

(** The checks on one cut as the specification lists them, (b) to (f),
    each with the message the code prints when it fails. *)
Definition cutChecks_spec (di : DevInfo) (sizes : SeparationSizes)
  : list (bool * Diagnostic) :=
  [ (totalSize sizes <=? memSize di, TotalMemoryExceeded);
    ((SeparationSizes.outBg sizes <=? memSize di)
     && (SeparationSizes.outStreams sizes <=? memSize di), OutputMemoryExceeded);
    ((SeparationSizes.outBg sizes <=? maxMemAlloc di)
     && (SeparationSizes.outStreams sizes <=? maxMemAlloc di), OutputAllocExceeded);
    ((SeparationSizes.lTrig sizes <=? maxMemAlloc di)
     && (SeparationSizes.bSin sizes <=? maxMemAlloc di)
     && (SeparationSizes.rPts sizes <=? maxMemAlloc di)
     && (SeparationSizes.rc sizes <=? maxMemAlloc di), GlobalConstAllocExceeded);
    (NUM_CONST_BUF_ARGS <=? maxConstArgs di, ConstArgsExceeded);
    (SeparationSizes.ap sizes + SeparationSizes.ia sizes
     + SeparationSizes.sc sizes + SeparationSizes.sg_dx sizes
     <=? maxConstBufSize di, ConstBufferExceeded) ].

(** Checks made in order: the first one that fails decides. *)
Fixpoint firstFailure (checks : list (bool * Diagnostic)) : bool * list Diagnostic :=
  match checks with
  | [] => (true, [])
  | (ok, why) :: rest => if ok then firstFailure rest else (false, [why])
  end.

Section CapabilitySpec.

Variable DOUBLEPREC : bool.
Variable mwSupportsDoubles : DevInfo -> bool.
Variable calculateSizes : AstronomyParameters -> IntegralArea -> SeparationSizes.

(** The cuts the loop of the checker visits. *)
Definition cutsOf (ap : AstronomyParameters) (ias : list IntegralArea)
  : list IntegralArea :=
  firstn (Z.to_nat (number_integrals ap)) ias.

(** The capability check as the specification words it: the precision
    the build requires, and every check on every cut. *)
Definition capable_spec (di : DevInfo) (ap : AstronomyParameters)
           (ias : list IntegralArea) : bool :=
  (negb DOUBLEPREC || mwSupportsDoubles di)
  && forallb (fun ia => forallb fst (cutChecks_spec di (calculateSizes ap ia)))
             (cutsOf ap ias).

(** The buffer sizes of every cut are sizes whose total does not wrap. *)
Definition sizesRepresentable (ap : AstronomyParameters) (ias : list IntegralArea)
  : Prop :=
  forall ia, In ia (cutsOf ap ias) ->
    wf_SeparationSizes (calculateSizes ap ia) /\
    totalSize (calculateSizes ap ia) < 2 ^ 64.

End CapabilitySpec.

(** The binary patch path fails: one of its four steps does. *)
Definition ilPathFails (ext : Externals) : Prop :=
  ext_mwGetProgramBinary ext = false \/
  ext_clReleaseProgram ext <> CL_SUCCESS \/
  ext_getModifiedAMDBinary ext = false \/
  ext_mwSetProgramFromBin ext <> CL_SUCCESS.

(** ** The calls of the setup and of the kernel arguments *)

Definition isSourceBuild (e : Event) : bool :=
  match e with
  | CallSetProgramFromSrc => true
  | _ => false
  end.

Definition isBinaryStep (e : Event) : bool :=
  match e with
  | CallGetProgramBinary | CallReleaseProgram
  | CallGetModifiedAMDBinary _ _ | CallSetProgramFromBin => true
  | _ => false
  end.

Definition isCreateKernel (e : Event) : bool :=
  match e with
  | CallCreateKernel => true
  | _ => false
  end.

(** The calls of [clSetKernelArg] that [separationSetKernelArgs] makes,
    in their order: argument index and value. *)
Definition kernelArguments (cm : SeparationCLMem) (runSizes : RunSizes)
  : list (Z * KernelArg) :=
  [ (0, BufferArg (SeparationCLMem.outBg cm));
    (1, BufferArg (SeparationCLMem.outStreams cm));
    (2, BufferArg (SeparationCLMem.rc cm));
    (3, BufferArg (SeparationCLMem.rPts cm));
    (4, BufferArg (SeparationCLMem.lTrig cm));
    (5, BufferArg (SeparationCLMem.bSin cm));
    (6, BufferArg (SeparationCLMem.ap cm));
    (7, BufferArg (SeparationCLMem.sc cm));
    (8, BufferArg (SeparationCLMem.sg_dx cm));
    (9, UIntArg (extra runSizes));
    (10, UIntArg (r runSizes));
    (11, UIntArg (mu runSizes));
    (12, UIntArg (nu runSizes)) ].

(** A double that is a number: neither infinite nor NaN. *)
Definition is_number (d : cl_double) : bool :=
  match d with
  | S754_zero _ | S754_finite _ _ _ => true
  | S754_infinity _ | S754_nan => false
  end.

(** ** Concrete devices, areas and requests *)

(** A device library that estimates 1000 GFLOPS for every device. *)
Definition gflops1000 : DevInfo -> bool -> cl_double :=
  fun _ _ => double_of_Z 1000.

(** A device library without any throughput estimate. *)
Definition gflops0 : DevInfo -> bool -> cl_double :=
  fun _ _ => double_of_Z 0.

(** A kernel query that succeeds and reports the work group size [w]. *)
Definition groupSize (w : Z) : cl_kernel -> CLInfo -> Z * WGInfo :=
  fun _ _ => (CL_SUCCESS, mkWGInfo w).

(** A GPU (4 GiB, Cypress) with [cu] compute units, warp size [warp] and
    maximum work item sizes [mw]. *)
Definition gpu (cu warp : Z) (mw : Z * Z * Z) : DevInfo :=
  mkDevInfo CL_DEVICE_TYPE_GPU cu (2 ^ 32) (2 ^ 16) 8 (2 ^ 30) warp mw
            MW_CAL_TARGET_CYPRESS false.

Definition cpu : DevInfo :=
  mkDevInfo CL_DEVICE_TYPE_CPU 4 (2 ^ 32) (2 ^ 16) 8 (2 ^ 30) 1 (1024, 1, 1)
            (MW_CAL_TARGET_other 0) false.

(** A device with 1 KiB of global memory. *)
Definition tinyDevice : DevInfo :=
  mkDevInfo CL_DEVICE_TYPE_GPU 1 1024 (2 ^ 16) 8 (2 ^ 30) 32 (1024, 1, 1)
            MW_CAL_TARGET_CYPRESS false.

Definition onDevice (d : DevInfo) : CLInfo := mkCLInfo d NoProgram.

Definition sizes0 : RunSizes := mkRunSizes 0 0 0 0 0 0 0 0 0 0 0.

(** Four streams, 120 convolution points, no auxiliary background
    profile, one integral. *)
Definition fourStreams : AstronomyParameters := mkAstronomyParameters 4 120 0 1.

(** A request for [hz] kernel launches a second with magic factor [magic]. *)
Definition request (hz magic : Z) (nonResponsive : bool) : CLRequest :=
  mkCLRequest (double_of_Z hz) magic nonResponsive false false.

Definition smallSizes : SeparationSizes :=
  SeparationSizes.mk 1024 1024 128 64 64 64 64 64 64 64.

(** Calls that all succeed but for the binary of the program, which is
    not returned, and the kernel, whose creation ends with [status]. *)
Definition noBinary (d : DevInfo) (status : Z) : Externals :=
  mkExternals (CL_SUCCESS, onDevice d) true CL_SUCCESS false CL_SUCCESS true
              CL_SUCCESS CL_SUCCESS status NoProgram.

Definition state0 : SetupState := mkSetupState (onDevice cpu) None [].

(** Calls that all succeed, the kernel creation ending with [status]. *)
Definition allSucceed (d : DevInfo) (status : Z) : Externals :=
  mkExternals (CL_SUCCESS, onDevice d) true CL_SUCCESS true CL_SUCCESS true
              CL_SUCCESS CL_SUCCESS status NoProgram.

(** Nine buffers, numbered from 100. *)
Definition buffers : SeparationCLMem :=
  SeparationCLMem.mk 100 101 102 103 104 105 106 107 108.

(** A [clSetKernelArg] that fails with [status] for the argument
    [index] and succeeds for every other one. *)
Definition failingAt (index status : Z) : cl_kernel -> Z -> KernelArg -> Z :=
  fun _ i _ => if i =? index then status else CL_SUCCESS.

(* ================================================================= *)
(** * Properties *)

(** ** Arithmetic of the machine integers *)

Lemma to_ulong_range (x : Z) : 0 <= to_ulong x < 2 ^ 64.
Proof. unfold to_ulong. apply Z.mod_pos_bound. lia. Qed.

Lemma to_size_range (x : Z) : 0 <= to_size x < 2 ^ 64.
Proof. unfold to_size. apply Z.mod_pos_bound. lia. Qed.

Lemma to_uint_range (x : Z) : 0 <= to_uint x < 2 ^ 32.
Proof. unfold to_uint. apply Z.mod_pos_bound. lia. Qed.

Lemma to_ulong_small (x : Z) : 0 <= x < 2 ^ 64 -> to_ulong x = x.
Proof. intros H. unfold to_ulong. apply Z.mod_small. exact H. Qed.

Lemma to_size_small (x : Z) : 0 <= x < 2 ^ 64 -> to_size x = x.
Proof. intros H. unfold to_size. apply Z.mod_small. exact H. Qed.

Lemma to_uint_small (x : Z) : 0 <= x < 2 ^ 32 -> to_uint x = x.
Proof. intros H. unfold to_uint. apply Z.mod_small. exact H. Qed.

Lemma udiv_Value (a b q : Z) : udiv a b = Value q -> b <> 0 /\ q = a / b.
Proof.
  unfold udiv. destruct (Z.eqb_spec b 0); intros H; inversion H. split; auto.
Qed.

Lemma mwDivisible_Value (x n : Z) (b : bool) :
  mwDivisible x n = Value b -> n <> 0 /\ b = (x mod n =? 0).
Proof.
  unfold mwDivisible, umod. destruct (Z.eqb_spec n 0); simpl; intros H; inversion H.
  split; auto.
Qed.

(** [mwDivRoundup] is the ceiling of the quotient. *)
Lemma mwDivRoundup_Value (a b q : Z) :
  0 <= a -> 0 <= b -> mwDivRoundup a b = Value q ->
  0 < b /\ 0 <= q /\ a <= b * q < a + b.
Proof.
  intros Ha Hb. unfold mwDivRoundup, umod, udiv.
  destruct (Z.eqb_spec b 0) as [->|Hb0]; simpl; [discriminate|].
  intros H. inversion H; subst q; clear H.
  assert (Hpos : 0 < b) by lia.
  pose proof (Z.div_mod a b Hb0) as Hdm.
  pose proof (Z.mod_pos_bound a b Hpos) as Hm.
  pose proof (Z.div_pos a b Ha Hpos) as Hq.
  destruct (Z.eqb_spec (a mod b) 0); simpl; split; auto; split; nia.
Qed.

Lemma mwDivRoundup_exact (b q : Z) :
  0 < b -> 0 <= q -> mwDivRoundup (b * q) b = Value q.
Proof.
  intros Hb Hq. unfold mwDivRoundup, umod, udiv.
  destruct (Z.eqb_spec b 0); [lia|]. simpl.
  rewrite Z.mul_comm, Z.mod_mul, Z.div_mul by lia. reflexivity.
Qed.

(** A padded area that wrapped around falls below the area, so a
    padded area that does not, did not wrap. *)
Lemma roundup_no_wrap (a b q : Z) :
  0 <= a < 2 ^ 64 -> 0 < b < 2 ^ 64 -> a <= b * q < a + b ->
  a <= to_ulong (b * q) -> to_ulong (b * q) = b * q.
Proof.
  intros Ha Hb Hq Hle.
  destruct (Z_lt_le_dec (b * q) (2 ^ 64)) as [Hlt|Hge].
  - apply to_ulong_small. lia.
  - exfalso. unfold to_ulong in Hle.
    assert (Hm : (b * q) mod 2 ^ 64 = b * q - 2 ^ 64).
    { symmetry. apply Z.mod_unique with (q := 1); lia. }
    lia.
Qed.

(* ================================================================= *)
(** ** The blocks of the run-size planner *)

Lemma sameArea_refl (s : RunSizes) : sameArea s s.
Proof. unfold sameArea. repeat split. Qed.

Lemma sameArea_trans (s1 s2 s3 : RunSizes) :
  sameArea s1 s2 -> sameArea s2 s3 -> sameArea s1 s3.
Proof. unfold sameArea. intuition congruence. Qed.

(** Taking one case of the next test or fallible step of a block. *)
Ltac block_step H :=
  match type of H with
  | bind ?c _ = _ =>
      let v := fresh "v" in let E := fresh "E" in
      destruct c as [v| |] eqn:E; cbn [bind] in H; [|discriminate H|discriminate H]
  | (if ?b then _ else _) = _ =>
      let E := fresh "E" in destruct b eqn:E
  | (let '(_, _) := ?p in _) = _ =>
      let x := fresh "x" in let y := fresh "y" in let E := fresh "E" in
      destruct p as [x y] eqn:E
  | Value _ = Value _ => inversion H; clear H
  end.

Ltac fields :=
  cbn [sizesOf global local extra nChunk nChunkEstimate chunkSize area
       effectiveArea r mu nu set_global set_local set_extra set_nChunk
       set_nChunkEstimate set_chunkSize set_area set_effectiveArea set_r
       set_mu set_nu] in *.

Lemma chooseMagic_override (clr : CLRequest) (b : Z) (s : RunSizes) :
  0 < magicFactor clr -> is_int (magicFactor clr) ->
  chooseMagic clr b s = Value (magicFactor clr).
Proof.
  unfold chooseMagic, is_int. intros Hpos Hint.
  destruct (Z.leb_spec (magicFactor clr) 0); [lia|].
  rewrite to_uint_small by lia. reflexivity.
Qed.

Lemma chooseMagic_range (clr : CLRequest) (b : Z) (s : RunSizes) (magic : Z) :
  is_int (magicFactor clr) ->
  chooseMagic clr b s = Value magic -> 1 <= magic < 2 ^ 32.
Proof.
  intros Hint H.
  destruct (Z_lt_le_dec 0 (magicFactor clr)) as [Hpos|Hle].
  - rewrite chooseMagic_override in H by assumption.
    inversion H. unfold is_int in Hint. lia.
  - unfold chooseMagic in H.
    destruct (Z.leb_spec (magicFactor clr) 0); [|lia].
    block_step H. block_step H. subst magic.
    pose proof (to_uint_range v). destruct (Z.eqb_spec (to_uint v) 0); lia.
Qed.


(** What lines 216-235 leave in [*sizes]: one chunk of whole blocks,
    or chunks of [magic] blocks each. *)
Lemma chooseChunks_inv (force : bool) (b magic : Z) (s s' : RunSizes) :
  is_ulong (area s) -> is_size b ->
  chooseChunks force b magic s = Value s' ->
  sameArea s s' /\ 0 < b /\
  ((nChunk s' = 1 /\
    (force = true \/
     exists q, area s <= to_size (magic * b) * q < area s + to_size (magic * b) /\
               mwDivRoundup (to_ulong (to_size (magic * b) * q)) (to_size (magic * b))
               = Value 1) /\
    exists q1, area s <= b * q1 < area s + b /\
               effectiveArea s' = to_ulong (b * q1) /\
               chunkSize s' = effectiveArea s')
   \/
   (nChunk s' <> 1 /\ force = false /\
    exists q, 0 < to_size (magic * b) /\
              area s <= to_size (magic * b) * q < area s + to_size (magic * b) /\
              effectiveArea s' = to_ulong (to_size (magic * b) * q) /\
              mwDivRoundup (effectiveArea s') (to_size (magic * b)) = Value (nChunk s') /\
              nChunk s' <> 0 /\
              chunkSize s' = effectiveArea s' / nChunk s')).
Proof.
  intros Ha Hb H. unfold chooseChunks in H. cbv zeta in H. fields.
  block_step H.
  pose proof (to_size_range (magic * b)) as Hc.
  apply mwDivRoundup_Value in E; [|unfold is_ulong in Ha; lia|lia].
  destruct E as (Hcpos & Hq & Hceil).
  block_step H. fields.
  assert (Hn : 0 <= v0 < 2 ^ 64).
  { pose proof (to_ulong_range (to_size (magic * b) * v)) as HE.
    destruct force.
    - inversion E; subst v0. lia.
    - apply mwDivRoundup_Value in E; [|lia|lia].
      destruct E as (_ & Hv0 & Hbound). split; [lia|]. nia. }
  rewrite (to_size_small v0) in H by exact Hn.
  block_step H. block_step H. block_step H. block_step H. subst s'. fields.
  apply udiv_Value in E1, E2. destruct E1 as [Hb0 _]. destruct E2 as [Hn0 ->].
  assert (Hbpos : 0 < b) by (unfold is_size in Hb; lia).
  split; [|split; [exact Hbpos|]].
  - destruct (Z.eqb_spec v0 1).
    + block_step E0. block_step E0. subst v1. unfold sameArea. fields. repeat split.
    + block_step E0. subst v1. unfold sameArea. fields. repeat split.
  - destruct (Z.eqb_spec v0 1) as [->|Hne].
    + left. block_step E0. block_step E0. subst v1. fields.
      apply mwDivRoundup_Value in E1; [|unfold is_ulong in Ha; lia|lia].
      destruct E1 as (_ & Hq1 & Hceil1).
      split; [reflexivity|]. split.
      { destruct force; [left; reflexivity|right]. exists v. split; assumption. }
      exists v0. split; [exact Hceil1|]. split; [reflexivity|].
      rewrite Z.div_1_r. rewrite to_size_small; [reflexivity|apply to_ulong_range].
    + right. block_step E0. subst v1. fields.
      split; [exact Hne|]. destruct force; [inversion E; congruence|].
      split; [reflexivity|]. exists v.
      pose proof (to_ulong_range (to_size (magic * b) * v)) as HE.
      repeat split; try lia; try assumption.
      rewrite to_size_small; [reflexivity|].
      split; [apply Z.div_pos; lia|].
      apply Z.le_lt_trans with (m := to_ulong (to_size (magic * b) * v)); [|lia].
      apply Z.div_le_upper_bound; nia.
Qed.

(** When the padded area did not fall below the area, the chunks of
    lines 216-235 cover it exactly. *)
Lemma chooseChunks_exact (force : bool) (b magic : Z) (s s' : RunSizes) :
  is_ulong (area s) -> is_size b ->
  chooseChunks force b magic s = Value s' ->
  area s <= effectiveArea s' ->
  chunkSize s' * nChunk s' = effectiveArea s' /\
  (nChunk s' = 1 -> exists q1, 0 <= q1 /\ chunkSize s' = b * q1) /\
  (nChunk s' <> 1 -> force = false /\ chunkSize s' = to_size (magic * b)).
Proof.
  intros Ha Hb H Hle.
  destruct (chooseChunks_inv force b magic s s' Ha Hb H) as (_ & Hbpos & Hcases).
  unfold is_ulong, is_size in *.
  destruct Hcases as [(Hn & _ & q1 & Hceil & HE & Hc)|(Hn & Hf & q & Hcpos & Hceil & HE & Hdiv & Hn0 & Hc)].
  - rewrite Hn, Hc. split; [lia|]. split; [|intros; congruence].
    intros _. exists q1. split; [nia|].
    rewrite HE. apply roundup_no_wrap with (a := area s); lia.
  - pose proof (to_size_range (magic * b)) as Hcr.
    assert (HE' : effectiveArea s' = to_size (magic * b) * q).
    { rewrite HE. apply roundup_no_wrap with (a := area s); lia. }
    assert (Hq : 0 <= q) by nia.
    rewrite HE' in Hdiv. rewrite mwDivRoundup_exact in Hdiv by lia.
    inversion Hdiv as [Hnq].
    assert (Hcs : chunkSize s' = to_size (magic * b)).
    { rewrite Hc, HE', <- Hnq. apply Z.div_mul. lia. }
    split; [rewrite Hcs, HE', <- Hnq; reflexivity|].
    split; [intros; contradiction|]. intros _. split; assumption.
Qed.

Lemma to_size_double (n : Z) (k : nat) :
  to_size (to_size (n * 2) * 2 ^ Z.of_nat k) = to_size (n * 2 ^ Z.of_nat (S k)).
Proof.
  unfold to_size. rewrite Z.mul_mod_idemp_l by lia.
  rewrite Nat2Z.inj_succ, Z.pow_succ_r by lia. f_equal. ring.
Qed.

(** The clamp loop: it stops below the maximum, and when it ran,
    [nChunk] was doubled a positive number of times. *)
Lemma clampLoop_inv (fuel : nat) (mwd : Z) (s s' : RunSizes) :
  clampLoop fuel mwd s = Value s' ->
  sameArea s s' /\ effectiveArea s' = effectiveArea s /\ extra s' = extra s /\
  chunkSize s' <= mwd /\
  ((chunkSize s <= mwd /\ s' = s) \/
   (mwd < chunkSize s /\
    exists k : nat, (0 < k)%nat /\
      nChunk s' = to_size (nChunk s * 2 ^ Z.of_nat k) /\ nChunk s' <> 0 /\
      chunkSize s' = to_size (effectiveArea s / nChunk s'))).
Proof.
  revert s. induction fuel as [|fuel IH]; intros s H; simpl in H; [discriminate|].
  destruct (Z.gtb_spec (chunkSize s) mwd) as [Hgt|Hle].
  - block_step H. apply udiv_Value in E. fields. destruct E as [Hn0 ->].
    apply IH in H. fields.
    destruct H as (Hframe & HE & Hextra & Hmax & Hcases).
    split; [unfold sameArea in *; fields; exact Hframe|].
    split; [exact HE|]. split; [exact Hextra|]. split; [exact Hmax|].
    right. split; [lia|].
    destruct Hcases as [[_ ->]|(_ & k & Hk & Hn & Hn0' & Hc)]; fields.
    + exists 1%nat. split; [lia|]. change (2 ^ Z.of_nat 1) with 2.
      repeat split; auto.
    + exists (S k). split; [lia|]. rewrite <- to_size_double.
      repeat split; auto.
  - block_step H. subst s'. split; [apply sameArea_refl|].
    repeat split; try lia. left. split; [lia|reflexivity].
Qed.

(** Two divides [nChunk] once more with every round, so the loop
    cannot go on for 64 rounds: it stops or divides by zero. *)
Lemma clampLoop_fuel_gen (fuel j : nat) (mwd : Z) (s : RunSizes) :
  (64 <= j + fuel)%nat -> (j <= 63)%nat ->
  (2 ^ Z.of_nat j | nChunk s) ->
  clampLoop fuel mwd s <> OutOfFuel.
Proof.
  revert j s. induction fuel as [|fuel IH]; intros j s Hfuel Hj Hdiv; [lia|].
  simpl. destruct (chunkSize s >? mwd); [|discriminate]. fields.
  assert (Hdiv2 : (2 ^ Z.of_nat (S j) | nChunk s * 2)).
  { destruct Hdiv as [x Hx]. exists x. rewrite Hx, Nat2Z.inj_succ, Z.pow_succ_r by lia. ring. }
  destruct (Nat.eq_dec j 63) as [->|Hne].
  - assert (Hz : to_size (nChunk s * 2) = 0).
    { unfold to_size. apply Z.mod_divide; [lia|]. exact Hdiv2. }
    rewrite Hz. simpl. discriminate.
  - unfold udiv. destruct (Z.eqb_spec (to_size (nChunk s * 2)) 0); [simpl; discriminate|].
    cbn [bind]. apply (IH (S j)); [lia|lia|]. fields.
    unfold to_size.
    destruct Hdiv2 as [x Hx].
    apply Z.mod_divide; [lia|].
    rewrite Z.mod_mod_divide.
    + rewrite Hx. apply Z.mod_mul. lia.
    + exists (2 ^ (64 - Z.of_nat (S j))). rewrite <- Z.pow_add_r by lia. f_equal. lia.
Qed.

Lemma clampLoop_fuel (mwd : Z) (s : RunSizes) :
  clampLoop clampFuel mwd s <> OutOfFuel.
Proof.
  apply (clampLoop_fuel_gen clampFuel 0); [unfold clampFuel; lia|lia|].
  exists (nChunk s). simpl. ring.
Qed.

Lemma clampChunks_inv (mwd b : Z) (s : RunSizes) (ret : PlanReturn) :
  clampChunks mwd b s = Value ret ->
  sameArea s (sizesOf ret) /\
  effectiveArea (sizesOf ret) = effectiveArea s /\
  extra (sizesOf ret) = extra s /\
  ((chunkSize s <= mwd /\ ret = Planned s) \/
   (mwd < chunkSize s /\
    (exists k : nat, (0 < k)%nat /\
       nChunk (sizesOf ret) = to_size (nChunk s * 2 ^ Z.of_nat k) /\
       nChunk (sizesOf ret) <> 0 /\
       chunkSize (sizesOf ret) = to_size (effectiveArea s / nChunk (sizesOf ret))) /\
    match ret with
    | Planned s' => local s' <> 0 /\ chunkSize s' mod local s' = 0
    | PlanFailed why s' =>
        why = LargeWorkunitUnhandled /\ local s' <> 0 /\ chunkSize s' mod local s' <> 0
    end)).
Proof.
  unfold clampChunks. intros H.
  destruct (Z.gtb_spec (chunkSize s) mwd) as [Hgt|Hle].
  - block_step H. apply clampLoop_inv in E.
    destruct E as (Hframe & HE & Hextra & _ & Hcases).
    destruct Hcases as [[Hle _]|(_ & Hk)]; [lia|].
    block_step H. apply mwDivisible_Value in E. destruct E as [Hl0 ->].
    destruct (Z.eqb_spec (chunkSize v mod local v) 0) as [Hm|Hm]; cbn [negb] in H.
    + block_step H. block_step H. subst ret. fields.
      split; [exact Hframe|]. split; [exact HE|]. split; [exact Hextra|].
      right. split; [lia|]. split; [exact Hk|]. split; assumption.
    + block_step H. subst ret. fields.
      split; [exact Hframe|]. split; [exact HE|]. split; [exact Hextra|].
      right. split; [lia|]. split; [exact Hk|]. repeat split; assumption.
  - block_step H. subst ret. fields. split; [apply sameArea_refl|].
    repeat split. left. split; [lia|reflexivity].
Qed.

(** A chunk of lines 216-235 is no larger than the padded area. *)
Lemma chooseChunks_chunk_le (force : bool) (b magic : Z) (s s' : RunSizes) :
  is_ulong (area s) -> is_size b ->
  chooseChunks force b magic s = Value s' ->
  chunkSize s' <= effectiveArea s'.
Proof.
  intros Ha Hb H. apply chooseChunks_inv in H; [|exact Ha|exact Hb].
  destruct H as (_ & _ & [(_ & _ & q1 & _ & _ & ->)|(_ & _ & q & Hc & _ & HE & Hdiv & Hn0 & ->)]);
    [lia|].
  pose proof (to_ulong_range (to_size (magic * b) * q)) as Hr. rewrite <- HE in Hr.
  apply mwDivRoundup_Value in Hdiv; [|lia|lia].
  destruct Hdiv as (_ & Hn & _).
  apply Z.div_le_upper_bound; nia.
Qed.

(** No step but the clamp loop is bounded, and its bound is never reached. *)
Lemma bind_ends {A B : Type} (c : result A) (k : A -> result B) :
  c <> OutOfFuel -> (forall a, k a <> OutOfFuel) -> bind c k <> OutOfFuel.
Proof. destruct c; simpl; auto; discriminate. Qed.

Lemma udiv_ends (a b : Z) : udiv a b <> OutOfFuel.
Proof. unfold udiv. destruct (b =? 0); discriminate. Qed.

Lemma umod_ends (a b : Z) : umod a b <> OutOfFuel.
Proof. unfold umod. destruct (b =? 0); discriminate. Qed.

Ltac ends :=
  repeat match goal with
         | |- Value _ <> OutOfFuel => discriminate
         | |- Undef _ <> OutOfFuel => discriminate
         | |- udiv _ _ <> OutOfFuel => apply udiv_ends
         | |- umod _ _ <> OutOfFuel => apply umod_ends
         | |- bind _ _ <> OutOfFuel => apply bind_ends; [|intros ?a]
         | |- (if ?b then _ else _) <> OutOfFuel => destruct b
         end.

Lemma mwDivisible_ends (x n : Z) : mwDivisible x n <> OutOfFuel.
Proof. unfold mwDivisible. ends. Qed.

Lemma mwDivRoundup_ends (a b : Z) : mwDivRoundup a b <> OutOfFuel.
Proof. unfold mwDivRoundup. ends. Qed.

Lemma findNChunk_ends DOUBLEPREC gflops ap ia di clr :
  findNChunk DOUBLEPREC gflops ap ia di clr <> OutOfFuel.
Proof.
  unfold findNChunk. ends. unfold cl_uint_of_double.
  destruct (double_trunc _); [destruct (_ && _)|]; discriminate.
Qed.

Lemma chooseMagic_ends (clr : CLRequest) (b : Z) (s : RunSizes) :
  chooseMagic clr b s <> OutOfFuel.
Proof. unfold chooseMagic. ends. Qed.

Lemma chooseChunks_ends (force : bool) (b magic : Z) (s : RunSizes) :
  chooseChunks force b magic s <> OutOfFuel.
Proof. unfold chooseChunks. cbv zeta. ends; apply mwDivRoundup_ends. Qed.

Lemma clampChunks_ends (mwd b : Z) (s : RunSizes) :
  clampChunks mwd b s <> OutOfFuel.
Proof.
  unfold clampChunks. ends; try apply mwDivisible_ends. apply clampLoop_fuel.
Qed.

Section PlannerProperties.

Variable DOUBLEPREC : bool.
Variable mwDeviceEstimateGFLOPs : DevInfo -> bool -> cl_double.
Variable mwGetWorkGroupInfo : cl_kernel -> CLInfo -> Z * WGInfo.

Local Abbreviation plan :=
  (findRunSizes DOUBLEPREC mwDeviceEstimateGFLOPs mwGetWorkGroupInfo).

(** The planner, return by return and block by block. *)
Lemma findRunSizes_inv kern sizes ci di ap ia clr ret :
  plan kern sizes ci di ap ia clr = Value ret ->
  let lim := CL_ULONG_MAX / mu_steps ia in
  let wgi := snd (mwGetWorkGroupInfo kern ci) in
  let b := blockSize di wgi in
  mu_steps ia <> 0 /\
  ((r_steps ia > lim /\ ret = PlanFailed AreaOverflows (withArea ia sizes))
   \/
   (r_steps ia <= lim /\ devType di = CL_DEVICE_TYPE_CPU /\
    ret = Planned (cpuSizes ia sizes))
   \/
   (r_steps ia <= lim /\ devType di <> CL_DEVICE_TYPE_CPU /\
    ((fst (mwGetWorkGroupInfo kern ci) <> CL_SUCCESS /\
      ret = PlanFailed WorkGroupInfoFailed (withArea ia sizes))
     \/
     (fst (mwGetWorkGroupInfo kern ci) = CL_SUCCESS /\ warpSize di <> 0 /\
      ((wgs wgi mod warpSize di <> 0 /\
        ret = PlanFailed GroupSizeNotWarpMultiple (withArea ia sizes))
       \/
       (wgs wgi mod warpSize di = 0 /\
        exists est magic pre clamped,
          findNChunk DOUBLEPREC mwDeviceEstimateGFLOPs ap ia di clr = Value est /\
          chooseMagic clr b (atEstimate di ia est sizes) = Value magic /\
          chooseChunks (nonResponsive clr || nonOutput di) b magic
                       (atEstimate di ia est sizes) = Value pre /\
          clampChunks (maxWorkDim di) b pre = Value clamped /\
          ret = match clamped with
                | Planned s => finishPlan s
                | PlanFailed why s => PlanFailed why s
                end)))))).
Proof.
  unfold findRunSizes. cbv zeta. intros H.
  block_step H. apply udiv_Value in E. destruct E as [Hmu ->].
  split; [exact Hmu|].
  destruct (Z.gtb_spec (r_steps ia) (CL_ULONG_MAX / mu_steps ia)) as [Hgt|Hle].
  { block_step H. subst ret. left. split; [lia|reflexivity]. }
  right.
  destruct (Z.eqb_spec (devType di) CL_DEVICE_TYPE_CPU) as [Hcpu|Hcpu].
  { block_step H. subst ret. left. repeat split; auto. }
  right. split; [exact Hle|]. split; [exact Hcpu|].
  destruct (mwGetWorkGroupInfo kern ci) as [err wgi]. cbn [fst snd].
  destruct (Z.eqb_spec err CL_SUCCESS) as [Herr|Herr]; cbn [negb] in H.
  2:{ block_step H. subst ret. left. split; auto. }
  right. split; [exact Herr|].
  block_step H. apply mwDivisible_Value in E. destruct E as [Hw ->].
  split; [exact Hw|].
  destruct (Z.eqb_spec (wgs wgi mod warpSize di) 0) as [Hdiv|Hdiv]; cbn [negb] in H.
  2:{ block_step H. subst ret. left. split; auto. }
  right. split; [exact Hdiv|].
  block_step H. block_step H. block_step H. block_step H.
  exists v, v0, v1, v2. repeat split; auto.
  destruct v2; block_step H; subst ret; reflexivity.
Qed.

Lemma finishPlan_sizes (s : RunSizes) :
  sizesOf (finishPlan s) = set_global (chunkSize s) s.
Proof. unfold finishPlan. cbv zeta. destruct (_ <? _); reflexivity. Qed.

(** The planner always comes to an end: the bound on the clamp loop is
    never what stops it. *)
Lemma findRunSizes_total kern sizes ci di ap ia clr :
  plan kern sizes ci di ap ia clr <> OutOfFuel.
Proof.
  unfold findRunSizes. cbv zeta. ends.
  destruct (mwGetWorkGroupInfo kern ci) as [err wgi]. ends.
  - apply mwDivisible_ends.
  - apply findNChunk_ends.
  - apply chooseMagic_ends.
  - apply chooseChunks_ends.
  - apply clampChunks_ends.
  - destruct a4; discriminate.
Qed.

(** Whatever the planner returns, the steps and the raw area have been
    stored in [*sizes]. *)
Lemma findRunSizes_stores_area kern sizes ci di ap ia clr ret :
  plan kern sizes ci di ap ia clr = Value ret ->
  r (sizesOf ret) = r_steps ia /\ mu (sizesOf ret) = mu_steps ia /\
  nu (sizesOf ret) = nu_steps ia /\
  area (sizesOf ret) = to_ulong (r_steps ia * mu_steps ia).
Proof.
  intros H. apply findRunSizes_inv in H. cbv zeta in H.
  destruct H as
    (_ & [[_ ->]|[(_ & _ & ->)|(_ & _ & [[_ ->]|(_ & _ & [[_ ->]|(_ & H)])])]]);
    try (cbn; auto; fail).
  destruct H as (est & magic & pre & clamped & _ & _ & Hc & Hcl & ->).
  apply chooseChunks_inv in Hc;
    [|apply to_ulong_range|unfold blockSize; apply to_size_range].
  destruct Hc as (Hf1 & _). apply clampChunks_inv in Hcl. destruct Hcl as (Hf2 & _).
  destruct (sameArea_trans _ _ _ Hf1 Hf2) as (_ & _ & _ & Ha & Hr & Hm & Hn).
  unfold atEstimate, withArea in *. fields.
  destruct clamped; [rewrite finishPlan_sizes|]; fields; auto.
Qed.

(** C9.  The overflow guard divides [CL_ULONG_MAX] by [mu_steps] with no
    test for zero before it: with [mu_steps = 0] the planner runs into
    that division by zero, whatever its other inputs, so it returns only
    when [mu_steps >= 1]; and the (wrapped) product [r_steps * mu_steps]
    is stored in [area] before the guard is tested, so it is there also
    when the guard fails. *)
Theorem findRunSizes_needs_mu_steps kern sizes ci di ap ia clr :
  (mu_steps ia = 0 ->
   plan kern sizes ci di ap ia clr = Undef DivisionByZero) /\
  (forall ret, plan kern sizes ci di ap ia clr = Value ret ->
     0 <= mu_steps ia ->
     1 <= mu_steps ia /\
     area (sizesOf ret) = to_ulong (r_steps ia * mu_steps ia)) /\
  (forall s, plan kern sizes ci di ap ia clr = Value (PlanFailed AreaOverflows s) ->
     s = withArea ia sizes /\ r_steps ia > CL_ULONG_MAX / mu_steps ia).
Proof.
  split; [|split].
  - intros Hmu. unfold findRunSizes. cbv zeta. rewrite Hmu. reflexivity.
  - intros ret H Hnonneg. split.
    + apply findRunSizes_inv in H. cbv zeta in H. lia.
    + apply findRunSizes_stores_area in H. apply H.
  - intros s H. apply findRunSizes_inv in H. cbv zeta in H.
    destruct H as
      (_ & [[Hgt Heq]|[(_ & _ & Heq)|(_ & _ & [[_ Heq]|(_ & _ & [[_ Heq]|(_ & H)])])]]);
      try discriminate.
    + inversion Heq. split; [reflexivity|exact Hgt].
    + exfalso. destruct H as (est & magic & pre & clamped & _ & _ & _ & Hcl & Heq).
      destruct clamped.
      * unfold finishPlan in Heq. cbv zeta in Heq. destruct (_ <? _); discriminate.
      * apply clampChunks_inv in Hcl. destruct Hcl as (_ & _ & _ & Hc).
        destruct Hc as [[_ Hc]|(_ & _ & Hc & _)]; [discriminate|]. congruence.
Qed.

(** The short cut of lines 147-157.  On a CPU device, for an area with
    [mu_steps >= 1]
    whose product [r_steps * mu_steps] does not overflow, the planner
    returns at once with one chunk that is the whole area: [nChunk = 1],
    [chunkSize = area = effectiveArea], local size 1, global size the
    area and no padding, whatever the request (and the work group
    query) may be. *)
Theorem findRunSizes_cpu kern sizes ci di ap ia clr :
  devType di = CL_DEVICE_TYPE_CPU ->
  0 <= r_steps ia -> 1 <= mu_steps ia ->
  r_steps ia * mu_steps ia <= CL_ULONG_MAX ->
  exists s,
    plan kern sizes ci di ap ia clr = Value (Planned s) /\
    nChunk s = 1 /\
    chunkSize s = r_steps ia * mu_steps ia /\
    area s = r_steps ia * mu_steps ia /\
    effectiveArea s = r_steps ia * mu_steps ia /\
    local s = 1 /\
    global s = r_steps ia * mu_steps ia /\
    extra s = 0.
Proof.
  intros Hcpu Hr Hmu Hprod. exists (cpuSizes ia sizes).
  assert (Ha : to_ulong (r_steps ia * mu_steps ia) = r_steps ia * mu_steps ia).
  { apply to_ulong_small. unfold CL_ULONG_MAX in Hprod. nia. }
  split.
  - unfold findRunSizes. cbv zeta. unfold udiv.
    destruct (Z.eqb_spec (mu_steps ia) 0); [lia|]. cbn [bind].
    destruct (Z.gtb_spec (r_steps ia) (CL_ULONG_MAX / mu_steps ia)) as [Hgt|_].
    + exfalso. assert (r_steps ia <= CL_ULONG_MAX / mu_steps ia); [|lia].
      apply Z.div_le_lower_bound; lia.
    + rewrite Hcpu, Z.eqb_refl. reflexivity.
  - unfold cpuSizes. cbv zeta. fields. rewrite Ha.
    rewrite to_size_small; [repeat split|].
    unfold CL_ULONG_MAX in Hprod. nia.
Qed.

(** C2 (amended).  When the planner fails it returns [CL_TRUE] with
    [*sizes] partly overwritten: the steps and the raw area of the
    integral are always stored; a failure before the tuning (overflow,
    work group query, group size not a multiple of the warp size)
    changes nothing else, a later one has also stored the local size. *)
Theorem findRunSizes_failure_state kern sizes ci di ap ia clr why s' :
  plan kern sizes ci di ap ia clr = Value (PlanFailed why s') ->
  r s' = r_steps ia /\ mu s' = mu_steps ia /\ nu s' = nu_steps ia /\
  area s' = to_ulong (r_steps ia * mu_steps ia) /\
  match why with
  | AreaOverflows | WorkGroupInfoFailed | GroupSizeNotWarpMultiple =>
      s' = withArea ia sizes
  | LargeWorkunitUnhandled | EffectiveAreaTooSmall =>
      local s' = warpSize di
  end.
Proof.
  intros H.
  pose proof (findRunSizes_stores_area _ _ _ _ _ _ _ _ H) as (Hr & Hm & Hn & Ha).
  fields. repeat (split; [assumption|]).
  apply findRunSizes_inv in H. cbv zeta in H.
  destruct H as
    (_ & [[_ Heq]|[(_ & _ & Heq)|(_ & _ & [[_ Heq]|(_ & _ & [[_ Heq]|(_ & H)])])]]);
    try (inversion Heq; subst; reflexivity); try discriminate.
  destruct H as (est & magic & pre & clamped & _ & _ & Hc & Hcl & Heq).
  apply chooseChunks_inv in Hc;
    [|apply to_ulong_range|unfold blockSize; apply to_size_range].
  destruct Hc as (Hf1 & _). apply clampChunks_inv in Hcl.
  destruct Hcl as (Hf2 & _ & _ & Hcases).
  destruct (sameArea_trans _ _ _ Hf1 Hf2) as (_ & Hl & _).
  unfold atEstimate, withArea in Hl. fields.
  destruct clamped as [post|why' post]; fields.
  - unfold finishPlan in Heq. cbv zeta in Heq.
    destruct (_ <? _); inversion Heq; subst. fields. exact Hl.
  - inversion Heq; subst.
    destruct Hcases as [[_ Hcases]|(_ & _ & -> & _)]; [discriminate|].
    exact Hl.
Qed.

(** A plan on a device that is not a CPU went through every block. *)
Lemma findRunSizes_planned_inv kern sizes ci di ap ia clr s :
  plan kern sizes ci di ap ia clr = Value (Planned s) ->
  devType di <> CL_DEVICE_TYPE_CPU ->
  let wgi := snd (mwGetWorkGroupInfo kern ci) in
  let b := blockSize di wgi in
  warpSize di <> 0 /\ wgs wgi mod warpSize di = 0 /\
  exists est magic pre post,
    chooseMagic clr b (atEstimate di ia est sizes) = Value magic /\
    chooseChunks (nonResponsive clr || nonOutput di) b magic
                 (atEstimate di ia est sizes) = Value pre /\
    clampChunks (maxWorkDim di) b pre = Value (Planned post) /\
    s = set_global (chunkSize post) post /\
    area post <= effectiveArea post.
Proof.
  intros H Hcpu. apply findRunSizes_inv in H. cbv zeta in H.
  destruct H as
    (_ & [[_ Heq]|[(_ & Hc & _)|(_ & _ & [[_ Heq]|(_ & Hw & [[_ Heq]|(Hd & H)])])]]);
    try discriminate; try contradiction.
  cbv zeta. split; [exact Hw|]. split; [exact Hd|].
  destruct H as (est & magic & pre & clamped & _ & Hm & Hc & Hcl & Heq).
  destruct clamped as [post|]; [|discriminate].
  exists est, magic, pre, post. repeat split; auto.
  - unfold finishPlan in Heq. cbv zeta in Heq.
    destruct (_ <? _); inversion Heq. reflexivity.
  - unfold finishPlan in Heq. cbv zeta in Heq. fields.
    destruct (Z.ltb_spec (effectiveArea post) (area post)); [discriminate|lia].
Qed.

Lemma atEstimate_is_ulong di ia est sizes :
  is_ulong (area (atEstimate di ia est sizes)).
Proof. apply to_ulong_range. Qed.

Lemma blockSize_is_size di wgi : is_size (blockSize di wgi).
Proof. apply to_size_range. Qed.

(** The padding never removes work: a plan covers the area. *)
Lemma findRunSizes_covers_area kern sizes ci di ap ia clr s :
  plan kern sizes ci di ap ia clr = Value (Planned s) ->
  area s <= effectiveArea s.
Proof.
  intros H.
  destruct (Z.eq_dec (devType di) CL_DEVICE_TYPE_CPU) as [Hcpu|Hcpu].
  - apply findRunSizes_inv in H. cbv zeta in H.
    destruct H as
      (_ & [[_ Heq]|[(_ & _ & Heq)|(_ & Hc & _)]]);
      try discriminate; try contradiction.
    inversion Heq. cbn. lia.
  - apply findRunSizes_planned_inv in H; [|exact Hcpu]. cbv zeta in H.
    destruct H as (_ & _ & est & magic & pre & post & _ & _ & _ & -> & Hle).
    fields. exact Hle.
Qed.

(** X23.  Where the clamp loop does not run, that is when the padded
    area is within the maximum work dimension, the chunks of a plan
    cover the padded area exactly: [chunkSize * nChunk = effectiveArea]. *)
Lemma findRunSizes_exact_unclamped kern sizes ci di ap ia clr s :
  plan kern sizes ci di ap ia clr = Value (Planned s) ->
  effectiveArea s <= maxWorkDim di ->
  chunkSize s * nChunk s = effectiveArea s.
Proof.
  intros H Hfit.
  destruct (Z.eq_dec (devType di) CL_DEVICE_TYPE_CPU) as [Hcpu|Hcpu].
  - apply findRunSizes_inv in H. cbv zeta in H.
    destruct H as
      (_ & [[_ Heq]|[(_ & _ & Heq)|(_ & Hc & _)]]);
      try discriminate; try contradiction.
    inversion Heq. cbn. rewrite to_size_small by apply to_ulong_range. lia.
  - apply findRunSizes_planned_inv in H; [|exact Hcpu]. cbv zeta in H.
    destruct H as (_ & _ & est & magic & pre & post & _ & Hc & Hcl & -> & Hle).
    fields.
    apply clampChunks_inv in Hcl. fields.
    destruct Hcl as ((_ & _ & _ & Ha & _) & HE & _ & Hcases).
    pose proof (chooseChunks_chunk_le _ _ _ _ _ (atEstimate_is_ulong _ _ _ _)
                                      (blockSize_is_size _ _) Hc) as Hchunk.
    pose proof Hc as Hinv.
    apply chooseChunks_inv in Hinv;
      [|apply to_ulong_range|unfold blockSize; apply to_size_range].
    destruct Hinv as ((_ & _ & _ & Ha' & _) & _ & _).
    apply chooseChunks_exact in Hc;
      [|apply to_ulong_range|unfold blockSize; apply to_size_range|lia].
    destruct Hc as (Hex & _).
    destruct Hcases as [[_ Heq]|(Hgt & _)].
    + inversion Heq; subst post. exact Hex.
    + exfalso. lia.
Qed.

Lemma to_size_pow2 (k : nat) :
  to_size (2 ^ Z.of_nat k) <> 0 -> (k < 64)%nat /\ to_size (2 ^ Z.of_nat k) = 2 ^ Z.of_nat k.
Proof.
  intros H. destruct (Nat.lt_ge_cases k 64) as [Hlt|Hge].
  - split; [exact Hlt|]. apply to_size_small. split; [apply Z.pow_nonneg; lia|].
    apply Z.pow_lt_mono_r; lia.
  - exfalso. apply H. unfold to_size. apply Z.mod_divide; [lia|].
    exists (2 ^ (Z.of_nat k - 64)). rewrite <- Z.pow_add_r by lia. f_equal. lia.
Qed.

(** C4 (amended).  On a device that is not a CPU, when the request is
    non-responsive or the device has no output, a plan has [nChunk = 1]
    as long as the padded area is within the device's maximum work
    dimension; when it is not, the clamp loop has doubled [nChunk] at
    least once, and it is a power of two that is at least 2. *)
Theorem findRunSizes_forced_one_chunk kern sizes ci di ap ia clr s :
  plan kern sizes ci di ap ia clr = Value (Planned s) ->
  devType di <> CL_DEVICE_TYPE_CPU ->
  nonResponsive clr || nonOutput di = true ->
  (effectiveArea s <= maxWorkDim di -> nChunk s = 1) /\
  (maxWorkDim di < effectiveArea s ->
   exists k : nat, (0 < k < 64)%nat /\ nChunk s = 2 ^ Z.of_nat k).
Proof.
  intros H Hcpu Hforce.
  apply findRunSizes_planned_inv in H; [|exact Hcpu]. cbv zeta in H.
  destruct H as (_ & _ & est & magic & pre & post & _ & Hc & Hcl & -> & _). fields.
  apply chooseChunks_inv in Hc; [|apply atEstimate_is_ulong|apply blockSize_is_size].
  destruct Hc as (_ & _ & [(Hn & _ & q1 & _ & _ & Hchunk)|(_ & Hf & _)]); [|congruence].
  apply clampChunks_inv in Hcl. fields.
  destruct Hcl as (_ & HE & _ & [[Hle Heq]|(Hgt & (k & Hk & Hnk & Hn0 & _) & _)]).
  - inversion Heq; subst post. split; [intros _; exact Hn|lia].
  - split; [lia|]. intros _. exists k.
    rewrite Hn, Z.mul_1_l in Hnk. rewrite Hnk in Hn0.
    apply to_size_pow2 in Hn0. destruct Hn0 as [Hk64 Hpow].
    split; [lia|]. congruence.
Qed.

(** C5 (amended).  On a device that is not a CPU, with a magic factor
    [K > 0] in the request, a plan has [chunkSize = K * blockSize] when
    the plan is not forced to one chunk, the area is larger than
    [K * blockSize] (so that more than one chunk results),
    [K * blockSize] does not exceed the maximum work dimension (so that
    the clamp does not run) and the padded area is representable.  When
    one chunk is forced or the area is at most [K * blockSize], and the
    padded area is within the maximum work dimension, the plan is
    instead one chunk of whole blocks, [blockSize * ceil(area / blockSize)]. *)
Theorem findRunSizes_magic_override kern sizes ci di ap ia clr s :
  plan kern sizes ci di ap ia clr = Value (Planned s) ->
  devType di <> CL_DEVICE_TYPE_CPU ->
  0 < magicFactor clr -> is_int (magicFactor clr) ->
  let b := blockSize di (snd (mwGetWorkGroupInfo kern ci)) in
  let K := magicFactor clr in
  (nonResponsive clr || nonOutput di = false ->
   K * b < area s -> K * b <= maxWorkDim di -> area s + K * b <= 2 ^ 64 ->
   chunkSize s = K * b /\ nChunk s <> 1 /\
   chunkSize s * nChunk s = effectiveArea s) /\
  (nonResponsive clr || nonOutput di = true \/ area s <= to_size (K * b) ->
   effectiveArea s <= maxWorkDim di ->
   nChunk s = 1 /\ chunkSize s = effectiveArea s /\
   exists q1, chunkSize s = b * q1 /\ area s <= b * q1 < area s + b).
Proof.
  intros H Hcpu HK Hint. cbv zeta.
  pose proof (findRunSizes_covers_area _ _ _ _ _ _ _ _ H) as Hcover.
  apply findRunSizes_planned_inv in H; [|exact Hcpu]. cbv zeta in H.
  destruct H as (_ & _ & est & magic & pre & post & Hm & Hc & Hcl & -> & _). fields.
  rewrite chooseMagic_override in Hm by assumption. inversion Hm; subst magic; clear Hm.
  pose proof (chooseChunks_chunk_le _ _ _ _ _ (atEstimate_is_ulong _ _ _ _)
                                    (blockSize_is_size _ _) Hc) as Hchunk.
  pose proof Hc as Hinv.
  apply chooseChunks_inv in Hinv; [|apply atEstimate_is_ulong|apply blockSize_is_size].
  destruct Hinv as ((_ & _ & _ & Ha & _) & Hb & Hcases).
  apply clampChunks_inv in Hcl. fields.
  destruct Hcl as ((_ & _ & _ & Ha' & _) & HE & _ & Hclamp).
  assert (Hareas : area post = area (atEstimate di ia est sizes)) by congruence.
  pose proof (atEstimate_is_ulong di ia est sizes) as Har. unfold is_ulong in Har.
  rewrite <- Hareas in Har.
  apply chooseChunks_exact in Hc;
    [|apply atEstimate_is_ulong|apply blockSize_is_size|lia].
  destruct Hc as (Hex & Hone & Hmany).
  rewrite <- Hareas in Hcases.
  pose proof (blockSize_is_size di (snd (mwGetWorkGroupInfo kern ci))) as Hbr.
  unfold is_size in Hbr.
  set (b := blockSize di (snd (mwGetWorkGroupInfo kern ci))) in *.
  split.
  - intros Hforce Hlt Hmax Hrep.
    assert (Hc : to_size (magicFactor clr * b) = magicFactor clr * b).
    { apply to_size_small. nia. }
    rewrite Hc in *.
    destruct Hcases as [(Hn & Hwhy & q1 & Hq1 & HE1 & Hchunk1)|(Hn & _ & q & _ & Hq & HEq & _)].
    + exfalso. destruct Hwhy as [Hwhy|(q & Hq & Hdiv)]; [congruence|].
      assert (Hq2 : 2 <= q) by nia.
      rewrite to_ulong_small in Hdiv by nia.
      rewrite mwDivRoundup_exact in Hdiv by lia. inversion Hdiv. lia.
    + destruct (Hmany Hn) as [_ Hcs].
      destruct Hclamp as [[_ Heq]|(Hgt & _)]; [|lia].
      inversion Heq; subst post. repeat split; assumption.
  - intros Hone' Hfit.
    destruct Hcases as [(Hn & _ & q1 & Hq1 & HE1 & Hchunk1)|(Hn & Hf & q & Hcpos & Hq & HEq & Hdiv & Hn0 & _)].
    + destruct Hclamp as [[_ Heq]|(Hgt & _)]; [|lia].
      inversion Heq; subst post. split; [exact Hn|]. split; [exact Hchunk1|].
      exists q1. split; [|exact Hq1].
      rewrite Hchunk1, HE1. apply roundup_no_wrap with (a := area pre); lia.
    + exfalso. destruct Hone' as [Hforce|Hsmall]; [congruence|].
      assert (Hq01 : q = 0 \/ q = 1) by nia.
      destruct Hq01 as [-> | ->].
      * rewrite Z.mul_0_r in HEq. rewrite HEq in Hdiv.
        change (to_ulong 0) with 0 in Hdiv.
        rewrite <- (Z.mul_0_r (to_size (magicFactor clr * b))) in Hdiv at 1.
        rewrite mwDivRoundup_exact in Hdiv by lia. inversion Hdiv. congruence.
      * rewrite Z.mul_1_r in HEq.
        pose proof (to_size_range (magicFactor clr * b)) as Hcr.
        rewrite to_ulong_small in HEq by lia. rewrite HEq in Hdiv.
        rewrite <- (Z.mul_1_r (to_size (magicFactor clr * b))) in Hdiv at 1.
        rewrite mwDivRoundup_exact in Hdiv by lia. inversion Hdiv. congruence.
Qed.

(** Without wrap-around the block size is a whole number of warps on
    every compute unit. *)
Lemma blockSize_no_wrap di wgi :
  warpSize di <> 0 -> wgs wgi mod warpSize di = 0 ->
  0 <= wgs wgi -> 0 <= maxCompUnits di ->
  wgs wgi * maxCompUnits di < 2 ^ 64 ->
  blockSize di wgi = wgs wgi / warpSize di * maxCompUnits di * warpSize di.
Proof.
  intros Hw Hdiv Hwgs Hcu Hsmall. unfold blockSize. cbv zeta.
  assert (Hexact : wgs wgi / warpSize di * warpSize di = wgs wgi).
  { pose proof (Z.div_mod (wgs wgi) (warpSize di) Hw). lia. }
  rewrite Hexact.
  destruct (Z.eq_dec (maxCompUnits di) 0) as [Hz|Hnz].
  - rewrite Hz, !Z.mul_0_r. reflexivity.
  - assert (Hwgs64 : wgs wgi < 2 ^ 64) by nia.
    rewrite (to_size_small (wgs wgi)) by lia.
    rewrite to_size_small by nia.
    rewrite <- Hexact at 1. ring.
Qed.


(* ----------------------------------------------------------------- *)
(** *** What every plan satisfies *)

(** Lines 216-235 leave in [extra] the padding they added, as a
    [cl_uint]. *)
Lemma chooseChunks_extra (force : bool) (b magic : Z) (s s' : RunSizes) :
  chooseChunks force b magic s = Value s' ->
  extra s' = to_uint (effectiveArea s' - area s').
Proof.
  intros H. unfold chooseChunks in H. cbv zeta in H. fields.
  block_step H. block_step H. fields.
  block_step H. block_step H. block_step H. block_step H. subst s'. fields.
  destruct (to_size v0 =? 1).
  - block_step E1. block_step E1. subst v1. reflexivity.
  - block_step E1. subst v1. reflexivity.
Qed.

Lemma findNChunk_positive ap ia di clr n :
  findNChunk DOUBLEPREC mwDeviceEstimateGFLOPs ap ia di clr = Value n ->
  1 <= n < 2 ^ 32.
Proof.
  unfold findNChunk, cl_uint_of_double. intros H.
  destruct (double_trunc _) as [t|]; [|discriminate].
  destruct (Z.leb_spec 0 t); [|discriminate].
  destruct (Z.ltb_spec t (2 ^ 32)); [|discriminate].
  cbn [andb bind] in H. inversion H.
  destruct (Z.eqb_spec t 0); lia.
Qed.

(** A plan on a device that is not a CPU, with the chunk estimate. *)
Lemma findRunSizes_planned_est kern sizes ci di ap ia clr s :
  plan kern sizes ci di ap ia clr = Value (Planned s) ->
  devType di <> CL_DEVICE_TYPE_CPU ->
  let b := blockSize di (snd (mwGetWorkGroupInfo kern ci)) in
  exists est magic pre post,
    findNChunk DOUBLEPREC mwDeviceEstimateGFLOPs ap ia di clr = Value est /\
    chooseMagic clr b (atEstimate di ia est sizes) = Value magic /\
    chooseChunks (nonResponsive clr || nonOutput di) b magic
                 (atEstimate di ia est sizes) = Value pre /\
    clampChunks (maxWorkDim di) b pre = Value (Planned post) /\
    s = set_global (chunkSize post) post /\
    area post <= effectiveArea post.
Proof.
  intros H Hcpu. apply findRunSizes_inv in H. cbv zeta in H.
  destruct H as
    (_ & [[_ Heq]|[(_ & Hc & _)|(_ & _ & [[_ Heq]|(_ & Hw & [[_ Heq]|(Hd & H)])])]]);
    try discriminate; try contradiction.
  cbv zeta.
  destruct H as (est & magic & pre & clamped & He & Hm & Hc & Hcl & Heq).
  destruct clamped as [post|]; [|discriminate].
  exists est, magic, pre, post. repeat split; auto.
  - unfold finishPlan in Heq. cbv zeta in Heq.
    destruct (_ <? _); inversion Heq. reflexivity.
  - unfold finishPlan in Heq. cbv zeta in Heq. fields.
    destruct (Z.ltb_spec (effectiveArea post) (area post)); [discriminate|lia].
Qed.

(** A plan of the CPU short cut. *)
Lemma findRunSizes_planned_cpu kern sizes ci di ap ia clr s :
  plan kern sizes ci di ap ia clr = Value (Planned s) ->
  devType di = CL_DEVICE_TYPE_CPU ->
  s = cpuSizes ia sizes.
Proof.
  intros H Hcpu. apply findRunSizes_inv in H. cbv zeta in H.
  destruct H as (_ & [[_ Heq]|[(_ & _ & Heq)|(_ & Hc & _)]]);
    try discriminate; try contradiction.
  inversion Heq. reflexivity.
Qed.

(** The [extra] field of a plan is its padding, as a [cl_uint]. *)
Lemma findRunSizes_planned_extra kern sizes ci di ap ia clr s :
  plan kern sizes ci di ap ia clr = Value (Planned s) ->
  extra s = to_uint (effectiveArea s - area s).
Proof.
  intros H.
  destruct (Z.eq_dec (devType di) CL_DEVICE_TYPE_CPU) as [Hcpu|Hcpu].
  - rewrite (findRunSizes_planned_cpu _ _ _ _ _ _ _ _ H Hcpu).
    unfold cpuSizes. cbv zeta. fields. rewrite Z.sub_diag. reflexivity.
  - apply findRunSizes_planned_est in H; [|exact Hcpu]. cbv zeta in H.
    destruct H as (est & magic & pre & post & _ & _ & Hc & Hcl & -> & Hle). fields.
    pose proof (chooseChunks_extra _ _ _ _ _ Hc) as Hextra.
    apply clampChunks_inv in Hcl. fields.
    destruct Hcl as ((_ & _ & _ & Ha & _) & HE & Hex & _).
    rewrite Hex, HE, Ha. exact Hextra.
Qed.

(** X2.  Every plan covers the area, and its [extra] field, the
    padding handed to the kernel, is the difference between the padded
    area and the area, reduced to a [cl_uint]. *)
Theorem findRunSizes_padding kern sizes ci di ap ia clr s :
  plan kern sizes ci di ap ia clr = Value (Planned s) ->
  area s <= effectiveArea s /\
  extra s = to_uint (effectiveArea s - area s).
Proof.
  intros H. split.
  - exact (findRunSizes_covers_area _ _ _ _ _ _ _ _ H).
  - exact (findRunSizes_planned_extra _ _ _ _ _ _ _ _ H).
Qed.

(** X3.  The work sizes of a plan.  The global work size of every plan
    is its chunk size.  On a device that is not a CPU the chunk size is
    within the maximum work dimension, the product of the three maximum
    work item sizes, and the local work size is the warp size, which is
    not 0; on a CPU the local work size is 1. *)
Theorem findRunSizes_within_work_dimension kern sizes ci di ap ia clr s :
  plan kern sizes ci di ap ia clr = Value (Planned s) ->
  global s = chunkSize s /\
  (devType di = CL_DEVICE_TYPE_CPU -> local s = 1) /\
  (devType di <> CL_DEVICE_TYPE_CPU ->
   chunkSize s <= maxWorkDim di /\ local s = warpSize di /\ warpSize di <> 0).
Proof.
  intros H.
  destruct (Z.eq_dec (devType di) CL_DEVICE_TYPE_CPU) as [Hcpu|Hcpu].
  - rewrite (findRunSizes_planned_cpu _ _ _ _ _ _ _ _ H Hcpu).
    split; [reflexivity|]. split; [reflexivity|]. intros Hn. contradiction.
  - apply findRunSizes_planned_inv in H; [|exact Hcpu]. cbv zeta in H.
    destruct H as (Hw & _ & est & magic & pre & post & _ & Hc & Hcl & -> & _). fields.
    split; [reflexivity|]. split; [intros Hn; contradiction|]. intros _.
    apply chooseChunks_inv in Hc; [|apply atEstimate_is_ulong|apply blockSize_is_size].
    destruct Hc as ((_ & Hl & _) & _).
    pose proof Hcl as Hinv. apply clampChunks_inv in Hinv. fields.
    destruct Hinv as ((_ & Hl' & _) & _).
    split; [|split; [rewrite Hl', Hl; reflexivity|exact Hw]].
    unfold clampChunks in Hcl.
    destruct (Z.gtb_spec (chunkSize pre) (maxWorkDim di)) as [Hgt|Hle].
    + block_step Hcl. apply clampLoop_inv in E. destruct E as (_ & _ & _ & Hmax & _).
      block_step Hcl. block_step Hcl; [discriminate|].
      block_step Hcl. block_step Hcl. subst post. exact Hmax.
    + block_step Hcl. subst post. exact Hle.
Qed.

(** X4.  A plan never has zero chunks: the number of chunks is at least
    1, and the chunk estimate is a positive [cl_uint]. *)
Theorem findRunSizes_chunks_positive kern sizes ci di ap ia clr s :
  findRunSizes DOUBLEPREC mwDeviceEstimateGFLOPs mwGetWorkGroupInfo
               kern sizes ci di ap ia clr = Value (Planned s) ->
  1 <= nChunk s < 2 ^ 64 /\ 1 <= nChunkEstimate s < 2 ^ 32.
Proof.
  intros H.
  destruct (Z.eq_dec (devType di) CL_DEVICE_TYPE_CPU) as [Hcpu|Hcpu].
  - rewrite (findRunSizes_planned_cpu _ _ _ _ _ _ _ _ H Hcpu).
    unfold cpuSizes. cbv zeta. fields. lia.
  - apply findRunSizes_planned_est in H; [|exact Hcpu]. cbv zeta in H.
    destruct H as (est & magic & pre & post & He & _ & Hc & Hcl & -> & _). fields.
    apply findNChunk_positive in He.
    apply chooseChunks_inv in Hc; [|apply atEstimate_is_ulong|apply blockSize_is_size].
    destruct Hc as ((_ & _ & Hest & _) & _ & Hcases).
    apply clampChunks_inv in Hcl. fields.
    destruct Hcl as ((_ & _ & Hest' & _) & HE & _ & Hclamp).
    split.
    + assert (Hpre : 1 <= nChunk pre < 2 ^ 64).
      { destruct Hcases as [(Hn & _)|(_ & _ & q & Hc & _ & HEq & Hdiv & Hn0 & _)]; [lia|].
        pose proof (to_ulong_range (to_size (magic * blockSize di (snd (mwGetWorkGroupInfo kern ci))) * q)) as Hr.
        rewrite <- HEq in Hr.
        apply mwDivRoundup_Value in Hdiv; [|lia|lia]. split; [lia|nia]. }
      destruct Hclamp as [[_ Heq]|(_ & (k & _ & Hnk & Hn0 & _) & _)].
      * inversion Heq; subst post. exact Hpre.
      * pose proof (to_size_range (nChunk pre * 2 ^ Z.of_nat k)). lia.
    + rewrite Hest', Hest. unfold atEstimate. fields. exact He.
Qed.

(** X5.  The chunks of a plan never cover more than the padded area,
    and they fall short of it by fewer work items than there are
    chunks: [chunkSize * nChunk <= effectiveArea < chunkSize * nChunk +
    nChunk]. *)
Theorem findRunSizes_chunks_within_padded_area kern sizes ci di ap ia clr s :
  findRunSizes DOUBLEPREC mwDeviceEstimateGFLOPs mwGetWorkGroupInfo
               kern sizes ci di ap ia clr = Value (Planned s) ->
  chunkSize s * nChunk s <= effectiveArea s < chunkSize s * nChunk s + nChunk s.
Proof.
  intros H.
  destruct (Z.eq_dec (devType di) CL_DEVICE_TYPE_CPU) as [Hcpu|Hcpu].
  - rewrite (findRunSizes_planned_cpu _ _ _ _ _ _ _ _ H Hcpu).
    unfold cpuSizes. cbv zeta. fields.
    rewrite to_size_small by apply to_ulong_range. lia.
  - apply findRunSizes_planned_est in H; [|exact Hcpu]. cbv zeta in H.
    destruct H as (est & magic & pre & post & _ & _ & Hc & Hcl & -> & Hle). fields.
    pose proof Hc as Hinv.
    apply chooseChunks_inv in Hinv; [|apply atEstimate_is_ulong|apply blockSize_is_size].
    destruct Hinv as ((_ & _ & _ & Ha & _) & _ & Hcases).
    apply clampChunks_inv in Hcl. fields.
    destruct Hcl as ((_ & _ & _ & Ha' & _) & HE & _ & Hclamp).
    destruct Hclamp as [[_ Heq]|(_ & (k & _ & Hnk & Hn0 & Hchunk) & _)].
    + inversion Heq; subst post.
      apply chooseChunks_exact in Hc;
        [|apply atEstimate_is_ulong|apply blockSize_is_size|lia].
      destruct Hc as (Hex & _).
      assert (1 <= nChunk pre); [|lia].
      destruct Hcases as [(Hn & _)|(_ & _ & q & Hcp & _ & HEq & Hdiv & Hn0 & _)]; [lia|].
      pose proof (to_ulong_range (to_size (magic * blockSize di (snd (mwGetWorkGroupInfo kern ci))) * q)) as Hr.
      rewrite <- HEq in Hr.
      apply mwDivRoundup_Value in Hdiv; [|lia|lia]. lia.
    + pose proof (to_size_range (nChunk pre * 2 ^ Z.of_nat k)) as Hnr.
      rewrite <- Hnk in Hnr.
      assert (HEr : 0 <= effectiveArea pre < 2 ^ 64).
      { destruct Hcases as [(_ & _ & q1 & _ & -> & _)|(_ & _ & q & _ & _ & -> & _)];
          apply to_ulong_range. }
      assert (Hnpos : 0 < nChunk post) by lia.
      pose proof (Z.div_mod (effectiveArea pre) (nChunk post) Hn0) as Hdm.
      pose proof (Z.mod_pos_bound (effectiveArea pre) (nChunk post) Hnpos) as Hmod.
      pose proof (Z.div_pos (effectiveArea pre) (nChunk post)) as Hq.
      rewrite to_size_small in Hchunk.
      * rewrite Hchunk, HE. nia.
      * split; [apply Z.div_pos; lia|].
        apply Z.le_lt_trans with (m := effectiveArea pre); [|lia].
        apply Z.div_le_upper_bound; nia.
Qed.


(* ----------------------------------------------------------------- *)
(** *** Padding and chunk counts where the clamp does not run *)

(** X6.  On a device that is not a CPU, when the padded area is within
    the maximum work dimension: a plan of one chunk is a whole number
    of blocks and pads the area by less than one block; a plan of
    several chunks pads it by less than one chunk, so that one chunk
    fewer would not cover the area. *)
Theorem findRunSizes_padding_bound kern sizes ci di ap ia clr s :
  plan kern sizes ci di ap ia clr = Value (Planned s) ->
  devType di <> CL_DEVICE_TYPE_CPU ->
  effectiveArea s <= maxWorkDim di ->
  let b := blockSize di (snd (mwGetWorkGroupInfo kern ci)) in
  (nChunk s = 1 ->
   effectiveArea s - area s < b /\ exists q1, 0 <= q1 /\ chunkSize s = b * q1) /\
  (nChunk s <> 1 ->
   effectiveArea s - area s < chunkSize s /\
   (nChunk s - 1) * chunkSize s < area s <= nChunk s * chunkSize s).
Proof.
  intros H Hcpu Hfit. cbv zeta.
  apply findRunSizes_planned_est in H; [|exact Hcpu]. cbv zeta in H.
  destruct H as (est & magic & pre & post & _ & _ & Hc & Hcl & -> & Hle). fields.
  pose proof (chooseChunks_chunk_le _ _ _ _ _ (atEstimate_is_ulong _ _ _ _)
                                    (blockSize_is_size _ _) Hc) as Hchunk.
  pose proof Hc as Hinv.
  apply chooseChunks_inv in Hinv; [|apply atEstimate_is_ulong|apply blockSize_is_size].
  destruct Hinv as ((_ & _ & _ & Ha & _) & Hb & Hcases).
  apply clampChunks_inv in Hcl. fields.
  destruct Hcl as ((_ & _ & _ & Ha' & _) & HE & _ & Hclamp).
  destruct Hclamp as [[_ Heq]|(Hgt & _)]; [|lia].
  inversion Heq; subst post. clear Heq Ha' HE.
  pose proof (atEstimate_is_ulong di ia est sizes) as Har. unfold is_ulong in Har.
  rewrite <- Ha in Har, Hcases.
  pose proof (blockSize_is_size di (snd (mwGetWorkGroupInfo kern ci))) as Hbr.
  unfold is_size in Hbr.
  apply chooseChunks_exact in Hc;
    [|apply atEstimate_is_ulong|apply blockSize_is_size|lia].
  destruct Hc as (Hex & Hone & Hmany).
  set (b := blockSize di (snd (mwGetWorkGroupInfo kern ci))) in *.
  destruct Hcases as [(Hn & _ & q1 & Hq1 & HE1 & Hc1)|(Hn & _ & q & Hcpos & Hq & HEq & _)].
  - split; [|intros; contradiction]. intros _.
    assert (HE' : effectiveArea pre = b * q1).
    { rewrite HE1. apply roundup_no_wrap with (a := area pre); lia. }
    split; [lia|]. exists q1. split; [nia|]. congruence.
  - split; [intros; contradiction|]. intros _.
    destruct (Hmany Hn) as [_ Hcs].
    pose proof (to_size_range (magic * b)) as Hcr.
    assert (HE' : effectiveArea pre = to_size (magic * b) * q).
    { rewrite HEq. apply roundup_no_wrap with (a := area pre); lia. }
    rewrite Hcs. split; [lia|]. nia.
Qed.

(** The number of chunks of [m] blocks that cover the area, where [m]
    is the area over the estimated number of chunks of one block,
    rounded down: between the estimate and twice the estimate. *)
Lemma chunk_count_bounds (e b m a q : Z) :
  1 <= e -> 0 < b -> 1 <= m ->
  e * b * m <= a < e * b * m + e * b ->
  a <= m * b * q < a + m * b ->
  e <= q <= 2 * e.
Proof.
  intros He Hb Hm Ha Hq.
  assert (Hc : 0 < m * b) by (apply Z.mul_pos_pos; lia).
  assert (Hbc : e * b <= e * (m * b)).
  { apply Z.mul_le_mono_nonneg_l; [lia|].
    assert (1 * b <= m * b) by (apply Z.mul_le_mono_nonneg_r; lia). lia. }
  split.
  - apply Z.mul_le_mono_pos_l with (p := m * b); [exact Hc|]. lia.
  - assert (q < 2 * e + 1); [|lia].
    apply Z.mul_lt_mono_pos_l with (p := m * b); [exact Hc|]. lia.
Qed.

(** X7.  With no magic factor in the request and no forced single
    chunk, where nothing wraps around and the clamp does not run, the
    plan has at least as many chunks as estimated and at most twice as
    many: the magic factor is [m = area / (estimate * blockSize)],
    rounded down, and the chunk size is [m] blocks, which is what is
    compared with the maximum work dimension. *)
Theorem findRunSizes_default_magic kern sizes ci di ap ia clr s :
  plan kern sizes ci di ap ia clr = Value (Planned s) ->
  devType di <> CL_DEVICE_TYPE_CPU ->
  magicFactor clr <= 0 ->
  nonResponsive clr || nonOutput di = false ->
  let b := blockSize di (snd (mwGetWorkGroupInfo kern ci)) in
  let est := nChunkEstimate s in
  let m := area s / (est * b) in
  b <= 2 ^ 32 -> est * b <= area s -> m < 2 ^ 32 ->
  area s < 2 ^ 63 -> m * b <= maxWorkDim di ->
  est <= nChunk s <= 2 * est /\ chunkSize s = m * b.
Proof.
  intros H Hcpu Hmagic Hforce. cbv zeta. intros Hb32 Hwork Hm32 Ha63 Hfit.
  apply findRunSizes_planned_est in H; [|exact Hcpu]. cbv zeta in H.
  destruct H as (est & magic & pre & post & He & Hm & Hc & Hcl & -> & Hle). fields.
  apply findNChunk_positive in He.
  pose proof Hc as Hinv.
  apply chooseChunks_inv in Hinv; [|apply atEstimate_is_ulong|apply blockSize_is_size].
  destruct Hinv as ((_ & _ & Hest & Ha & _) & Hb & Hcases).
  apply clampChunks_inv in Hcl. fields.
  destruct Hcl as ((_ & _ & Hest' & Ha' & _) & HE & _ & Hclamp).
  assert (Hestv : nChunkEstimate post = est) by (rewrite Hest', Hest; reflexivity).
  rewrite Hestv in *. rewrite Ha' in *. rewrite HE in Hle.
  pose proof (atEstimate_is_ulong di ia est sizes) as Har. unfold is_ulong in Har.
  rewrite <- Ha in Har, Hcases.
  apply chooseChunks_exact in Hc;
    [|apply atEstimate_is_ulong|apply blockSize_is_size|lia].
  destruct Hc as (Hex & _ & Hmany).
  unfold chooseMagic in Hm.
  destruct (Z.leb_spec (magicFactor clr) 0); [|lia].
  replace (area (atEstimate di ia est sizes)) with (area pre) in Hm by exact Ha.
  replace (nChunkEstimate (atEstimate di ia est sizes)) with est in Hm by reflexivity.
  set (b := blockSize di (snd (mwGetWorkGroupInfo kern ci))) in *.
  assert (Heb : 0 < est * b < 2 ^ 64) by nia.
  rewrite (to_size_small (est * b)) in Hm by lia.
  block_step Hm. apply udiv_Value in E. destruct E as [_ ->].
  set (m := area pre / (est * b)) in *.
  assert (Hm1 : 1 <= m).
  { unfold m. apply Z.div_le_lower_bound; lia. }
  pose proof (Z.div_mod (area pre) (est * b)) as Hdm.
  pose proof (Z.mod_pos_bound (area pre) (est * b)) as Hmod.
  fold m in Hdm.
  rewrite (to_uint_small m) in Hm by lia.
  destruct (Z.eqb_spec m 0); [lia|]. block_step Hm. subst magic.
  assert (Hc : to_size (m * b) = m * b).
  { apply to_size_small. nia. }
  rewrite Hc in *.
  (* the chunk of lines 216-235 is [m] blocks, in one chunk or several *)
  assert (Hrange : est * b * m <= area pre < est * b * m + est * b) by lia.
  assert (Hmb : m * b <= area pre).
  { assert (m * b * 1 <= m * b * est) by (apply Z.mul_le_mono_nonneg_l; lia). lia. }
  assert (Hpre : chunkSize pre = m * b /\ est <= nChunk pre <= 2 * est).
  { destruct Hcases as [(Hn & Hwhy & q1 & Hq1 & HE1 & Hc1)
                       |(Hn & _ & q & Hcpos & Hq & HEq & Hdiv & Hn0 & _)].
    - destruct Hwhy as [Hwhy|(q & Hq & Hdiv)]; [congruence|].
      pose proof (chunk_count_bounds est b m (area pre) q
                    ltac:(lia) Hb Hm1 Hrange Hq) as Hqb.
      rewrite to_ulong_small in Hdiv by lia.
      rewrite mwDivRoundup_exact in Hdiv by lia. inversion Hdiv; subst q.
      assert (Hest1 : est = 1) by lia. rewrite Hest1 in *.
      assert (Harea : area pre = m * b) by lia.
      rewrite to_ulong_small in HE1 by lia.
      assert (Hq1m : q1 = m) by nia.
      subst q1. split; [rewrite Hc1, HE1; ring|]. rewrite Hn. lia.
    - assert (HE' : effectiveArea pre = m * b * q).
      { rewrite HEq. apply roundup_no_wrap with (a := area pre); lia. }
      pose proof (chunk_count_bounds est b m (area pre) q
                    ltac:(lia) Hb Hm1 Hrange Hq) as Hqb.
      rewrite HE' in Hdiv. rewrite mwDivRoundup_exact in Hdiv by lia.
      inversion Hdiv as [Hnq].
      destruct (Hmany Hn) as [_ Hcs].
      split; [exact Hcs|]. rewrite <- Hnq. exact Hqb. }
  destruct Hpre as [Hchunk Hcount].
  destruct Hclamp as [[_ Heq]|(Hgt & _)]; [|lia].
  inversion Heq; subst post. split; [exact Hcount|exact Hchunk].
Qed.

(* ----------------------------------------------------------------- *)
(** *** Degenerate areas and devices *)

(** X8.  On a device that is not a CPU an area with no [r] steps is
    never split: whatever the planner returns on it is a failure before
    the tuning, or a plan of one chunk with no work item at all (chunk
    size, global size and padded area 0), which is only reached when a
    single chunk is forced; without that the planner runs into a
    division by zero. *)
Theorem findRunSizes_empty_area kern sizes ci di ap ia clr ret :
  plan kern sizes ci di ap ia clr = Value ret ->
  devType di <> CL_DEVICE_TYPE_CPU ->
  r_steps ia = 0 ->
  (exists why, ret = PlanFailed why (withArea ia sizes) /\
     (why = AreaOverflows \/ why = WorkGroupInfoFailed \/
      why = GroupSizeNotWarpMultiple)) \/
  (nonResponsive clr || nonOutput di = true /\
   exists s, ret = Planned s /\ nChunk s = 1 /\ chunkSize s = 0 /\
             global s = 0 /\ effectiveArea s = 0 /\ extra s = 0).
Proof.
  intros H Hcpu Hr. apply findRunSizes_inv in H. cbv zeta in H.
  destruct H as
    (_ & [[_ Heq]|[(_ & Hc & _)|(_ & _ & [[_ Heq]|(_ & Hw & [[_ Heq]|(Hd & H)])])]]);
    try contradiction;
    try (left; eexists; split; [exact Heq|]; auto; fail).
  right.
  destruct H as (est & magic & pre & clamped & _ & _ & Hc & Hcl & Heq).
  pose proof (chooseChunks_extra _ _ _ _ _ Hc) as Hextra.
  apply chooseChunks_inv in Hc; [|apply atEstimate_is_ulong|apply blockSize_is_size].
  destruct Hc as ((_ & _ & _ & Ha & _) & Hb & Hcases).
  assert (Ha0 : area (atEstimate di ia est sizes) = 0).
  { unfold atEstimate, withArea. fields. rewrite Hr. reflexivity. }
  rewrite Ha0 in *.
  set (b := blockSize di (snd (mwGetWorkGroupInfo kern ci))) in *.
  pose proof (to_size_range (magic * b)) as Hcr.
  destruct Hcases as [(Hn & Hwhy & q1 & Hq1 & HE1 & Hc1)|(Hn & _ & q & Hcpos & Hq & HEq & Hdiv & Hn0 & _)].
  - assert (Hq10 : q1 = 0) by nia. subst q1.
    rewrite Z.mul_0_r in HE1. change (to_ulong 0) with 0 in HE1.
    assert (Hforce : nonResponsive clr || nonOutput di = true).
    { destruct Hwhy as [Hf|(q & Hq & Hdiv)]; [exact Hf|]. exfalso.
      assert (Hq0 : q = 0) by nia. subst q.
      rewrite Z.mul_0_r in Hdiv. change (to_ulong 0) with 0 in Hdiv.
      rewrite <- (Z.mul_0_r (to_size (magic * b))) in Hdiv at 1.
      rewrite mwDivRoundup_exact in Hdiv by lia. inversion Hdiv. }
    split; [exact Hforce|].
    assert (Hmwd : 0 <= maxWorkDim di).
    { unfold maxWorkDim. destruct (maxWorkItemSizes di) as [[w0 w1] w2].
      apply to_ulong_range. }
    apply clampChunks_inv in Hcl.
    destruct Hcl as (_ & _ & _ & [[_ ->]|(Hgt & _)]); [|lia].
    subst ret. unfold finishPlan. cbv zeta. fields.
    destruct (Z.ltb_spec (effectiveArea pre) (area pre)); [lia|].
    eexists. split; [reflexivity|]. fields.
    rewrite Hextra, Ha. repeat split; try assumption; try congruence.
    rewrite HE1. reflexivity.
  - exfalso. assert (Hq0 : q = 0) by nia. subst q.
    rewrite Z.mul_0_r in HEq. change (to_ulong 0) with 0 in HEq.
    rewrite HEq in Hdiv.
    rewrite <- (Z.mul_0_r (to_size (magic * b))) in Hdiv at 1.
    rewrite mwDivRoundup_exact in Hdiv by lia. inversion Hdiv. congruence.
Qed.

(** X9.  On a device that is not a CPU and reports no compute unit, or
    whose kernel query reports a work group size of 0, the block size
    is 0 and the tuning divides by it: the planner returns nothing but
    a failure found before the tuning. *)
Theorem findRunSizes_needs_block kern sizes ci di ap ia clr ret :
  plan kern sizes ci di ap ia clr = Value ret ->
  devType di <> CL_DEVICE_TYPE_CPU ->
  maxCompUnits di = 0 \/ wgs (snd (mwGetWorkGroupInfo kern ci)) = 0 ->
  exists why, ret = PlanFailed why (withArea ia sizes) /\
    (why = AreaOverflows \/ why = WorkGroupInfoFailed \/
     why = GroupSizeNotWarpMultiple).
Proof.
  intros H Hcpu Hzero. apply findRunSizes_inv in H. cbv zeta in H.
  destruct H as
    (_ & [[_ Heq]|[(_ & Hc & _)|(_ & _ & [[_ Heq]|(_ & Hw & [[_ Heq]|(Hd & H)])])]]);
    try contradiction;
    try (eexists; split; [exact Heq|]; auto; fail).
  exfalso.
  destruct H as (est & magic & pre & clamped & _ & _ & Hc & _).
  apply chooseChunks_inv in Hc; [|apply atEstimate_is_ulong|apply blockSize_is_size].
  destruct Hc as (_ & Hb & _).
  unfold blockSize in Hb. cbv zeta in Hb.
  destruct Hzero as [Hz|Hz]; rewrite Hz in Hb.
  - rewrite Z.mul_0_r in Hb. vm_compute in Hb. discriminate.
  - rewrite Z.div_0_l in Hb by exact Hw. vm_compute in Hb. discriminate.
Qed.


(* ----------------------------------------------------------------- *)
(** *** The previous contents of [*sizes] *)

(** The clamp neither reads nor writes the global size. *)
Lemma clampLoop_global (fuel : nat) (mwd g : Z) (s : RunSizes) :
  clampLoop fuel mwd (set_global g s)
  = (x <- clampLoop fuel mwd s ;; Value (set_global g x)).
Proof.
  revert s. induction fuel as [|fuel IH]; intros s; [reflexivity|].
  cbn [clampLoop]. fields.
  destruct (chunkSize s >? mwd); [|reflexivity].
  destruct (udiv (effectiveArea s) (to_size (nChunk s * 2))) as [c| |];
    cbn [bind]; try reflexivity.
  rewrite <- IH. reflexivity.
Qed.

Lemma clampChunks_global (mwd b g : Z) (s : RunSizes) :
  clampChunks mwd b (set_global g s)
  = (ret <- clampChunks mwd b s ;; Value (with_global g ret)).
Proof.
  unfold clampChunks. fields.
  destruct (chunkSize s >? mwd); [|reflexivity].
  rewrite clampLoop_global.
  destruct (clampLoop clampFuel mwd s) as [x| |]; cbn [bind]; try reflexivity. fields.
  destruct (mwDivisible (chunkSize x) (local x)) as [d| |]; cbn [bind]; try reflexivity.
  destruct d; cbn [negb]; [|reflexivity].
  destruct (mwDivisible (chunkSize x) b); reflexivity.
Qed.

(** X10.  A plan does not depend on what [*sizes] held before: every
    field is written on the way to a plan, so planning into a used
    [RunSizes] gives the plan that planning into any other gives. *)
Theorem findRunSizes_overwrites_sizes kern sizes sizes' ci di ap ia clr s :
  findRunSizes DOUBLEPREC mwDeviceEstimateGFLOPs mwGetWorkGroupInfo
               kern sizes ci di ap ia clr = Value (Planned s) ->
  findRunSizes DOUBLEPREC mwDeviceEstimateGFLOPs mwGetWorkGroupInfo
               kern sizes' ci di ap ia clr = Value (Planned s).
Proof.
  unfold findRunSizes. cbv zeta. intros H.
  block_step H; cbn [bind].
  destruct (r_steps ia >? v); [discriminate|].
  destruct (devType di =? CL_DEVICE_TYPE_CPU); [fields; exact H|].
  destruct (mwGetWorkGroupInfo kern ci) as [err wgi].
  destruct (negb (err =? CL_SUCCESS)); [discriminate|].
  block_step H; cbn [bind]. destruct (negb v0); [discriminate|].
  block_step H; cbn [bind].
  unfold chooseMagic in *. fields.
  block_step H; cbn [bind].
  unfold chooseChunks in *. cbv zeta in *. fields.
  destruct (mwDivRoundup (to_ulong (r_steps ia * mu_steps ia))
                         (to_size (v2 * blockSize di wgi))) as [q| |];
    cbn [bind] in *; try discriminate. fields.
  destruct (if nonResponsive clr || nonOutput di then Value 1
            else mwDivRoundup (to_ulong (to_size (v2 * blockSize di wgi) * q))
                              (to_size (v2 * blockSize di wgi))) as [n| |];
    cbn [bind] in *; try discriminate. fields.
  destruct (to_size n =? 1).
  - destruct (mwDivRoundup (to_ulong (r_steps ia * mu_steps ia)) (blockSize di wgi))
      as [q1| |]; cbn [bind] in *; try discriminate. fields.
    destruct (udiv (to_size (to_ulong (blockSize di wgi * q1))) (blockSize di wgi))
      as [k| |]; cbn [bind] in *; try discriminate.
    destruct (udiv (to_ulong (blockSize di wgi * q1)) (to_size n)) as [c| |];
      cbn [bind] in *; try discriminate. fields.
    match type of H with
    | bind (clampChunks _ _ ?X) _ = _ =>
        match goal with
        | |- bind (clampChunks _ _ ?X') _ = _ =>
            change X' with (set_global (global sizes') X)
        end
    end.
    rewrite clampChunks_global.
    block_step H; cbn [bind with_global].
    destruct v3; [|discriminate].
    unfold finishPlan in *. cbv zeta in *. fields. exact H.
  - cbn [bind] in *. fields.
    destruct (udiv (to_size (v2 * blockSize di wgi)) (blockSize di wgi))
      as [k| |]; cbn [bind] in *; try discriminate.
    destruct (udiv (to_ulong (to_size (v2 * blockSize di wgi) * q)) (to_size n)) as [c| |];
      cbn [bind] in *; try discriminate. fields.
    match type of H with
    | bind (clampChunks _ _ ?X) _ = _ =>
        match goal with
        | |- bind (clampChunks _ _ ?X') _ = _ =>
            change X' with (set_global (global sizes') X)
        end
    end.
    rewrite clampChunks_global.
    block_step H; cbn [bind with_global].
    destruct v3; [|discriminate].
    unfold finishPlan in *. cbv zeta in *. fields. exact H.
Qed.


(* ----------------------------------------------------------------- *)
(** *** Degenerate throughput estimates and target frequencies *)

(** X11.  When the device library estimates a throughput of zero (or
    NaN) for the device, the estimated time of an iteration is infinite
    or NaN, and so is the quotient that [findNChunk] converts to a
    [cl_uint]: the conversion is undefined whatever the area and the
    request are, and the planner returns nothing on such a device,
    unless it is a CPU, but a failure found before the tuning. *)
Theorem findNChunk_needs_throughput ap ia di clr :
  (exists sg, mwDeviceEstimateGFLOPs di DOUBLEPREC = S754_zero sg) \/
  mwDeviceEstimateGFLOPs di DOUBLEPREC = S754_nan ->
  findNChunk DOUBLEPREC mwDeviceEstimateGFLOPs ap ia di clr
  = Undef DoubleToIntOutOfRange /\
  forall kern sizes ci ret,
    plan kern sizes ci di ap ia clr = Value ret ->
    devType di <> CL_DEVICE_TYPE_CPU ->
    exists why, ret = PlanFailed why (withArea ia sizes) /\
      (why = AreaOverflows \/ why = WorkGroupInfoFailed \/
       why = GroupSizeNotWarpMultiple).
Proof.
  intros Hg.
  assert (Hundef : findNChunk DOUBLEPREC mwDeviceEstimateGFLOPs ap ia di clr
                   = Undef DoubleToIntOutOfRange).
  { unfold findNChunk, chunkQuotient. cbv zeta.
    destruct Hg as [[sg Hg]|Hg]; rewrite Hg;
      destruct (dmul d_1000 (estimateWUGFLOPsPerIter ap ia));
      destruct (ddiv d_1000 (targetFrequency clr)); reflexivity. }
  split; [exact Hundef|].
  intros kern sizes ci ret H Hcpu. apply findRunSizes_inv in H. cbv zeta in H.
  destruct H as
    (_ & [[_ Heq]|[(_ & Hc & _)|(_ & _ & [[_ Heq]|(_ & Hw & [[_ Heq]|(Hd & H)])])]]);
    try contradiction;
    try (eexists; split; [exact Heq|]; auto; fail).
  destruct H as (est & _ & _ & _ & He & _). congruence.
Qed.

(** X12.  The target frequency divides 1000: with a target frequency of
    zero the time allowed for an iteration is infinite, and the chunk
    estimate is 1 whenever the estimated time of an iteration is finite;
    with an infinite or NaN target frequency the conversion of the
    quotient is undefined, whatever the device and the area are. *)
Theorem findNChunk_degenerate_frequency ap ia di clr :
  let estIterTime :=
    ddiv (dmul d_1000 (estimateWUGFLOPsPerIter ap ia))
         (dmul GPU_EFFICIENCY_ESTIMATE (mwDeviceEstimateGFLOPs di DOUBLEPREC)) in
  let chunks := findNChunk DOUBLEPREC mwDeviceEstimateGFLOPs ap ia di clr in
  (forall s, targetFrequency clr = S754_zero s ->
     chunks = match estIterTime with
              | S754_zero _ | S754_finite _ _ _ => Value 1
              | S754_infinity _ | S754_nan => Undef DoubleToIntOutOfRange
              end) /\
  ((exists s, targetFrequency clr = S754_infinity s) \/ targetFrequency clr = S754_nan ->
   chunks = Undef DoubleToIntOutOfRange).
Proof.
  cbv zeta. unfold findNChunk, chunkQuotient. cbv zeta. split.
  - intros s ->.
    destruct (ddiv (dmul d_1000 (estimateWUGFLOPsPerIter ap ia)) _); reflexivity.
  - intros [[s ->]| ->];
      destruct (ddiv (dmul d_1000 (estimateWUGFLOPsPerIter ap ia)) _); reflexivity.
Qed.


(* ----------------------------------------------------------------- *)
(** *** Termination *)

Lemma clampLoop_undefined (fuel : nat) (mwd : Z) (s : RunSizes) (u : Undefined) :
  clampLoop fuel mwd s = Undef u -> u = DivisionByZero.
Proof.
  revert s. induction fuel as [|fuel IH]; intros s H; cbn [clampLoop] in H;
    [discriminate|].
  destruct (chunkSize s >? mwd); [|discriminate]. fields.
  unfold udiv in H. destruct (to_size (nChunk s * 2) =? 0); cbn [bind] in H.
  - inversion H. reflexivity.
  - apply IH in H. exact H.
Qed.

(** X1.  The clamp loop, the only loop of the planner, always comes to
    an end: [nChunk] is doubled in 64 bits, so after at most 64 rounds
    the chunk size is within the maximum work dimension or [nChunk] has
    wrapped around to 0 and the loop divides by it.  So the planner
    returns or runs into undefined behaviour, and never loops. *)
Theorem findRunSizes_terminates kern sizes ci di ap ia clr :
  ((exists ret, plan kern sizes ci di ap ia clr = Value ret) \/
   (exists u, plan kern sizes ci di ap ia clr = Undef u)) /\
  forall mwd s,
    (exists s', clampLoop clampFuel mwd s = Value s' /\ chunkSize s' <= mwd) \/
    clampLoop clampFuel mwd s = Undef DivisionByZero.
Proof.
  split.
  - pose proof (findRunSizes_total kern sizes ci di ap ia clr) as H.
    destruct (plan kern sizes ci di ap ia clr) as [ret|u|]; [left|right|contradiction];
      eexists; reflexivity.
  - intros mwd s. pose proof (clampLoop_fuel mwd s) as H.
    destruct (clampLoop clampFuel mwd s) as [s'|u|] eqn:E; [left|right|contradiction].
    + exists s'. split; [reflexivity|]. apply clampLoop_inv in E. apply E.
    + apply clampLoop_undefined in E. rewrite E. reflexivity.
Qed.


(* ----------------------------------------------------------------- *)
(** *** The failures after the tuning *)

(** X24.  The two failures that come after the tuning.  The planner
    gives up on a large workunit only when the clamp has run: the
    padded area exceeds the maximum work dimension, and the chunk size,
    now within it, is not a multiple of the warp size.  The final check
    fails only when the padded area has wrapped around 64 bits, which
    takes an area within [2^32] blocks of [2^64]. *)
Theorem findRunSizes_late_failures kern sizes ci di ap ia clr why s :
  plan kern sizes ci di ap ia clr = Value (PlanFailed why s) ->
  is_int (magicFactor clr) ->
  let b := blockSize di (snd (mwGetWorkGroupInfo kern ci)) in
  (why = LargeWorkunitUnhandled ->
   chunkSize s <= maxWorkDim di < effectiveArea s /\
   warpSize di <> 0 /\ chunkSize s mod warpSize di <> 0) /\
  (why = EffectiveAreaTooSmall ->
   effectiveArea s < area s /\ 2 ^ 64 < area s + 2 ^ 32 * b).
Proof.
  intros H Hint. cbv zeta. apply findRunSizes_inv in H. cbv zeta in H.
  destruct H as
    (_ & [[_ Heq]|[(_ & _ & Heq)|(_ & _ & [[_ Heq]|(_ & Hw & [[_ Heq]|(Hd & H)])])]]);
    try (inversion Heq; subst; split; discriminate).
  destruct H as (est & magic & pre & clamped & _ & Hm & Hc & Hcl & Heq).
  apply chooseMagic_range in Hm; [|exact Hint].
  pose proof (chooseChunks_chunk_le _ _ _ _ _ (atEstimate_is_ulong _ _ _ _)
                                    (blockSize_is_size _ _) Hc) as Hchunk.
  apply chooseChunks_inv in Hc; [|apply atEstimate_is_ulong|apply blockSize_is_size].
  destruct Hc as ((_ & Hl & _ & Ha & _) & Hb & Hcases).
  pose proof (atEstimate_is_ulong di ia est sizes) as Har. unfold is_ulong in Har.
  rewrite <- Ha in Har, Hcases.
  set (b := blockSize di (snd (mwGetWorkGroupInfo kern ci))) in *.
  pose proof Hcl as Hloop. unfold clampChunks in Hloop.
  apply clampChunks_inv in Hcl.
  destruct Hcl as ((_ & Hl' & _ & Ha' & _) & HE & _ & Hclamp).
  destruct clamped as [post|why' post]; cbn [sizesOf] in *.
  - unfold finishPlan in Heq. cbv zeta in Heq. fields.
    destruct (Z.ltb_spec (effectiveArea post) (area post)) as [Hlt|]; [|discriminate].
    inversion Heq; subst why s. fields.
    split; [discriminate|]. intros _. split; [exact Hlt|].
    rewrite HE, Ha' in Hlt. rewrite Ha'.
    pose proof (to_size_range (magic * b)) as Hcr.
    assert (Hcle : to_size (magic * b) <= magic * b).
    { unfold to_size. apply Z.mod_le; [nia|lia]. }
    destruct Hcases as [(_ & _ & q1 & Hq1 & HE1 & _)|(_ & _ & q & Hcpos & Hq & HEq & _)].
    + rewrite HE1 in Hlt.
      destruct (Z_lt_le_dec (b * q1) (2 ^ 64)) as [Hsmall|Hbig].
      * rewrite to_ulong_small in Hlt by nia. lia.
      * nia.
    + rewrite HEq in Hlt.
      destruct (Z_lt_le_dec (to_size (magic * b) * q) (2 ^ 64)) as [Hsmall|Hbig].
      * rewrite to_ulong_small in Hlt by nia. lia.
      * nia.
  - inversion Heq; subst why' post.
    destruct Hclamp as [[_ Hclamp]|(Hgt & _ & -> & Hl0 & Hmod)]; [discriminate|].
    split; [|discriminate]. intros _.
    assert (Hlocal : local s = warpSize di).
    { rewrite Hl', Hl. reflexivity. }
    rewrite Hlocal in Hmod. rewrite HE.
    split; [|split; assumption]. split; [|lia].
    destruct (Z.gtb_spec (chunkSize pre) (maxWorkDim di)) as [_|Hle]; [|lia].
    destruct (clampLoop clampFuel (maxWorkDim di) pre) as [x| |] eqn:Eloop;
      cbn [bind] in Hloop; try discriminate.
    apply clampLoop_inv in Eloop. destruct Eloop as (_ & _ & _ & Hmax & _).
    destruct (mwDivisible (chunkSize x) (local x)) as [d| |]; cbn [bind] in Hloop;
      try discriminate.
    destruct d; cbn [negb] in Hloop.
    + destruct (mwDivisible (chunkSize x) b); discriminate.
    + inversion Hloop; subst x. exact Hmax.
Qed.


End PlannerProperties.

(* ================================================================= *)
(** ** The cost estimator *)

(** [double_trunc] of a positive double [m * 2^e] is its floor. *)
Lemma double_trunc_floor (m : positive) (e t : Z) :
  double_trunc (S754_finite false m e) = Some t ->
  (0 <= e -> t = Zpos m * 2 ^ e) /\
  (e < 0 -> 0 <= t /\ t * 2 ^ (- e) <= Zpos m < (t + 1) * 2 ^ (- e)).
Proof.
  simpl. intros H. inversion H; subst t; clear H. split.
  - intros He. apply Z.shiftl_mul_pow2. exact He.
  - intros He.
    remember (- e) as k eqn:Hk. assert (He' : e = - k) by lia. subst e.
    change (Z.shiftl (Zpos m) (- k)) with (Z.shiftr (Zpos m) k).
    rewrite Z.shiftr_div_pow2 by lia.
    assert (Hp : 0 < 2 ^ k) by (apply Z.pow_pos_nonneg; lia).
    pose proof (Z.div_mod (Zpos m) (2 ^ k)) as Hdm.
    pose proof (Z.mod_pos_bound (Zpos m) (2 ^ k) Hp) as Hmod.
    split; [apply Z.div_pos; lia|]. nia.
Qed.

(** X27.  The work estimate is exact wherever the exact count fits:
    for at most 63161282 streams (so that [32 + 68 * number_streams],
    which is computed in 32 bits, does not wrap around) and an exact
    count of floating-point operations below [2^64], [perIter] is
    [((32 + 68 n (+ 8 with an auxiliary background profile)) * convolve
    + 1 + 2 n) * mu_steps * r_steps], and the estimate is its nearest
    double times [1.0e-9]. *)
Theorem estimateWUGFLOPsPerIter_exact (ap : AstronomyParameters) (ia : IntegralArea) :
  let n := number_streams ap in
  let perItem :=
    (32 + 68 * n + (if aux_bg_profile ap =? 0 then 0 else 8)) * convolve ap + 1 + 2 * n in
  0 <= n -> 32 + 68 * n < 2 ^ 32 -> 0 <= convolve ap ->
  0 <= mu_steps ia -> 0 <= r_steps ia ->
  perItem * mu_steps ia * r_steps ia < 2 ^ 64 ->
  perIter ap ia = perItem * mu_steps ia * r_steps ia /\
  estimateWUGFLOPsPerIter ap ia
  = dmul d_1em9 (double_of_Z (perItem * mu_steps ia * r_steps ia)).
Proof.
  cbv zeta. intros Hn Hn32 Hc Hmu Hr Htotal.
  assert (Hper : perIter ap ia
                 = ((32 + 68 * number_streams ap
                     + (if aux_bg_profile ap =? 0 then 0 else 8)) * convolve ap
                    + 1 + 2 * number_streams ap) * mu_steps ia * r_steps ia).
  { unfold perIter. cbv zeta.
    rewrite (to_uint_small (number_streams ap * 68)) by lia.
    rewrite (to_uint_small (32 + number_streams ap * 68)) by lia.
    rewrite (to_uint_small (number_streams ap * 2)) by lia.
    set (tmp := if negb (aux_bg_profile ap =? 0)
                then to_ulong (32 + number_streams ap * 68 + 8)
                else 32 + number_streams ap * 68).
    assert (Htmp : tmp = 32 + 68 * number_streams ap
                         + (if aux_bg_profile ap =? 0 then 0 else 8)).
    { unfold tmp. destruct (aux_bg_profile ap =? 0); cbn [negb].
      - lia.
      - rewrite to_ulong_small by lia. lia. }
    rewrite Htmp. clear tmp Htmp.
    set (t := 32 + 68 * number_streams ap + (if aux_bg_profile ap =? 0 then 0 else 8))
      in *.
    assert (Ht : 0 <= t) by (unfold t; destruct (aux_bg_profile ap =? 0); lia).
    destruct (Z.eq_dec (mu_steps ia) 0) as [Hmu0|Hmu0].
    { rewrite Hmu0, !Z.mul_0_r, Z.mul_0_l. reflexivity. }
    destruct (Z.eq_dec (r_steps ia) 0) as [Hr0|Hr0].
    { rewrite Hr0, !Z.mul_0_r. reflexivity. }
    assert (Hitem : 0 <= t * convolve ap + 1 + 2 * number_streams ap < 2 ^ 64) by nia.
    rewrite (to_ulong_small (t * convolve ap)) by nia.
    rewrite (to_ulong_small (t * convolve ap + 1)) by nia.
    replace (t * convolve ap + 1 + number_streams ap * 2)
      with (t * convolve ap + 1 + 2 * number_streams ap) by ring.
    rewrite (to_ulong_small (t * convolve ap + 1 + 2 * number_streams ap)) by lia.
    rewrite (to_ulong_small ((t * convolve ap + 1 + 2 * number_streams ap) * mu_steps ia))
      by nia.
    apply to_ulong_small. nia. }
  split; [exact Hper|]. unfold estimateWUGFLOPsPerIter. rewrite Hper. reflexivity.
Qed.


Section Cost.
Variable DOUBLEPREC : bool.
Variable mwDeviceEstimateGFLOPs : DevInfo -> bool -> cl_double.

(** C3 (amended).  The target chunk count is the quotient
    [estIterTime / timePerIter] rounded toward zero, not up, and
    replaced by 1 when that is 0: for a zero quotient it is 1, and for a
    positive quotient [m * 2^e] with an integral part below [2^32] it is
    that integral part, or 1 when the quotient is below 1.  Whenever it
    is defined it is a positive [cl_uint], and it depends on nothing but
    the inputs.  It is not defined for every input: the conversion of an
    infinite or NaN quotient, or of one whose integral part is not a
    [cl_uint], is undefined. *)
Theorem findNChunk_truncates ap ia di clr :
  let q := chunkQuotient DOUBLEPREC mwDeviceEstimateGFLOPs ap ia di clr in
  let chunks := findNChunk DOUBLEPREC mwDeviceEstimateGFLOPs ap ia di clr in
  (forall n, chunks = Value n -> 1 <= n < 2 ^ 32) /\
  (forall s, q = S754_zero s -> chunks = Value 1) /\
  (forall m e, q = S754_finite false m e -> Z.shiftl (Zpos m) e < 2 ^ 32 ->
     exists n, chunks = Value n /\
       (0 <= e -> n = Zpos m * 2 ^ e) /\
       (e < 0 -> (Zpos m < 2 ^ (- e) /\ n = 1) \/
                 (1 <= n /\ n * 2 ^ (- e) <= Zpos m < (n + 1) * 2 ^ (- e)))) /\
  (forall s, q = S754_infinity s \/ q = S754_nan ->
     chunks = Undef DoubleToIntOutOfRange) /\
  (forall t, double_trunc q = Some t -> t < 0 \/ 2 ^ 32 <= t ->
     chunks = Undef DoubleToIntOutOfRange).
Proof.
  cbv zeta. unfold findNChunk, cl_uint_of_double.
  split; [|split; [|split; [|split]]].
  - intros n H.
    destruct (double_trunc _) as [t|]; [|discriminate].
    destruct (Z.leb_spec 0 t); [|discriminate].
    destruct (Z.ltb_spec t (2 ^ 32)); [|discriminate].
    cbn [andb bind] in H. inversion H.
    destruct (Z.eqb_spec t 0); lia.
  - intros s ->. reflexivity.
  - intros m e -> Hsmall.
    pose proof (double_trunc_floor m e _ eq_refl) as [Hpos Hneg].
    cbn [double_trunc cond_Zopp] in *.
    set (t := Z.shiftl (Zpos m) e) in *.
    assert (H0 : 0 <= t) by (apply Z.shiftl_nonneg; lia).
    destruct (Z.leb_spec 0 t); [|lia].
    destruct (Z.ltb_spec t (2 ^ 32)); [|lia].
    cbn [andb bind]. eexists. split; [reflexivity|]. split.
    + intros He. specialize (Hpos He).
      destruct (Z.eqb_spec t 0); [|exact Hpos].
      assert (0 < 2 ^ e) by (apply Z.pow_pos_nonneg; lia). nia.
    + intros He. specialize (Hneg He).
      destruct (Z.eqb_spec t 0) as [Hz|Hnz].
      * left. split; [|reflexivity]. rewrite Hz in Hneg. lia.
      * right. split; [lia|]. apply Hneg.
  - intros s [-> | ->]; reflexivity.
  - intros t -> Hout.
    destruct (Z.leb_spec 0 t); destruct (Z.ltb_spec t (2 ^ 32)); try lia; reflexivity.
Qed.

End Cost.

(* ================================================================= *)
(** ** The capability checker and the kernel selection *)

Lemma gtb_negb_leb (a b : Z) : (a >? b) = negb (a <=? b).
Proof. rewrite Z.gtb_ltb, Z.leb_antisym, negb_involutive. reflexivity. Qed.

(** Without wrap-around, the checks of the code on one cut are those
    of the specification, in its order. *)
Lemma separationCheckDevMemory_spec (di : DevInfo) (sizes : SeparationSizes) :
  wf_SeparationSizes sizes -> totalSize sizes < 2 ^ 64 ->
  separationCheckDevMemory di sizes = firstFailure (cutChecks_spec di sizes).
Proof.
  destruct sizes as [oB oS pa pi sc sg lT bS rP rc].
  unfold wf_SeparationSizes, is_size, totalSize, separationCheckDevMemory,
    cutChecks_spec, firstFailure, totalSize.
  cbn [SeparationSizes.outBg SeparationSizes.outStreams SeparationSizes.ap
       SeparationSizes.ia SeparationSizes.sc SeparationSizes.sg_dx
       SeparationSizes.lTrig SeparationSizes.bSin SeparationSizes.rPts
       SeparationSizes.rc].
  intros (H1 & H2 & H3 & H4 & H5 & H6 & H7 & H8 & H9 & H10) Htot. cbv zeta.
  rewrite (to_size_small (oB + oS)) by lia.
  rewrite (to_size_small (pa + pi)) by lia.
  rewrite (to_size_small (pa + pi + sc)) by lia.
  rewrite (to_size_small (pa + pi + sc + sg)) by lia.
  rewrite (to_size_small (lT + bS)) by lia.
  rewrite (to_size_small (lT + bS + rP)) by lia.
  rewrite (to_size_small (lT + bS + rP + rc)) by lia.
  rewrite (to_size_small (oB + oS + (pa + pi + sc + sg))) by lia.
  rewrite (to_size_small (oB + oS + (pa + pi + sc + sg) + (lT + bS + rP + rc))) by lia.
  rewrite !gtb_negb_leb.
  replace (oB + oS + (pa + pi + sc + sg) + (lT + bS + rP + rc))
    with (oB + oS + pa + pi + sc + sg + lT + bS + rP + rc) by ring.
  destruct (Z.leb_spec (oB + oS + pa + pi + sc + sg + lT + bS + rP + rc) (memSize di));
    cbn [negb]; [|reflexivity].
  destruct (Z.leb_spec (oB + oS) (memSize di)); [|lia].
  destruct (Z.leb_spec oB (memSize di)); [|lia].
  destruct (Z.leb_spec oS (memSize di)); [|lia].
  cbn [negb andb].
  destruct (oB <=? maxMemAlloc di), (oS <=? maxMemAlloc di);
    cbn [negb andb orb]; try reflexivity.
  destruct (lT <=? maxMemAlloc di), (bS <=? maxMemAlloc di),
           (rP <=? maxMemAlloc di), (rc <=? maxMemAlloc di);
    cbn [negb andb orb]; try reflexivity.
  destruct (NUM_CONST_BUF_ARGS <=? maxConstArgs di); cbn [negb]; [|reflexivity].
  destruct (_ <=? maxConstBufSize di); reflexivity.
Qed.

Lemma firstFailure_forallb (checks : list (bool * Diagnostic)) :
  fst (firstFailure checks) = forallb fst checks.
Proof.
  induction checks as [|[ok why] rest IH]; [reflexivity|].
  simpl. destruct ok; [exact IH|reflexivity].
Qed.

Section SetupProperties.

Variable DOUBLEPREC : bool.
Variable mwSupportsDoubles : DevInfo -> bool.
Variable calculateSizes : AstronomyParameters -> IntegralArea -> SeparationSizes.
Variable mwIsAMDGPUDevice : DevInfo -> bool.
Variable mwPlatformSupportsAMDOfflineDevices : CLInfo -> bool.
Variable MW_CL_ERROR : Z.
Hypothesis MW_CL_ERROR_is_error : MW_CL_ERROR <> CL_SUCCESS.

Local Abbreviation checkCapabilities :=
  (separationCheckDevCapabilities DOUBLEPREC mwSupportsDoubles calculateSizes).
Local Abbreviation setup :=
  (setupSeparationCL DOUBLEPREC mwSupportsDoubles calculateSizes mwIsAMDGPUDevice
                     mwPlatformSupportsAMDOfflineDevices MW_CL_ERROR).
Local Abbreviation capable :=
  (capable_spec DOUBLEPREC mwSupportsDoubles calculateSizes).
Local Abbreviation representable := (sizesRepresentable calculateSizes).
Local Abbreviation ilAcceptable :=
  (usingILKernelIsAcceptable DOUBLEPREC mwIsAMDGPUDevice
                             mwPlatformSupportsAMDOfflineDevices).

Lemma checkCuts_spec (di : DevInfo) (ap : AstronomyParameters)
      (ias : list IntegralArea) (todo : nat) (i : nat) :
  Z.of_nat i + Z.of_nat todo < 2 ^ 31 ->
  (i + todo <= length ias)%nat ->
  exists log,
    checkCuts calculateSizes todo (Z.of_nat i) di ap ias
    = Value (forallb (fun ia => fst (separationCheckDevMemory di (calculateSizes ap ia)))
                     (firstn todo (skipn i ias)), log).
Proof.
  revert i. induction todo as [|todo IH]; intros i Hmax Hlen.
  - exists []. reflexivity.
  - cbn [checkCuts]. rewrite Nat2Z.id.
    destruct (nth_error ias i) as [ia|] eqn:Hnth.
    2:{ apply nth_error_None in Hnth. lia. }
    assert (Hskip : skipn i ias = ia :: skipn (S i) ias).
    { clear - Hnth. revert ias Hnth. induction i as [|i IHi]; intros [|x l] H;
        try discriminate.
      - inversion H. reflexivity.
      - simpl in H. simpl. apply IHi. exact H. }
    rewrite Hskip. cbn [firstn forallb].
    destruct (separationCheckDevMemory di (calculateSizes ap ia)) as [ok log] eqn:Hmem.
    cbn [fst]. destruct ok; cbn [negb andb].
    + destruct (Z.eqb_spec (Z.of_nat i) (2 ^ 31 - 1)); [lia|].
      destruct (IH (S i)) as [log' Hrest]; [lia|lia|].
      replace (Z.of_nat i + 1) with (Z.of_nat (S i)) by lia.
      rewrite Hrest. cbn [bind fst snd]. eexists. reflexivity.
    + eexists. reflexivity.
Qed.

Lemma forallb_ext_In {A : Type} (f g : A -> bool) (l : list A) :
  (forall x, In x l -> f x = g x) -> forallb f l = forallb g l.
Proof.
  induction l as [|x l IH]; intros H; [reflexivity|].
  simpl. rewrite (H x) by (left; reflexivity).
  rewrite IH; [reflexivity|]. intros y Hy. apply H. right. exact Hy.
Qed.

Lemma separationCheckDevCapabilities_spec (di : DevInfo) (ap : AstronomyParameters)
      (ias : list IntegralArea) :
  0 <= number_integrals ap < 2 ^ 31 ->
  (Z.to_nat (number_integrals ap) <= length ias)%nat ->
  representable ap ias ->
  exists log, checkCapabilities di ap ias = Value (capable di ap ias, log).
Proof.
  intros Hn Hlen Hrep. unfold separationCheckDevCapabilities, capable_spec.
  destruct (DOUBLEPREC && negb (mwSupportsDoubles di)) eqn:Hprec.
  - exists [NoDoublePrecision].
    apply andb_true_iff in Hprec. destruct Hprec as [-> Hs].
    apply negb_true_iff in Hs. rewrite Hs. reflexivity.
  - assert (Hok : negb DOUBLEPREC || mwSupportsDoubles di = true).
    { destruct DOUBLEPREC, (mwSupportsDoubles di); try reflexivity; discriminate. }
    rewrite Hok. cbn [andb].
    destruct (checkCuts_spec di ap ias (Z.to_nat (number_integrals ap)) 0)
      as [log Hlog]; [lia|lia|].
    change (Z.of_nat 0) with 0 in Hlog. rewrite Hlog. exists log.
    cbn [skipn]. f_equal. f_equal. unfold cutsOf.
    apply forallb_ext_In. intros ia Hin.
    destruct (Hrep ia Hin) as [Hwf Htot].
    rewrite separationCheckDevMemory_spec by assumption.
    apply firstFailure_forallb.
Qed.


Lemma setProgramFromILKernel_fails ext ap clr st :
  ilPathFails ext ->
  fst (setProgramFromILKernel MW_CL_ERROR ext ap clr st) <> CL_SUCCESS /\
  st_kernel (snd (setProgramFromILKernel MW_CL_ERROR ext ap clr st)) = st_kernel st.
Proof.
  intros Hfail. unfold setProgramFromILKernel. cbv zeta.
  destruct (ext_mwGetProgramBinary ext) eqn:Hbin; cbn [negb];
    [|split; [assumption|reflexivity]].
  destruct (Z.eqb_spec (ext_clReleaseProgram ext) CL_SUCCESS) as [Hr|Hr]; cbn [negb];
    [|split; [assumption|reflexivity]].
  destruct (ext_getModifiedAMDBinary ext) eqn:Hmod; cbn [negb];
    [|split; [assumption|reflexivity]].
  destruct (Z.eqb_spec (ext_mwSetProgramFromBin ext) CL_SUCCESS) as [Hb|Hb]; cbn [negb];
    [|split; [assumption|reflexivity]].
  exfalso. destruct Hfail as [H|[H|[H|H]]]; congruence.
Qed.

(** The binary variant ends up as the program only when it was
    selected. *)
Lemma setupSeparationCL_il_only_if_acceptable ext st ap ias clr err st' :
  setup ext st ap ias clr = Value (err, st') ->
  prog (snd (ext_mwSetupCL ext)) <> ILProgram ->
  prog (st_ci st') = ILProgram ->
  ilAcceptable (snd (ext_mwSetupCL ext)) ap clr = true.
Proof.
  unfold setupSeparationCL. cbv zeta.
  destruct (ext_mwSetupCL ext) as [e ci]. cbn [fst snd st_ci].
  intros H Hinit Hil.
  destruct (negb (e =? CL_SUCCESS)).
  { inversion H; subst. cbn in Hil. contradiction. }
  destruct (separationCheckDevCapabilities _ _ _ _ _ _) as [[ok log]| |];
    cbn [bind fst] in H; try discriminate.
  destruct (negb ok).
  { inversion H; subst. cbn in Hil. contradiction. }
  destruct (negb (ext_getCompilerFlags ext)).
  { inversion H; subst. cbn in Hil. contradiction. }
  destruct (usingILKernelIsAcceptable _ _ _ _ _ _); [reflexivity|]. exfalso.
  unfold mwSetProgramFromSrc, mwCreateKernel in H. cbv zeta in H.
  destruct (ext_mwSetProgramFromSrc ext =? CL_SUCCESS); cbn [negb] in H.
  - destruct (ext_mwSetProgramFromSrc ext =? CL_SUCCESS);
      destruct (ext_mwCreateKernel ext =? CL_SUCCESS);
      inversion H; subst; cbn in Hil; discriminate.
  - destruct (negb (ext_mwSetProgramFromSrc ext =? CL_SUCCESS));
      [|destruct (ext_mwSetProgramFromSrc ext =? CL_SUCCESS);
        destruct (ext_mwCreateKernel ext =? CL_SUCCESS)];
      inversion H; subst; cbn in Hil; discriminate.
Qed.

(** C8 (amended).  The binary (IL) variant is selected exactly when
    the build is in double precision, the request does not force it
    off, there are at most 4 streams and no auxiliary background
    profile, and the device is an AMD GPU with target 770, Cypress or
    Cayman on a platform that supports offline devices; the program is
    the binary variant in the end only when it was selected.  When it
    was selected and any step of the binary path fails, the source is
    built again, and the result of the setup is that of this build
    followed, when it succeeded, by the creation of the kernel: the
    setup succeeds with a kernel of the source program when both
    succeed, and returns the error of the one that failed otherwise. *)
Theorem kernel_variant_selection :
  (forall ci ap clr,
     ilAcceptable ci ap clr = true <->
     DOUBLEPREC = true /\ forceNoILKernel clr = false /\
     number_streams ap <= 4 /\ aux_bg_profile ap = 0 /\
     mwIsAMDGPUDevice (di ci) = true /\
     (calTarget (di ci) = MW_CAL_TARGET_770 \/
      calTarget (di ci) = MW_CAL_TARGET_CYPRESS \/
      calTarget (di ci) = MW_CAL_TARGET_CAYMAN) /\
     mwPlatformSupportsAMDOfflineDevices ci = true) /\
  (forall ext st ap ias clr err st',
     setup ext st ap ias clr = Value (err, st') ->
     prog (snd (ext_mwSetupCL ext)) <> ILProgram ->
     prog (st_ci st') = ILProgram ->
     ilAcceptable (snd (ext_mwSetupCL ext)) ap clr = true) /\
  (forall ext st ap ias clr log,
     fst (ext_mwSetupCL ext) = CL_SUCCESS ->
     checkCapabilities (di (snd (ext_mwSetupCL ext))) ap ias = Value (true, log) ->
     ext_getCompilerFlags ext = true ->
     ext_mwSetProgramFromSrc ext = CL_SUCCESS ->
     ilAcceptable (snd (ext_mwSetupCL ext)) ap clr = true ->
     ilPathFails ext ->
     exists st',
       setup ext st ap ias clr
       = Value (if ext_mwSetProgramFromSrc_again ext =? CL_SUCCESS
                then ext_mwCreateKernel ext
                else ext_mwSetProgramFromSrc_again ext, st') /\
       (ext_mwSetProgramFromSrc_again ext = CL_SUCCESS ->
        ext_mwCreateKernel ext = CL_SUCCESS ->
        st_kernel st' = Some SourceProgram /\ prog (st_ci st') = SourceProgram) /\
       (ext_mwSetProgramFromSrc_again ext <> CL_SUCCESS \/
        ext_mwCreateKernel ext <> CL_SUCCESS ->
        st_kernel st' = st_kernel st)).
Proof.
  split; [|split].
  - intros ci ap clr. unfold usingILKernelIsAcceptable, isILKernelTarget, maxILKernelStreams.
    cbv zeta.
    destruct DOUBLEPREC; cbn [negb]; [|split; [discriminate|intros (H & _); discriminate]].
    destruct (forceNoILKernel clr);
      [split; [discriminate|intros (_ & H & _); discriminate]|].
    destruct (Z.gtb_spec (number_streams ap) 4) as [Hgt|Hle]; cbn [orb];
      [split; [discriminate|intros (_ & _ & Hx & _); lia]|].
    destruct (Z.eqb_spec (aux_bg_profile ap) 0) as [Haux|Haux]; cbn [negb];
      [|split; [discriminate|intros (_ & _ & _ & Hx & _); contradiction]].
    destruct (mwIsAMDGPUDevice (di ci)); cbn [andb];
      [|split; [discriminate|intros (_ & _ & _ & _ & H & _); discriminate]].
    destruct (mwPlatformSupportsAMDOfflineDevices ci);
      [|rewrite andb_false_r; split; [discriminate|intros (_ & _ & _ & _ & _ & _ & H); discriminate]].
    rewrite andb_true_r.
    destruct (calTarget (di ci)); split; intros H; try discriminate; try reflexivity.
    + repeat split; auto; lia.
    + repeat split; auto; lia.
    + repeat split; auto; lia.
    + destruct H as (_ & _ & _ & _ & _ & [Ht|[Ht|Ht]] & _); discriminate.
  - intros ext st ap ias clr err st'.
    apply setupSeparationCL_il_only_if_acceptable.
  - intros ext st ap ias clr log Hsetup Hcap Hflags Hsrc Hil Hfail.
    unfold setupSeparationCL. cbv zeta.
    destruct (ext_mwSetupCL ext) as [err ci]. cbn [fst snd] in *.
    rewrite Hsetup. cbn [negb Z.eqb CL_SUCCESS st_ci].
    rewrite Hcap. cbn [bind fst negb]. rewrite Hil, Hflags. cbn [negb].
    unfold mwSetProgramFromSrc. cbv zeta. rewrite Hsrc.
    cbn [negb Z.eqb CL_SUCCESS].
    match goal with
    | |- context [setProgramFromILKernel MW_CL_ERROR ext ap clr ?s] =>
        pose proof (setProgramFromILKernel_fails ext ap clr s Hfail) as [Hne Hk];
        destruct (setProgramFromILKernel MW_CL_ERROR ext ap clr s) as [e1 st1]
    end.
    cbn [fst snd] in Hne, Hk.
    destruct (Z.eqb_spec e1 CL_SUCCESS) as [|_]; [contradiction|]. cbn [negb].
    destruct (Z.eqb_spec (ext_mwSetProgramFromSrc_again ext) CL_SUCCESS) as [Hagain|Hagain].
    + rewrite Hagain. cbn [Z.eqb CL_SUCCESS]. unfold mwCreateKernel. cbv zeta.
      eexists. split; [reflexivity|].
      destruct (Z.eqb_spec (ext_mwCreateKernel ext) CL_SUCCESS) as [Hck|Hck].
      * split; [intros _ _; split; reflexivity|]. intros [H|H]; contradiction.
      * split; [intros _ H; contradiction|]. intros _. cbn. exact Hk.
    + destruct (Z.eqb_spec (ext_mwSetProgramFromSrc_again ext) 0); [contradiction|].
      eexists. split; [reflexivity|].
      split; [intros H; contradiction|]. intros _. cbn. exact Hk.
Qed.

(* ----------------------------------------------------------------- *)
(** *** What the checker reports *)

(** One cut passes without a message or fails with exactly one. *)
Lemma separationCheckDevMemory_cases (di : DevInfo) (sizes : SeparationSizes) :
  separationCheckDevMemory di sizes = (true, []) \/
  exists why, separationCheckDevMemory di sizes = (false, [why]).
Proof.
  unfold separationCheckDevMemory. cbv zeta.
  repeat match goal with
         | |- context [if ?b then _ else _] => destruct b
         end; eauto.
Qed.

Lemma checkCuts_report (di : DevInfo) (ap : AstronomyParameters)
      (ias : list IntegralArea) (todo i : nat) (ok : bool) (log : list Diagnostic) :
  checkCuts calculateSizes todo (Z.of_nat i) di ap ias = Value (ok, log) ->
  if ok then
    log = [] /\
    forall j, (i <= j < i + todo)%nat ->
      exists ia, nth_error ias j = Some ia /\
        separationCheckDevMemory di (calculateSizes ap ia) = (true, [])
  else
    exists j ia why,
      (i <= j < i + todo)%nat /\ nth_error ias j = Some ia /\
      separationCheckDevMemory di (calculateSizes ap ia) = (false, [why]) /\
      log = [why; CutFailed (Z.of_nat j)] /\
      forall k, (i <= k < j)%nat ->
        exists ia', nth_error ias k = Some ia' /\
          separationCheckDevMemory di (calculateSizes ap ia') = (true, []).
Proof.
  revert i ok log. induction todo as [|todo IH]; intros i ok log H.
  - inversion H. split; [reflexivity|]. intros j Hj. lia.
  - cbn [checkCuts] in H. rewrite Nat2Z.id in H.
    destruct (nth_error ias i) as [ia|] eqn:Hnth; [|discriminate].
    destruct (separationCheckDevMemory_cases di (calculateSizes ap ia))
      as [Hpass|[why Hfail]].
    + rewrite Hpass in H. cbn [negb] in H.
      destruct (Z.of_nat i =? 2 ^ 31 - 1); [discriminate|].
      replace (Z.of_nat i + 1) with (Z.of_nat (S i)) in H by lia.
      destruct (checkCuts calculateSizes todo (Z.of_nat (S i)) di ap ias)
        as [[ok' log']| |] eqn:Hrest; cbn [bind fst snd app] in H; try discriminate.
      inversion H; subst ok' log'; clear H.
      apply IH in Hrest. destruct ok.
      * destruct Hrest as [Hlog Hall]. split; [exact Hlog|].
        intros j Hj. destruct (Nat.eq_dec j i) as [->|Hne].
        -- exists ia. split; assumption.
        -- apply Hall. lia.
      * destruct Hrest as (j & ia' & why & Hj & Hnth' & Hfail & Hlog & Hbefore).
        exists j, ia', why. repeat split; try assumption; try lia.
        intros k Hk. destruct (Nat.eq_dec k i) as [->|Hne].
        -- exists ia. split; assumption.
        -- apply Hbefore. lia.
    + rewrite Hfail in H. cbn [negb app] in H. inversion H; subst ok log; clear H.
      exists i, ia, why. repeat split; try assumption; try lia.
Qed.

(** X13.  What the capability check reports.  When it passes it prints
    nothing, and every one of the [number_integrals] cuts is in the
    array and passes.  When it fails it has printed either the message
    on double precision alone, or the one message of the first cut that
    fails followed by the number of that cut: every cut before it
    passes, and no cut after it is looked at. *)
Theorem separationCheckDevCapabilities_report (dev : DevInfo)
        (ap : AstronomyParameters) (ias : list IntegralArea)
        (ok : bool) (log : list Diagnostic) :
  checkCapabilities dev ap ias = Value (ok, log) ->
  if ok then
    log = [] /\
    forall j, (j < Z.to_nat (number_integrals ap))%nat ->
      exists ia, nth_error ias j = Some ia /\
        separationCheckDevMemory dev (calculateSizes ap ia) = (true, [])
  else
    (DOUBLEPREC = true /\ mwSupportsDoubles dev = false /\ log = [NoDoublePrecision]) \/
    exists j ia why,
      (j < Z.to_nat (number_integrals ap))%nat /\ nth_error ias j = Some ia /\
      separationCheckDevMemory dev (calculateSizes ap ia) = (false, [why]) /\
      log = [why; CutFailed (Z.of_nat j)] /\
      forall k, (k < j)%nat ->
        exists ia', nth_error ias k = Some ia' /\
          separationCheckDevMemory dev (calculateSizes ap ia') = (true, []).
Proof.
  unfold separationCheckDevCapabilities. intros H.
  destruct DOUBLEPREC eqn:Hp; cbn [andb] in H.
  - destruct (mwSupportsDoubles dev) eqn:Hs; cbn [negb] in H.
    + change 0 with (Z.of_nat 0) in H. apply checkCuts_report in H.
      destruct ok.
      * destruct H as [Hlog Hall]. split; [exact Hlog|]. intros j Hj. apply Hall. lia.
      * right. destruct H as (j & ia & why & Hj & Hnth & Hfail & Hlog & Hbefore).
        exists j, ia, why. repeat split; try assumption; try lia.
        intros k Hk. apply Hbefore. lia.
    + inversion H; subst ok log. left. repeat split.
  - change 0 with (Z.of_nat 0) in H. apply checkCuts_report in H.
    destruct ok.
    + destruct H as [Hlog Hall]. split; [exact Hlog|]. intros j Hj. apply Hall. lia.
    + right. destruct H as (j & ia & why & Hj & Hnth & Hfail & Hlog & Hbefore).
      exists j, ia, why. repeat split; try assumption; try lia.
      intros k Hk. apply Hbefore. lia.
Qed.

(* ----------------------------------------------------------------- *)
(** *** Larger devices *)

Lemma gtb_false_le (x a a' : Z) : (x >? a) = false -> a <= a' -> (x >? a') = false.
Proof.
  intros H Hle. destruct (Z.gtb_spec x a); [discriminate|].
  destruct (Z.gtb_spec x a'); [lia|reflexivity].
Qed.

Lemma separationCheckDevMemory_monotone (d d' : DevInfo) (sizes : SeparationSizes) :
  memSize d <= memSize d' -> maxMemAlloc d <= maxMemAlloc d' ->
  maxConstArgs d <= maxConstArgs d' -> maxConstBufSize d <= maxConstBufSize d' ->
  separationCheckDevMemory d sizes = (true, []) ->
  separationCheckDevMemory d' sizes = (true, []).
Proof.
  intros Hmem Halloc Hargs Hbuf. unfold separationCheckDevMemory. cbv zeta.
  intros H.
  repeat match type of H with
         | (if ?c then _ else _) = _ => destruct c eqn:?E; [discriminate H|]
         end.
  repeat match goal with
         | E : (_ || _) = false |- _ =>
             apply orb_false_elim in E; destruct E as [? ?]
         end.
  repeat match goal with
         | |- (if ?c then _ else _) = _ =>
             replace c with false;
             [|symmetry; repeat (apply orb_false_intro);
               eapply gtb_false_le; eassumption]
         end.
  reflexivity.
Qed.

Lemma checkCuts_monotone (d d' : DevInfo) (ap : AstronomyParameters)
      (ias : list IntegralArea) (todo : nat) (i : Z) (log : list Diagnostic) :
  memSize d <= memSize d' -> maxMemAlloc d <= maxMemAlloc d' ->
  maxConstArgs d <= maxConstArgs d' -> maxConstBufSize d <= maxConstBufSize d' ->
  checkCuts calculateSizes todo i d ap ias = Value (true, log) ->
  checkCuts calculateSizes todo i d' ap ias = Value (true, []).
Proof.
  intros Hmem Halloc Hargs Hbuf. revert i log.
  induction todo as [|todo IH]; intros i log H; [reflexivity|].
  cbn [checkCuts] in *.
  destruct (nth_error ias (Z.to_nat i)) as [ia|]; [|discriminate].
  destruct (separationCheckDevMemory_cases d (calculateSizes ap ia))
    as [Hpass|[why Hfail]].
  - rewrite Hpass in H.
    rewrite (separationCheckDevMemory_monotone d d' _ Hmem Halloc Hargs Hbuf Hpass).
    cbn [negb] in *.
    destruct (i =? 2 ^ 31 - 1); [discriminate|].
    destruct (checkCuts calculateSizes todo (i + 1) d ap ias)
      as [[ok' log']| |] eqn:Hrest; cbn [bind fst snd app] in H; try discriminate.
    inversion H; subst ok' log'.
    rewrite (IH _ _ Hrest). reflexivity.
  - rewrite Hfail in H. discriminate.
Qed.

(** X14.  The capability check is monotone in the device: when it
    passes on a device, it passes on every device that has at least as
    much global memory, maximum allocation, constant arguments and
    constant buffer space, and supports doubles if the first one does. *)
Theorem separationCheckDevCapabilities_monotone (d d' : DevInfo)
        (ap : AstronomyParameters) (ias : list IntegralArea) (log : list Diagnostic) :
  memSize d <= memSize d' -> maxMemAlloc d <= maxMemAlloc d' ->
  maxConstArgs d <= maxConstArgs d' -> maxConstBufSize d <= maxConstBufSize d' ->
  (mwSupportsDoubles d = true -> mwSupportsDoubles d' = true) ->
  checkCapabilities d ap ias = Value (true, log) ->
  checkCapabilities d' ap ias = Value (true, []).
Proof.
  intros Hmem Halloc Hargs Hbuf Hdbl. unfold separationCheckDevCapabilities. intros H.
  assert (Hprec : DOUBLEPREC && negb (mwSupportsDoubles d') = false).
  { destruct DOUBLEPREC; [|reflexivity]. cbn [andb] in *.
    destruct (mwSupportsDoubles d); [|discriminate].
    rewrite Hdbl; reflexivity. }
  rewrite Hprec.
  destruct (DOUBLEPREC && negb (mwSupportsDoubles d)); [discriminate|].
  eapply checkCuts_monotone; eassumption.
Qed.

(* ----------------------------------------------------------------- *)
(** *** An array of cuts that is too short *)

Lemma checkCuts_short (di : DevInfo) (ap : AstronomyParameters)
      (ias : list IntegralArea) (todo i : nat) :
  (i <= length ias < i + todo)%nat -> Z.of_nat (length ias) < 2 ^ 31 ->
  (forall ia, In ia ias ->
     fst (separationCheckDevMemory di (calculateSizes ap ia)) = true) ->
  checkCuts calculateSizes todo (Z.of_nat i) di ap ias = Undef OutOfBounds.
Proof.
  intros Hlen Hmax Hpass. revert i Hlen.
  induction todo as [|todo IH]; intros i Hlen; [lia|].
  cbn [checkCuts]. rewrite Nat2Z.id.
  destruct (nth_error ias i) as [ia|] eqn:Hnth; [|reflexivity].
  assert (Hi : (i < length ias)%nat).
  { apply nth_error_Some. congruence. }
  pose proof (Hpass ia (nth_error_In _ _ Hnth)) as Hok.
  destruct (separationCheckDevMemory di (calculateSizes ap ia)) as [ok log].
  cbn [fst] in Hok. subst ok. cbn [negb].
  destruct (Z.eqb_spec (Z.of_nat i) (2 ^ 31 - 1)); [lia|].
  replace (Z.of_nat i + 1) with (Z.of_nat (S i)) by lia.
  rewrite IH by lia. reflexivity.
Qed.

(** X15.  The loop over the cuts trusts [number_integrals]: when the
    array holds fewer cuts than that (and fewer than [2^31]), the
    precision is supported and every cut that is in the array passes,
    the check reads past the end of the array. *)
Theorem separationCheckDevCapabilities_short_array (dev : DevInfo)
        (ap : AstronomyParameters) (ias : list IntegralArea) :
  (length ias < Z.to_nat (number_integrals ap))%nat ->
  Z.of_nat (length ias) < 2 ^ 31 ->
  DOUBLEPREC && negb (mwSupportsDoubles dev) = false ->
  (forall ia, In ia ias ->
     fst (separationCheckDevMemory dev (calculateSizes ap ia)) = true) ->
  checkCapabilities dev ap ias = Undef OutOfBounds.
Proof.
  intros Hlen Hmax Hprec Hpass. unfold separationCheckDevCapabilities.
  rewrite Hprec. change 0 with (Z.of_nat 0).
  apply checkCuts_short; [lia|exact Hmax|exact Hpass].
Qed.


(* ----------------------------------------------------------------- *)
(** *** The kernel and the calls of the setup *)

(** Every return of [setupSeparationCL], case by case. *)
Ltac setup_cases H :=
  unfold setupSeparationCL, setProgramFromILKernel, mwSetProgramFromSrc,
    mwCreateKernel in H;
  cbv zeta in H;
  destruct (ext_mwSetupCL _) as [?e ?ci];
  cbn [fst snd st_ci st_kernel st_trace call with_prog] in *;
  repeat match type of H with
         | context [separationCheckDevCapabilities ?a ?b ?c ?d ?e ?f] =>
             destruct (separationCheckDevCapabilities a b c d e f) as [[?ok ?log]| |];
             cbn [bind fst] in H; try discriminate H
         | context [?a =? CL_SUCCESS] =>
             destruct (Z.eqb_spec a CL_SUCCESS); cbn [negb] in H
         | context [if ?b then _ else _] =>
             destruct b eqn:?E; cbn [negb] in H
         end;
  inversion H; subst; clear H.

(** X16.  The kernel object and the setup, provided [MW_CL_ERROR] is not
    [CL_SUCCESS].  The setup returns [CL_SUCCESS] only after it has
    called [mwCreateKernel], and the kernel object is then a kernel of
    the program that [*ci] holds, built from the source or loaded from
    the patched binary.  [mwCreateKernel] is called only when the first
    build from the source succeeded and the binary variant was not
    selected, or its four steps succeeded, or the second build from the
    source succeeded: never on a released or failed program; the setup
    then returns the status of that call.  In a run that does not reach
    [mwCreateKernel] the setup returns an error and no call has touched
    the kernel object. *)
Theorem setupSeparationCL_kernel ext st ap ias clr err st' :
  setup ext st ap ias clr = Value (err, st') ->
  exists calls,
    st_trace st' = st_trace st ++ calls /\
    (err = CL_SUCCESS ->
     In CallCreateKernel calls /\
     st_kernel st' = Some (prog (st_ci st')) /\
     (prog (st_ci st') = SourceProgram \/ prog (st_ci st') = ILProgram)) /\
    (In CallCreateKernel calls ->
     err = ext_mwCreateKernel ext /\
     ext_mwSetProgramFromSrc ext = CL_SUCCESS /\
     (ilAcceptable (snd (ext_mwSetupCL ext)) ap clr = false \/
      (ext_mwGetProgramBinary ext = true /\ ext_clReleaseProgram ext = CL_SUCCESS /\
       ext_getModifiedAMDBinary ext = true /\ ext_mwSetProgramFromBin ext = CL_SUCCESS) \/
      ext_mwSetProgramFromSrc_again ext = CL_SUCCESS)) /\
    (~ In CallCreateKernel calls ->
     err <> CL_SUCCESS /\ st_kernel st' = st_kernel st).
Proof.
  intros H. setup_cases H;
    repeat match goal with
           | E : negb _ = false |- _ => apply negb_false_iff in E
           | E : negb _ = true |- _ => apply negb_true_iff in E
           end;
    (eexists; split;
     [cbn [st_trace call with_prog]; rewrite <- ?app_assoc; cbn [app]; reflexivity|]);
    cbn [In st_kernel st_ci prog set_prog with_prog call];
    intuition (try discriminate; try congruence; auto).
Qed.

(** X17.  The calls of the setup: [mwSetupCL] comes first; the source
    is built at most twice, and at most once when the binary variant is
    not selected, in which case no step of the binary path is made
    (the program is neither read back nor released nor patched); the
    kernel is created at most once, by the last call. *)
Theorem setupSeparationCL_calls ext st ap ias clr err st' :
  setup ext st ap ias clr = Value (err, st') ->
  exists calls,
    st_trace st' = st_trace st ++ CallSetupCL :: calls /\
    (length (filter isSourceBuild calls) <= 2)%nat /\
    (length (filter isCreateKernel calls) <= 1)%nat /\
    filter isCreateKernel (removelast calls) = [] /\
    (ilAcceptable (snd (ext_mwSetupCL ext)) ap clr = false ->
     filter isBinaryStep calls = [] /\
     (length (filter isSourceBuild calls) <= 1)%nat).
Proof.
  clear MW_CL_ERROR_is_error. intros H. setup_cases H;
    (eexists; split;
     [cbn [st_trace call with_prog]; rewrite <- ?app_assoc; cbn [app]; reflexivity|]);
    cbn; (split; [lia|]); (split; [lia|]); (split; [reflexivity|]);
    intros Hil; first [discriminate Hil | split; [reflexivity|lia]].
Qed.

(** X18.  When the binary variant is selected and every step of the
    binary path succeeds, the program of [*ci] is the patched binary,
    the source has been built once and is not built again, and the
    setup returns what the creation of the kernel returns, the kernel
    being one of the binary program when it succeeds. *)
Theorem setupSeparationCL_binary_variant ext st ap ias clr log :
  fst (ext_mwSetupCL ext) = CL_SUCCESS ->
  checkCapabilities (di (snd (ext_mwSetupCL ext))) ap ias = Value (true, log) ->
  ext_getCompilerFlags ext = true ->
  ext_mwSetProgramFromSrc ext = CL_SUCCESS ->
  ilAcceptable (snd (ext_mwSetupCL ext)) ap clr = true ->
  ext_mwGetProgramBinary ext = true ->
  ext_clReleaseProgram ext = CL_SUCCESS ->
  ext_getModifiedAMDBinary ext = true ->
  ext_mwSetProgramFromBin ext = CL_SUCCESS ->
  exists st',
    setup ext st ap ias clr = Value (ext_mwCreateKernel ext, st') /\
    prog (st_ci st') = ILProgram /\
    st_kernel st' = (if ext_mwCreateKernel ext =? CL_SUCCESS
                     then Some ILProgram else st_kernel st) /\
    st_trace st'
    = st_trace st ++
      [CallSetupCL; CallGetCompilerFlags true; CallSetProgramFromSrc;
       CallGetProgramBinary; CallReleaseProgram;
       CallGetModifiedAMDBinary (number_streams ap)
                                (calTarget (di (snd (ext_mwSetupCL ext))));
       CallSetProgramFromBin; CallCreateKernel].
Proof.
  intros Hsetup Hcap Hflags Hsrc Hil Hbin Hrel Hmod Hfrom.
  unfold setupSeparationCL, setProgramFromILKernel, mwSetProgramFromSrc,
    mwCreateKernel. cbv zeta.
  destruct (ext_mwSetupCL ext) as [e ci]. cbn [fst snd] in *.
  rewrite Hsetup. cbn [negb Z.eqb CL_SUCCESS st_ci].
  rewrite Hcap. cbn [bind fst negb]. rewrite Hil, Hflags. cbn [negb].
  rewrite Hsrc. cbn [negb Z.eqb CL_SUCCESS].
  rewrite Hbin, Hrel, Hmod, Hfrom. cbn [negb Z.eqb CL_SUCCESS].
  eexists. split; [reflexivity|].
  destruct (ext_mwCreateKernel ext =? CL_SUCCESS); cbn;
    rewrite <- ?app_assoc; cbn [app]; repeat split.
Qed.


(* ----------------------------------------------------------------- *)
(** *** Release after the setup *)

(** X19.  After a setup that started without a kernel object,
    [releaseSeparationKernel] releases the kernel of the program of
    [*ci] when the setup succeeded, and releases nothing and returns
    [CL_SUCCESS] when it failed, provided [MW_CL_ERROR] is not
    [CL_SUCCESS]. *)
Theorem releaseSeparationKernel_after_setup (clReleaseKernel : Program -> Z)
        ext st ap ias clr err st' :
  setup ext st ap ias clr = Value (err, st') ->
  st_kernel st = None ->
  releaseSeparationKernel clReleaseKernel (st_kernel st')
  = if err =? CL_SUCCESS then clReleaseKernel (prog (st_ci st')) else CL_SUCCESS.
Proof.
  intros H Hnone. setup_cases H;
    cbn [st_kernel st_ci prog set_prog with_prog call releaseSeparationKernel];
    rewrite ?Hnone;
    repeat match goal with
           | e : ?a = CL_SUCCESS |- context [?a =? CL_SUCCESS] => rewrite e
           | n : ?a <> CL_SUCCESS |- context [?a =? CL_SUCCESS] =>
               destruct (Z.eqb_spec a CL_SUCCESS); [contradiction|]
           end;
    first [reflexivity | contradiction | congruence].
Qed.


(* ----------------------------------------------------------------- *)
(** *** The binary path and the errors of the setup *)

(** X25.  [setProgramFromILKernel], provided [MW_CL_ERROR] is not
    [CL_SUCCESS]: it returns [CL_SUCCESS] exactly when its four steps
    succeed, and the program of [*ci] is then the patched binary.  The
    program is released before the binary is patched: when the binary
    is not read back or the release fails, [*ci] keeps the program it
    had; when the patch fails, the patched binary is not loaded and
    [*ci] is left with the released program.  The kernel object is
    never touched. *)
Theorem setProgramFromILKernel_outcome ext ap clr st :
  let run := setProgramFromILKernel MW_CL_ERROR ext ap clr st in
  (fst run = CL_SUCCESS <->
   ext_mwGetProgramBinary ext = true /\ ext_clReleaseProgram ext = CL_SUCCESS /\
   ext_getModifiedAMDBinary ext = true /\ ext_mwSetProgramFromBin ext = CL_SUCCESS) /\
  (fst run = CL_SUCCESS -> prog (st_ci (snd run)) = ILProgram) /\
  (ext_mwGetProgramBinary ext = false \/ ext_clReleaseProgram ext <> CL_SUCCESS ->
   prog (st_ci (snd run)) = prog (st_ci st)) /\
  (ext_mwGetProgramBinary ext = true -> ext_clReleaseProgram ext = CL_SUCCESS ->
   ext_getModifiedAMDBinary ext = false ->
   prog (st_ci (snd run)) = ReleasedProgram /\
   filter isBinaryStep (skipn (length (st_trace st)) (st_trace (snd run)))
   = [CallGetProgramBinary; CallReleaseProgram;
      CallGetModifiedAMDBinary (number_streams ap) (calTarget (di (st_ci st)))]) /\
  st_kernel (snd run) = st_kernel st.
Proof.
  cbv zeta. unfold setProgramFromILKernel. cbv zeta.
  destruct (ext_mwGetProgramBinary ext); cbn [negb andb fst snd].
  2:{ repeat split; try (intros; congruence); try reflexivity;
        try (intros (H & _); discriminate H). }
  destruct (Z.eqb_spec (ext_clReleaseProgram ext) CL_SUCCESS) as [Hrel|Hrel];
    cbn [negb fst snd].
  2:{ repeat split; try (intros; congruence); try reflexivity;
        try (intros (_ & H & _); contradiction). }
  destruct (ext_getModifiedAMDBinary ext); cbn [negb fst snd].
  2:{ split; [split; [intros; congruence|intros (_ & _ & H & _); discriminate H]|].
      split; [intros; congruence|]. split; [intros [H|H]; congruence|].
      split; [|reflexivity]. intros _ _ _. split; [reflexivity|].
      cbn [st_trace call with_prog st_ci set_prog di].
      rewrite <- !app_assoc. cbn [app].
      rewrite skipn_app, skipn_all, Nat.sub_diag. reflexivity. }
  destruct (Z.eqb_spec (ext_mwSetProgramFromBin ext) CL_SUCCESS) as [Hbin|Hbin];
    cbn [negb fst snd].
  2:{ repeat split; try (intros; congruence); try reflexivity;
        try (intros (_ & _ & _ & H); contradiction).
      intros [H|H]; congruence. }
  repeat split; try (intros; congruence); try reflexivity.
  intros [H|H]; congruence.
Qed.

(** X26.  What the setup returns is the status of [mwSetupCL],
    [MW_CL_ERROR], the status of one of the two builds from the source,
    or the status of the creation of the kernel: an error of the binary
    path is never returned, it is replaced by the outcome of the build
    that follows it. *)
Theorem setupSeparationCL_error_source ext st ap ias clr err st' :
  setupSeparationCL DOUBLEPREC mwSupportsDoubles calculateSizes mwIsAMDGPUDevice
                    mwPlatformSupportsAMDOfflineDevices MW_CL_ERROR ext st ap ias clr
  = Value (err, st') ->
  err = fst (ext_mwSetupCL ext) \/ err = MW_CL_ERROR \/
  err = ext_mwSetProgramFromSrc ext \/ err = ext_mwSetProgramFromSrc_again ext \/
  err = ext_mwCreateKernel ext.
Proof.
  clear MW_CL_ERROR_is_error. intros H.
  destruct (ext_mwSetupCL ext) as [e0 ci0] eqn:Hsetup.
  unfold setupSeparationCL in H. rewrite Hsetup in H. cbv zeta in H.
  cbn [fst snd]. destruct (Z.eqb_spec e0 CL_SUCCESS) as [He0|He0]; cbn [negb] in H.
  2:{ inversion H. left. reflexivity. }
  destruct (separationCheckDevCapabilities _ _ _ _ _ _) as [[ok log]| |];
    cbn [bind fst] in H; try discriminate.
  destruct ok; cbn [negb] in H; [|inversion H; right; left; reflexivity].
  destruct (ext_getCompilerFlags ext); cbn [negb] in H;
    [|inversion H; right; left; reflexivity].
  unfold mwSetProgramFromSrc in H. cbv zeta in H.
  destruct (Z.eqb_spec (ext_mwSetProgramFromSrc ext) CL_SUCCESS) as [Hsrc|Hsrc];
    cbn [negb] in H.
  2:{ inversion H. right. right. left. reflexivity. }
  destruct (usingILKernelIsAcceptable _ _ _ _ _ _).
  - destruct (setProgramFromILKernel MW_CL_ERROR ext ap clr _) as [e1 st1].
    destruct (Z.eqb_spec e1 CL_SUCCESS) as [He1|He1]; cbn [negb] in H.
    + rewrite He1 in H. cbn [Z.eqb CL_SUCCESS] in H. unfold mwCreateKernel in H.
      cbv zeta in H. inversion H. right. right. right. right. reflexivity.
    + destruct (Z.eqb_spec (ext_mwSetProgramFromSrc_again ext) CL_SUCCESS) as [Ha|Ha].
      * unfold mwCreateKernel in H. cbv zeta in H. inversion H.
        right. right. right. right. reflexivity.
      * inversion H. right. right. right. left. reflexivity.
  - rewrite Hsrc in H. cbn [Z.eqb CL_SUCCESS] in H. unfold mwCreateKernel in H.
    cbv zeta in H. inversion H. right. right. right. right. reflexivity.
Qed.


End SetupProperties.

(* ================================================================= *)
(** ** The kernel arguments and the CUDA estimate *)

Lemma fold_lor_zero (l : list Z) (a : Z) :
  fold_left Z.lor l a = 0 <-> a = 0 /\ forall x, In x l -> x = 0.
Proof.
  revert a. induction l as [|x l IH]; intros a; cbn [fold_left].
  - split; [intros H; split; [exact H|intros x []]|intros [H _]; exact H].
  - rewrite IH, Z.lor_eq_0_iff. split.
    + intros [[Ha Hx] Hl]. split; [exact Ha|]. intros y [<-|Hy]; auto.
    + intros [Ha Hl]. split; [split; [exact Ha|apply Hl; left; reflexivity]|].
      intros y Hy. apply Hl. right. exact Hy.
Qed.

Lemma fold_lor_neg (l : list Z) (a : Z) :
  fold_left Z.lor l a < 0 <-> a < 0 \/ exists x, In x l /\ x < 0.
Proof.
  revert a. induction l as [|x l IH]; intros a; cbn [fold_left].
  - split; [intros H; left; exact H|intros [H|(x & [] & _)]; exact H].
  - rewrite IH, Z.lor_neg. split.
    + intros [[Ha|Hx]|(y & Hy & Hneg)].
      * left. exact Ha.
      * right. exists x. split; [left; reflexivity|exact Hx].
      * right. exists y. split; [right; exact Hy|exact Hneg].
    + intros [Ha|(y & [<-|Hy] & Hneg)].
      * left. left. exact Ha.
      * left. right. exact Hneg.
      * right. exists y. split; assumption.
Qed.

Section KernelProperties.

Variable clSetKernelArg : cl_kernel -> Z -> KernelArg -> Z.
Variable DOUBLEPREC : bool.
Variable mwDeviceEstimateGFLOPs : DevInfo -> bool -> cl_double.
Variable mwGetWorkGroupInfo : cl_kernel -> CLInfo -> Z * WGInfo.
Variable mwComputeCapabilityIs : DevInfo -> Z -> Z -> bool.

Local Abbreviation setArgs := (separationSetKernelArgs clSetKernelArg).

(** The status of the call for an argument. *)
Local Abbreviation status kern :=
  (fun call : Z * KernelArg => clSetKernelArg kern (fst call) (snd call)).

(** What [separationSetKernelArgs] returns is the bitwise or of the
    statuses of its thirteen calls. *)
Lemma separationSetKernelArgs_or kern cm runSizes :
  setArgs kern cm runSizes
  = fold_left Z.lor (map (status kern) (kernelArguments cm runSizes)) CL_SUCCESS.
Proof.
  unfold separationSetKernelArgs. cbv zeta.
  cbn [kernelArguments map fold_left fst snd].
  match goal with
  | |- (if negb (?e =? CL_SUCCESS) then _ else _) = _ =>
      destruct (Z.eqb_spec e CL_SUCCESS) as [Heq|Hne]; cbn [negb];
      [symmetry; exact Heq|reflexivity]
  end.
Qed.

(** X20.  [separationSetKernelArgs] makes its thirteen calls whatever
    their statuses are and returns their bitwise or: it returns
    [CL_SUCCESS] exactly when every call does; what it returns is
    negative exactly when the status of some call is; and when a single
    call fails, it returns the status of that call. *)
Theorem separationSetKernelArgs_status kern cm runSizes :
  (setArgs kern cm runSizes = CL_SUCCESS <->
   forall i a, In (i, a) (kernelArguments cm runSizes) ->
               clSetKernelArg kern i a = CL_SUCCESS) /\
  (setArgs kern cm runSizes < 0 <->
   exists i a, In (i, a) (kernelArguments cm runSizes) /\ clSetKernelArg kern i a < 0) /\
  (forall k a, In (k, a) (kernelArguments cm runSizes) ->
     (forall j b, In (j, b) (kernelArguments cm runSizes) -> j <> k ->
                  clSetKernelArg kern j b = CL_SUCCESS) ->
     setArgs kern cm runSizes = clSetKernelArg kern k a).
Proof.
  split; [|split].
  - rewrite separationSetKernelArgs_or. unfold CL_SUCCESS. rewrite fold_lor_zero. split.
    + intros [_ H] i a Hin. apply H.
      apply (in_map (status kern)) in Hin. exact Hin.
    + intros H. split; [reflexivity|]. intros x Hx.
      apply in_map_iff in Hx. destruct Hx as ([i a] & <- & Hin). apply H. exact Hin.
  - rewrite separationSetKernelArgs_or. unfold CL_SUCCESS. rewrite fold_lor_neg. split.
    + intros [H|(x & Hx & Hneg)]; [lia|].
      apply in_map_iff in Hx. destruct Hx as ([i a] & <- & Hin).
      exists i, a. split; assumption.
    + intros (i & a & Hin & Hneg). right. exists (clSetKernelArg kern i a).
      split; [|exact Hneg]. apply (in_map (status kern)) in Hin. exact Hin.
  - intros k a Hin Hothers. rewrite separationSetKernelArgs_or.
    unfold CL_SUCCESS in *.
    cbn [kernelArguments map fold_left fst snd In] in *.
    repeat match type of Hin with
           | _ \/ _ => destruct Hin as [Hin|Hin]
           end;
      try contradiction; inversion Hin; subst k a;
      repeat match goal with
             | |- context [clSetKernelArg kern ?j ?b] =>
                 rewrite (Hothers j b)
                   by first [lia | repeat (first [left; reflexivity | right])]
             end;
      rewrite ?Z.lor_0_l, ?Z.lor_0_r; reflexivity.
Qed.

Local Abbreviation plan :=
  (findRunSizes DOUBLEPREC mwDeviceEstimateGFLOPs mwGetWorkGroupInfo).

(** X21.  After a plan, the scalars that [separationSetKernelArgs]
    hands to the kernel are the padding of the plan and the [r], [mu]
    and [nu] steps of the integral, as arguments 9 to 12 after the nine
    buffers; no other field of the plan is an argument. *)
Theorem separationSetKernelArgs_after_plan kern sizes ci di ap ia clr s kern' cm :
  plan kern sizes ci di ap ia clr = Value (Planned s) ->
  setArgs kern' cm s
  = fold_left Z.lor
      (map (status kern')
           [ (0, BufferArg (SeparationCLMem.outBg cm));
             (1, BufferArg (SeparationCLMem.outStreams cm));
             (2, BufferArg (SeparationCLMem.rc cm));
             (3, BufferArg (SeparationCLMem.rPts cm));
             (4, BufferArg (SeparationCLMem.lTrig cm));
             (5, BufferArg (SeparationCLMem.bSin cm));
             (6, BufferArg (SeparationCLMem.ap cm));
             (7, BufferArg (SeparationCLMem.sc cm));
             (8, BufferArg (SeparationCLMem.sg_dx cm));
             (9, UIntArg (to_uint (effectiveArea s - area s)));
             (10, UIntArg (r_steps ia));
             (11, UIntArg (mu_steps ia));
             (12, UIntArg (nu_steps ia)) ])
      CL_SUCCESS.
Proof.
  intros H. rewrite separationSetKernelArgs_or. unfold kernelArguments.
  pose proof (findRunSizes_stores_area _ _ _ _ _ _ _ _ _ _ _ H) as (Hr & Hm & Hn & _).
  pose proof (findRunSizes_planned_extra _ _ _ _ _ _ _ _ _ _ _ H) as Hextra.
  cbn [sizesOf] in *. rewrite Hr, Hm, Hn, Hextra. reflexivity.
Qed.

(** X22.  The CUDA estimate of the time of an iteration divides by the
    throughput: for a throughput of zero it is never a number (it is
    infinite or NaN), whatever the work is; a NaN operand gives NaN;
    and for no work at all on a finite throughput it is a zero. *)
Theorem cudaEstimateIterTime_edges di flopsPerIter flops :
  let t := cudaEstimateIterTime mwComputeCapabilityIs di flopsPerIter flops in
  ((exists s, flops = S754_zero s) -> is_number t = false) /\
  (flopsPerIter = S754_nan \/ flops = S754_nan -> t = S754_nan) /\
  (forall s s' m e, flopsPerIter = S754_zero s -> flops = S754_finite s' m e ->
     t = S754_zero (xorb s s')).
Proof.
  cbv zeta. unfold cudaEstimateIterTime. cbv zeta.
  assert (Hc : exists m e,
             dmul d_1000 (if mwComputeCapabilityIs di 1 3 then d_1_87 else d_1_53)
             = S754_finite false m e).
  { destruct (mwComputeCapabilityIs di 1 3); eexists; eexists; vm_compute; reflexivity. }
  destruct Hc as (mc & ec & ->).
  split; [|split].
  - intros [s ->]. destruct flopsPerIter as [s0|s0| |s0 m0 e0]; try reflexivity.
    destruct (dmul (S754_finite false mc ec) (S754_finite s0 m0 e0)); reflexivity.
  - intros [-> | ->]; [reflexivity|].
    destruct (dmul (S754_finite false mc ec) flopsPerIter); reflexivity.
  - intros s s' m e -> ->. reflexivity.
Qed.

End KernelProperties.

(* ================================================================= *)
(** * The planner and the setup on concrete inputs *)

(** Closed statements are settled by evaluation. *)
Ltac evaluated := vm_compute; repeat split; first [reflexivity | discriminate].

(** C1.  The clamp loop divides the padded area by a doubled [nChunk]
    without asking that the division be exact: with warp size 32, one
    compute unit, work group size 32, maximum work dimension 40 and an
    area of 2080 in one forced chunk, the plan is 64 chunks of 32 work
    items, which is 2048 and not the padded area 2080, while the chunk
    size is a multiple of the local size. *)
Theorem findRunSizes_clamp_inexact :
  let d := gpu 1 32 (40, 1, 1) in
  exists s,
    findRunSizes true gflops1000 (groupSize 32) None sizes0 (onDevice d) d
                 fourStreams (mkIntegralArea 2080 1 1) (request 60 0 true)
    = Value (Planned s) /\
    chunkSize s = 32 /\ nChunk s = 64 /\ effectiveArea s = 2080 /\
    chunkSize s mod local s = 0 /\
    chunkSize s * nChunk s <> effectiveArea s.
Proof.
  cbv zeta. eexists. split; [vm_compute; reflexivity|].
  cbn. repeat split; lia.
Qed.

(** The failure of C2: a failed plan has overwritten part of [*sizes]. *)
Lemma findRunSizes_failure_not_atomic :
  let d := gpu 1 32 (1024, 1, 1) in
  exists s',
    findRunSizes true gflops1000 (groupSize 200) None sizes0 (onDevice d) d
                 fourStreams (mkIntegralArea 40 7 1) (request 60 0 false)
    = Value (PlanFailed GroupSizeNotWarpMultiple s') /\
    area s' = 280 /\ s' <> sizes0.
Proof.
  cbv zeta. eexists. split; [vm_compute; reflexivity|].
  split; [reflexivity|]. discriminate.
Qed.

Lemma findRunSizes_failure_state_witness :
  let d := gpu 1 32 (1024, 1, 1) in
  let ia := mkIntegralArea 40 7 1 in
  exists s',
    findRunSizes true gflops1000 (groupSize 200) None sizes0 (onDevice d) d
                 fourStreams ia (request 60 0 false)
    = Value (PlanFailed GroupSizeNotWarpMultiple s') /\
    r s' = 40 /\ mu s' = 7 /\ nu s' = 1 /\ area s' = 280 /\
    s' = withArea ia sizes0.
Proof.
  cbv zeta. eexists. split; [vm_compute; reflexivity|].
  apply (findRunSizes_failure_state true gflops1000 (groupSize 200) None sizes0
           (onDevice (gpu 1 32 (1024, 1, 1))) (gpu 1 32 (1024, 1, 1))
           fourStreams (mkIntegralArea 40 7 1) (request 60 0 false)
           GroupSizeNotWarpMultiple).
  evaluated.
Defined.

(** The failure of C3: at the scenario of the specification (500 by
    10000 steps, four streams, 60 Hz) on a device estimated at 1000
    GFLOPS the quotient is about 11.52: the code yields 11 chunks, the
    rounding up of the specification 12; and without a throughput
    estimate the quotient is infinite and its conversion undefined. *)
Lemma findNChunk_not_ceiling :
  let d := gpu 20 32 (256, 256, 256) in
  let ia := mkIntegralArea 500 10000 100 in
  findNChunk true gflops1000 fourStreams ia d (request 60 0 false) = Value 11 /\
  findNChunk_spec true gflops1000 fourStreams ia d (request 60 0 false) = Some 12 /\
  findNChunk true gflops0 fourStreams ia d (request 60 0 false)
  = Undef DoubleToIntOutOfRange.
Proof. cbv zeta. repeat split; vm_compute; reflexivity. Qed.

Lemma findNChunk_truncates_witness :
  let d := gpu 20 32 (256, 256, 256) in
  let ia := mkIntegralArea 500 10000 100 in
  exists n,
    findNChunk true gflops1000 fourStreams ia d (request 60 0 false) = Value n /\
    1 <= n /\ n * 2 ^ 49 <= 6486783426439028 < (n + 1) * 2 ^ 49.
Proof.
  cbv zeta.
  destruct (findNChunk_truncates true gflops1000 fourStreams
              (mkIntegralArea 500 10000 100) (gpu 20 32 (256, 256, 256))
              (request 60 0 false)) as (_ & _ & Hfin & _).
  destruct (Hfin 6486783426439028%positive (-49)) as (n & Hn & _ & Hneg).
  - evaluated.
  - evaluated.
  - exists n. split; [exact Hn|].
    destruct Hneg as [[Hlt _]|Hfloor]; [lia| |exact Hfloor].
    exfalso. vm_compute in Hlt. discriminate Hlt.
Defined.

(** The failure of C4: a forced single chunk of 128 work items on a
    device whose maximum work dimension is 64 is split in two. *)
Lemma findRunSizes_forced_two_chunks :
  let d := gpu 1 32 (64, 1, 1) in
  exists s,
    findRunSizes true gflops1000 (groupSize 32) None sizes0 (onDevice d) d
                 fourStreams (mkIntegralArea 128 1 1) (request 60 0 true)
    = Value (Planned s) /\
    nonResponsive (request 60 0 true) = true /\ nChunk s = 2.
Proof. cbv zeta. eexists. split; [vm_compute; reflexivity|]. split; reflexivity. Qed.

Lemma findRunSizes_forced_one_chunk_witness :
  let d := gpu 1 32 (1024, 1, 1) in
  exists s,
    findRunSizes true gflops1000 (groupSize 32) None sizes0 (onDevice d) d
                 fourStreams (mkIntegralArea 40 1 1) (request 60 0 true)
    = Value (Planned s) /\ nChunk s = 1.
Proof.
  cbv zeta. eexists. split; [vm_compute; reflexivity|].
  apply (findRunSizes_forced_one_chunk true gflops1000 (groupSize 32) None sizes0
           (onDevice (gpu 1 32 (1024, 1, 1))) (gpu 1 32 (1024, 1, 1))
           fourStreams (mkIntegralArea 40 1 1) (request 60 0 true)).
  - evaluated.
  - evaluated.
  - reflexivity.
  - evaluated.
Defined.

(** The failure of C5: with magic factor 4 and block size 32 an area of
    40 fits one chunk, which is then made of whole blocks, 64 work
    items, and not of 4 blocks; the clamp does not run. *)
Lemma findRunSizes_magic_discarded :
  let d := gpu 1 32 (1024, 1, 1) in
  exists s,
    findRunSizes true gflops1000 (groupSize 32) None sizes0 (onDevice d) d
                 fourStreams (mkIntegralArea 40 1 1) (request 60 4 false)
    = Value (Planned s) /\
    blockSize d (mkWGInfo 32) = 32 /\ 4 * 32 <= maxWorkDim d /\
    nChunk s = 1 /\ chunkSize s = 64 /\ chunkSize s <> 4 * blockSize d (mkWGInfo 32).
Proof.
  cbv zeta. eexists. split; [vm_compute; reflexivity|].
  evaluated.
Qed.

Lemma findRunSizes_magic_override_witness :
  let d := gpu 1 32 (1024, 1, 1) in
  exists s,
    findRunSizes true gflops1000 (groupSize 32) None sizes0 (onDevice d) d
                 fourStreams (mkIntegralArea 1000 1 1) (request 60 4 false)
    = Value (Planned s) /\
    chunkSize s = 4 * 32 /\ nChunk s <> 1 /\ chunkSize s * nChunk s = effectiveArea s.
Proof.
  cbv zeta. eexists. split; [vm_compute; reflexivity|].
  apply (findRunSizes_magic_override true gflops1000 (groupSize 32) None sizes0
           (onDevice (gpu 1 32 (1024, 1, 1))) (gpu 1 32 (1024, 1, 1))
           fourStreams (mkIntegralArea 1000 1 1) (request 60 4 false)).
  - evaluated.
  - evaluated.
  - evaluated.
  - evaluated.
  - reflexivity.
  - evaluated.
  - evaluated.
  - evaluated.
Defined.

(** C6.  On the CPU device, an area of 40 by 0 steps has the product
    0, which does not overflow, and the planner does not return the
    one-chunk plan of the short cut of lines 147-157 for it: the guard
    of line 141, which comes first, divides [CL_ULONG_MAX] by
    [mu_steps]. *)
Lemma findRunSizes_cpu_no_mu_steps :
  devType cpu = CL_DEVICE_TYPE_CPU /\
  r_steps (mkIntegralArea 40 0 1) * mu_steps (mkIntegralArea 40 0 1) <= CL_ULONG_MAX /\
  findRunSizes true gflops1000 (groupSize 32) None sizes0 (onDevice cpu) cpu
               fourStreams (mkIntegralArea 40 0 1) (request 60 4 true)
  = Undef DivisionByZero.
Proof. evaluated. Qed.

Lemma findRunSizes_cpu_witness :
  exists s,
    findRunSizes true gflops1000 (groupSize 32) None sizes0 (onDevice cpu) cpu
                 fourStreams (mkIntegralArea 40 7 1) (request 60 4 true)
    = Value (Planned s) /\
    nChunk s = 1 /\ chunkSize s = 280 /\ area s = 280 /\ effectiveArea s = 280 /\
    local s = 1 /\ global s = 280 /\ extra s = 0.
Proof.
  apply (findRunSizes_cpu true gflops1000 (groupSize 32) None sizes0 (onDevice cpu) cpu
           fourStreams (mkIntegralArea 40 7 1) (request 60 4 true)).
  - reflexivity.
  - evaluated.
  - evaluated.
  - evaluated.
Defined.

Lemma findRunSizes_needs_mu_steps_witness :
  findRunSizes true gflops1000 (groupSize 32) None sizes0 (onDevice cpu) cpu
               fourStreams (mkIntegralArea 40 0 1) (request 60 4 true)
  = Undef DivisionByZero /\
  1 <= mu_steps (mkIntegralArea 40 7 1).
Proof.
  split.
  - apply (findRunSizes_needs_mu_steps true gflops1000 (groupSize 32) None sizes0
             (onDevice cpu) cpu fourStreams (mkIntegralArea 40 0 1) (request 60 4 true)).
    reflexivity.
  - eapply (findRunSizes_needs_mu_steps true gflops1000 (groupSize 32) None sizes0
              (onDevice cpu) cpu fourStreams (mkIntegralArea 40 7 1) (request 60 4 true)).
    + evaluated.
    + evaluated.
Defined.



(** The failure of C8: the binary variant is selected, the binary of
    the program is not returned, the source is built again with
    success, and the creation of the kernel fails: the setup returns
    that error and leaves no kernel. *)
Lemma setupSeparationCL_fallback_can_fail :
  let d := gpu 1 32 (1024, 1, 1) in
  let ext := noBinary d (-5) in
  usingILKernelIsAcceptable true (fun _ => true) (fun _ => true)
                            (onDevice d) fourStreams (request 60 0 false) = true /\
  ext_mwSetProgramFromSrc_again ext = CL_SUCCESS /\
  exists st',
    setupSeparationCL true (fun _ => true) (fun _ _ => smallSizes) (fun _ => true)
                      (fun _ => true) 1 ext state0 fourStreams
                      [mkIntegralArea 1000 1 1] (request 60 0 false)
    = Value (-5, st') /\
    -5 <> CL_SUCCESS /\ st_kernel st' = None.
Proof.
  cbv zeta. split; [reflexivity|]. split; [reflexivity|].
  eexists. split; [vm_compute; reflexivity|]. evaluated.
Qed.

Lemma kernel_variant_selection_witness :
  let d := gpu 1 32 (1024, 1, 1) in
  exists st',
    setupSeparationCL true (fun _ => true) (fun _ _ => smallSizes) (fun _ => true)
                      (fun _ => true) 1 (noBinary d CL_SUCCESS) state0 fourStreams
                      [mkIntegralArea 1000 1 1] (request 60 0 false)
    = Value (CL_SUCCESS, st') /\
    st_kernel st' = Some SourceProgram.
Proof.
  cbv zeta.
  assert (Herr : 1 <> CL_SUCCESS) by evaluated.
  destruct (kernel_variant_selection true (fun _ => true) (fun _ _ => smallSizes)
              (fun _ => true) (fun _ => true) 1 Herr) as (_ & _ & Hfallback).
  destruct (Hfallback (noBinary (gpu 1 32 (1024, 1, 1)) CL_SUCCESS) state0 fourStreams
                      [mkIntegralArea 1000 1 1] (request 60 0 false) [])
    as (st' & Hrun & Hok & _).
  - reflexivity.
  - evaluated.
  - reflexivity.
  - reflexivity.
  - evaluated.
  - left. reflexivity.
  - exists st'. split; [exact Hrun|]. apply Hok; reflexivity.
Defined.

(* ================================================================= *)
(** ** Instances of the further properties *)

(** A workunit of 1000 items in chunks of 4 blocks of 32. *)
Lemma findRunSizes_padding_witness :
  let d := gpu 1 32 (1024, 1, 1) in
  exists s,
    findRunSizes true gflops1000 (groupSize 32) None sizes0 (onDevice d) d
                 fourStreams (mkIntegralArea 1000 1 1) (request 60 4 false)
    = Value (Planned s) /\
    area s <= effectiveArea s /\ extra s = to_uint (effectiveArea s - area s).
Proof.
  cbv zeta. eexists. split; [vm_compute; reflexivity|].
  apply (findRunSizes_padding true gflops1000 (groupSize 32) None sizes0
           (onDevice (gpu 1 32 (1024, 1, 1))) (gpu 1 32 (1024, 1, 1))
           fourStreams (mkIntegralArea 1000 1 1) (request 60 4 false)).
  evaluated.
Defined.

Lemma findRunSizes_within_work_dimension_witness :
  let d := gpu 1 32 (40, 1, 1) in
  exists s,
    findRunSizes true gflops1000 (groupSize 32) None sizes0 (onDevice d) d
                 fourStreams (mkIntegralArea 2080 1 1) (request 60 0 true)
    = Value (Planned s) /\
    global s = chunkSize s /\ chunkSize s <= maxWorkDim d /\
    local s = warpSize d /\ warpSize d <> 0.
Proof.
  cbv zeta. eexists. split; [vm_compute; reflexivity|].
  match goal with
  | |- global ?s = _ /\ _ =>
      destruct (findRunSizes_within_work_dimension true gflops1000 (groupSize 32) None
                  sizes0 (onDevice (gpu 1 32 (40, 1, 1))) (gpu 1 32 (40, 1, 1))
                  fourStreams (mkIntegralArea 2080 1 1) (request 60 0 true) s)
        as (Hglobal & _ & Hgpu)
  end.
  - evaluated.
  - split; [exact Hglobal|]. apply Hgpu. evaluated.
Defined.

Lemma findRunSizes_chunks_positive_witness :
  let d := gpu 20 32 (256, 256, 256) in
  exists s,
    findRunSizes true gflops1000 (groupSize 256) None sizes0 (onDevice d) d
                 fourStreams (mkIntegralArea 500 10000 100) (request 60 0 false)
    = Value (Planned s) /\
    1 <= nChunk s < 2 ^ 64 /\ 1 <= nChunkEstimate s < 2 ^ 32.
Proof.
  cbv zeta. eexists. split; [vm_compute; reflexivity|].
  apply (findRunSizes_chunks_positive true gflops1000 (groupSize 256) None sizes0
           (onDevice (gpu 20 32 (256, 256, 256))) (gpu 20 32 (256, 256, 256))
           fourStreams (mkIntegralArea 500 10000 100) (request 60 0 false)).
  evaluated.
Defined.

(** The clamped plan of 64 chunks of 32 for a padded area of 2080. *)
Lemma findRunSizes_chunks_within_padded_area_witness :
  let d := gpu 1 32 (40, 1, 1) in
  exists s,
    findRunSizes true gflops1000 (groupSize 32) None sizes0 (onDevice d) d
                 fourStreams (mkIntegralArea 2080 1 1) (request 60 0 true)
    = Value (Planned s) /\
    chunkSize s * nChunk s <= effectiveArea s < chunkSize s * nChunk s + nChunk s.
Proof.
  cbv zeta. eexists. split; [vm_compute; reflexivity|].
  apply (findRunSizes_chunks_within_padded_area true gflops1000 (groupSize 32) None
           sizes0 (onDevice (gpu 1 32 (40, 1, 1))) (gpu 1 32 (40, 1, 1))
           fourStreams (mkIntegralArea 2080 1 1) (request 60 0 true)).
  evaluated.
Defined.

Lemma findRunSizes_exact_unclamped_witness :
  let d := gpu 1 32 (1024, 1, 1) in
  exists s,
    findRunSizes true gflops1000 (groupSize 32) None sizes0 (onDevice d) d
                 fourStreams (mkIntegralArea 1000 1 1) (request 60 4 false)
    = Value (Planned s) /\
    chunkSize s * nChunk s = effectiveArea s.
Proof.
  cbv zeta. eexists. split; [vm_compute; reflexivity|].
  apply (findRunSizes_exact_unclamped true gflops1000 (groupSize 32) None sizes0
           (onDevice (gpu 1 32 (1024, 1, 1))) (gpu 1 32 (1024, 1, 1))
           fourStreams (mkIntegralArea 1000 1 1) (request 60 4 false)).
  - evaluated.
  - evaluated.
Defined.

(** Eight chunks of 128 pad 1000 items by 24; seven would not do. *)
Lemma findRunSizes_padding_bound_witness :
  let d := gpu 1 32 (1024, 1, 1) in
  exists s,
    findRunSizes true gflops1000 (groupSize 32) None sizes0 (onDevice d) d
                 fourStreams (mkIntegralArea 1000 1 1) (request 60 4 false)
    = Value (Planned s) /\
    effectiveArea s - area s < chunkSize s /\
    (nChunk s - 1) * chunkSize s < area s <= nChunk s * chunkSize s.
Proof.
  cbv zeta. eexists. split; [vm_compute; reflexivity|].
  match goal with
  | |- effectiveArea ?s - _ < _ /\ _ =>
      destruct (findRunSizes_padding_bound true gflops1000 (groupSize 32) None sizes0
                  (onDevice (gpu 1 32 (1024, 1, 1))) (gpu 1 32 (1024, 1, 1))
                  fourStreams (mkIntegralArea 1000 1 1) (request 60 4 false) s)
        as [_ Hmany]
  end.
  - evaluated.
  - evaluated.
  - evaluated.
  - apply Hmany. evaluated.
Defined.

(** The scenario of 500 by 10000 steps at 60 Hz on a device whose
    maximum work dimension, [2^20], is below the padded area: 11 chunks
    estimated, 12 planned, of 88 blocks of 5120 each. *)
Lemma findRunSizes_default_magic_witness :
  let d := gpu 20 32 (1024, 1024, 1) in
  exists s,
    findRunSizes true gflops1000 (groupSize 256) None sizes0 (onDevice d) d
                 fourStreams (mkIntegralArea 500 10000 100) (request 60 0 false)
    = Value (Planned s) /\
    maxWorkDim d < effectiveArea s /\
    nChunkEstimate s = 11 /\ nChunk s = 12 /\ chunkSize s = 88 * 5120 /\
    nChunkEstimate s <= nChunk s <= 2 * nChunkEstimate s.
Proof.
  cbv zeta. eexists. split; [vm_compute; reflexivity|].
  split; [reflexivity|]. split; [reflexivity|]. split; [reflexivity|].
  split; [reflexivity|].
  match goal with
  | |- nChunkEstimate ?s <= _ <= _ =>
      apply (findRunSizes_default_magic true gflops1000 (groupSize 256) None sizes0
               (onDevice (gpu 20 32 (1024, 1024, 1))) (gpu 20 32 (1024, 1024, 1))
               fourStreams (mkIntegralArea 500 10000 100) (request 60 0 false) s)
  end; evaluated.
Defined.

(** An area with no [r] steps in a forced single chunk. *)
Lemma findRunSizes_empty_area_witness :
  let d := gpu 1 32 (1024, 1, 1) in
  exists s,
    findRunSizes true gflops1000 (groupSize 32) None sizes0 (onDevice d) d
                 fourStreams (mkIntegralArea 0 1 1) (request 60 4 true)
    = Value (Planned s) /\
    nChunk s = 1 /\ chunkSize s = 0 /\ global s = 0.
Proof.
  cbv zeta. eexists. split; [vm_compute; reflexivity|].
  match goal with
  | |- nChunk ?s = 1 /\ _ =>
      destruct (findRunSizes_empty_area true gflops1000 (groupSize 32) None sizes0
                  (onDevice (gpu 1 32 (1024, 1, 1))) (gpu 1 32 (1024, 1, 1))
                  fourStreams (mkIntegralArea 0 1 1) (request 60 4 true) (Planned s))
        as [(why & Heq & _)|(_ & s' & Heq & Hn & Hc & Hg & _)]
  end.
  - evaluated.
  - evaluated.
  - reflexivity.
  - discriminate Heq.
  - inversion Heq. repeat split; assumption.
Defined.

(** A device that reports no compute unit, and a work group size that
    is not a multiple of the warp size. *)
Lemma findRunSizes_needs_block_witness :
  let d := gpu 0 32 (1024, 1, 1) in
  let ia := mkIntegralArea 40 7 1 in
  exists why,
    findRunSizes true gflops1000 (groupSize 200) None sizes0 (onDevice d) d
                 fourStreams ia (request 60 0 false)
    = Value (PlanFailed why (withArea ia sizes0)) /\
    (why = AreaOverflows \/ why = WorkGroupInfoFailed \/ why = GroupSizeNotWarpMultiple).
Proof.
  cbv zeta.
  destruct (findRunSizes_needs_block true gflops1000 (groupSize 200) None sizes0
              (onDevice (gpu 0 32 (1024, 1, 1))) (gpu 0 32 (1024, 1, 1))
              fourStreams (mkIntegralArea 40 7 1) (request 60 0 false)
              (PlanFailed GroupSizeNotWarpMultiple (withArea (mkIntegralArea 40 7 1) sizes0)))
    as (why & Heq & Hwhy).
  - evaluated.
  - evaluated.
  - left. reflexivity.
  - exists why. split; [|exact Hwhy]. rewrite <- Heq. vm_compute. reflexivity.
Defined.

(** Planning into a [RunSizes] that was used before. *)
Lemma findRunSizes_overwrites_sizes_witness :
  let d := gpu 1 32 (1024, 1, 1) in
  exists s,
    findRunSizes true gflops1000 (groupSize 32) None sizes0 (onDevice d) d
                 fourStreams (mkIntegralArea 1000 1 1) (request 60 4 false)
    = Value (Planned s) /\
    findRunSizes true gflops1000 (groupSize 32) None
                 (mkRunSizes 9 9 9 9 9 9 9 9 9 9 9) (onDevice d) d
                 fourStreams (mkIntegralArea 1000 1 1) (request 60 4 false)
    = Value (Planned s).
Proof.
  cbv zeta. eexists. split; [vm_compute; reflexivity|].
  apply (findRunSizes_overwrites_sizes true gflops1000 (groupSize 32) None sizes0).
  evaluated.
Defined.

(** A planner failure after the clamp: 96 items, at most 48 a chunk. *)
Lemma findRunSizes_late_failures_witness :
  let d := gpu 1 32 (48, 1, 1) in
  exists s,
    findRunSizes true gflops1000 (groupSize 32) None sizes0 (onDevice d) d
                 fourStreams (mkIntegralArea 96 1 1) (request 60 0 true)
    = Value (PlanFailed LargeWorkunitUnhandled s) /\
    chunkSize s <= maxWorkDim d < effectiveArea s /\
    warpSize d <> 0 /\ chunkSize s mod warpSize d <> 0.
Proof.
  cbv zeta. eexists. split; [vm_compute; reflexivity|].
  match goal with
  | |- chunkSize ?s <= _ < _ /\ _ =>
      destruct (findRunSizes_late_failures true gflops1000 (groupSize 32) None sizes0
                  (onDevice (gpu 1 32 (48, 1, 1))) (gpu 1 32 (48, 1, 1))
                  fourStreams (mkIntegralArea 96 1 1) (request 60 0 true)
                  LargeWorkunitUnhandled s)
        as [Hlarge _]
  end.
  - evaluated.
  - evaluated.
  - apply Hlarge. reflexivity.
Defined.

(** A device library without a throughput estimate. *)
Lemma findNChunk_needs_throughput_witness :
  findNChunk true gflops0 fourStreams (mkIntegralArea 500 10000 100)
             (gpu 20 32 (256, 256, 256)) (request 60 0 false)
  = Undef DoubleToIntOutOfRange.
Proof.
  apply (findNChunk_needs_throughput true gflops0 (groupSize 32) fourStreams
           (mkIntegralArea 500 10000 100) (gpu 20 32 (256, 256, 256))
           (request 60 0 false)).
  left. exists false. reflexivity.
Defined.

(** A target frequency of zero. *)
Lemma findNChunk_degenerate_frequency_witness :
  findNChunk true gflops1000 fourStreams (mkIntegralArea 500 10000 100)
             (gpu 20 32 (256, 256, 256)) (request 0 0 false)
  = Value 1.
Proof.
  pose proof (findNChunk_degenerate_frequency true gflops1000 fourStreams
                (mkIntegralArea 500 10000 100) (gpu 20 32 (256, 256, 256))
                (request 0 0 false)) as H.
  cbv zeta in H. destruct H as [Hzero _].
  rewrite (Hzero false); [|reflexivity]. vm_compute. reflexivity.
Defined.

(** A cut of 3 KiB on a device with 1 KiB of global memory. *)
Lemma separationCheckDevCapabilities_report_witness :
  exists j ia why,
    separationCheckDevCapabilities false (fun _ => true) (fun _ _ => smallSizes)
                                   tinyDevice fourStreams [mkIntegralArea 1000 1 1]
    = Value (false, [why; CutFailed (Z.of_nat j)]) /\
    nth_error [mkIntegralArea 1000 1 1] j = Some ia /\
    separationCheckDevMemory tinyDevice smallSizes = (false, [why]).
Proof.
  destruct (separationCheckDevCapabilities_report false (fun _ => true)
              (fun _ _ => smallSizes) tinyDevice fourStreams [mkIntegralArea 1000 1 1]
              false [TotalMemoryExceeded; CutFailed 0])
    as [(Hprec & _)|(j & ia & why & _ & Hnth & Hfail & Hlog & _)].
  - evaluated.
  - discriminate Hprec.
  - exists j, ia, why. split; [|split; assumption].
    rewrite <- Hlog. vm_compute. reflexivity.
Defined.

(** A device with twice the memory of another. *)
Lemma separationCheckDevCapabilities_monotone_witness :
  let d := gpu 1 32 (1024, 1, 1) in
  let d' := mkDevInfo CL_DEVICE_TYPE_GPU 2 (2 ^ 33) (2 ^ 16) 8 (2 ^ 31) 64 (1024, 1, 1)
                      MW_CAL_TARGET_CAYMAN false in
  separationCheckDevCapabilities true (fun _ => true) (fun _ _ => smallSizes)
                                 d' fourStreams [mkIntegralArea 1000 1 1]
  = Value (true, []).
Proof.
  cbv zeta.
  apply (separationCheckDevCapabilities_monotone true (fun _ => true)
           (fun _ _ => smallSizes) (gpu 1 32 (1024, 1, 1)) _ fourStreams
           [mkIntegralArea 1000 1 1] []).
  - evaluated.
  - evaluated.
  - evaluated.
  - evaluated.
  - reflexivity.
  - evaluated.
Defined.

(** Two integrals announced, one cut in the array. *)
Lemma separationCheckDevCapabilities_short_array_witness :
  separationCheckDevCapabilities true (fun _ => true) (fun _ _ => smallSizes)
                                 (gpu 1 32 (1024, 1, 1))
                                 (mkAstronomyParameters 4 120 0 2)
                                 [mkIntegralArea 1000 1 1]
  = Undef OutOfBounds.
Proof.
  apply (separationCheckDevCapabilities_short_array true (fun _ => true)
           (fun _ _ => smallSizes) (gpu 1 32 (1024, 1, 1))
           (mkAstronomyParameters 4 120 0 2) [mkIntegralArea 1000 1 1]).
  - vm_compute. lia.
  - evaluated.
  - reflexivity.
  - intros ia _. vm_compute. reflexivity.
Defined.

(** A setup in which every call succeeds. *)
Lemma setupSeparationCL_kernel_witness :
  let d := gpu 1 32 (1024, 1, 1) in
  exists st',
    setupSeparationCL true (fun _ => true) (fun _ _ => smallSizes) (fun _ => true)
                      (fun _ => true) 1 (allSucceed d CL_SUCCESS) state0 fourStreams
                      [mkIntegralArea 1000 1 1] (request 60 0 false)
    = Value (CL_SUCCESS, st') /\
    st_kernel st' = Some (prog (st_ci st')) /\
    (prog (st_ci st') = SourceProgram \/ prog (st_ci st') = ILProgram).
Proof.
  cbv zeta. eexists. split; [vm_compute; reflexivity|].
  assert (Herr : 1 <> CL_SUCCESS) by evaluated.
  match goal with
  | |- st_kernel ?st' = _ /\ _ =>
      destruct (setupSeparationCL_kernel true (fun _ => true) (fun _ _ => smallSizes)
                  (fun _ => true) (fun _ => true) 1 Herr
                  (allSucceed (gpu 1 32 (1024, 1, 1)) CL_SUCCESS) state0 fourStreams
                  [mkIntegralArea 1000 1 1] (request 60 0 false) CL_SUCCESS st')
        as (calls & _ & Hok & _)
  end.
  - evaluated.
  - apply Hok. reflexivity.
Defined.

(** A setup on a CPU: the binary variant is not selected. *)
Lemma setupSeparationCL_calls_witness :
  exists st' calls,
    setupSeparationCL true (fun _ => true) (fun _ _ => smallSizes) (fun _ => false)
                      (fun _ => true) 1 (allSucceed cpu CL_SUCCESS) state0 fourStreams
                      [mkIntegralArea 1000 1 1] (request 60 0 false)
    = Value (CL_SUCCESS, st') /\
    st_trace st' = st_trace state0 ++ CallSetupCL :: calls /\
    filter isBinaryStep calls = [] /\
    (length (filter isSourceBuild calls) <= 1)%nat.
Proof.
  eexists.
  match goal with
  | |- exists calls, ?run = Value (_, ?st') /\ _ =>
      assert (Hrun : run = Value (CL_SUCCESS, st')) by (vm_compute; reflexivity)
  end.
  destruct (setupSeparationCL_calls true (fun _ => true) (fun _ _ => smallSizes)
              (fun _ => false) (fun _ => true) 1 _ _ _ _ _ _ _ Hrun)
    as (calls & Htrace & _ & _ & _ & Hsource).
  exists calls. split; [exact Hrun|]. split; [exact Htrace|].
  apply Hsource. reflexivity.
Defined.

(** The binary variant on a Cypress GPU, every call succeeding. *)
Lemma setupSeparationCL_binary_variant_witness :
  let d := gpu 1 32 (1024, 1, 1) in
  exists st',
    setupSeparationCL true (fun _ => true) (fun _ _ => smallSizes) (fun _ => true)
                      (fun _ => true) 1 (allSucceed d CL_SUCCESS) state0 fourStreams
                      [mkIntegralArea 1000 1 1] (request 60 0 false)
    = Value (CL_SUCCESS, st') /\
    prog (st_ci st') = ILProgram /\ st_kernel st' = Some ILProgram.
Proof.
  cbv zeta.
  destruct (setupSeparationCL_binary_variant true (fun _ => true)
              (fun _ _ => smallSizes) (fun _ => true) (fun _ => true) 1
              (allSucceed (gpu 1 32 (1024, 1, 1)) CL_SUCCESS) state0 fourStreams
              [mkIntegralArea 1000 1 1] (request 60 0 false) [])
    as (st' & Hrun & Hprog & Hkernel & _).
  - reflexivity.
  - evaluated.
  - reflexivity.
  - reflexivity.
  - evaluated.
  - reflexivity.
  - reflexivity.
  - reflexivity.
  - reflexivity.
  - exists st'. split; [exact Hrun|]. split; [exact Hprog|exact Hkernel].
Defined.

(** The release after a setup whose compiler flags are missing. *)
Lemma releaseSeparationKernel_after_setup_witness :
  let d := gpu 1 32 (1024, 1, 1) in
  let ext := mkExternals (CL_SUCCESS, onDevice d) false CL_SUCCESS true CL_SUCCESS true
                         CL_SUCCESS CL_SUCCESS CL_SUCCESS NoProgram in
  exists st',
    setupSeparationCL true (fun _ => true) (fun _ _ => smallSizes) (fun _ => true)
                      (fun _ => true) 1 ext state0 fourStreams
                      [mkIntegralArea 1000 1 1] (request 60 0 false)
    = Value (1, st') /\
    releaseSeparationKernel (fun _ => -36) (st_kernel st') = CL_SUCCESS.
Proof.
  cbv zeta. eexists. split; [vm_compute; reflexivity|].
  assert (Herr : 1 <> CL_SUCCESS) by evaluated.
  match goal with
  | |- releaseSeparationKernel _ (st_kernel ?st') = _ =>
      apply (releaseSeparationKernel_after_setup true (fun _ => true)
               (fun _ _ => smallSizes) (fun _ => true) (fun _ => true) 1 Herr
               (fun _ => -36)
               (mkExternals (CL_SUCCESS, onDevice (gpu 1 32 (1024, 1, 1))) false
                            CL_SUCCESS true CL_SUCCESS true CL_SUCCESS CL_SUCCESS
                            CL_SUCCESS NoProgram)
               state0 fourStreams [mkIntegralArea 1000 1 1] (request 60 0 false) 1 st')
  end.
  - evaluated.
  - reflexivity.
Defined.

(** The call for argument 3 fails with [CL_INVALID_MEM_OBJECT]. *)
Lemma separationSetKernelArgs_status_witness :
  separationSetKernelArgs (failingAt 3 (-38)) None buffers sizes0 = -38.
Proof.
  destruct (separationSetKernelArgs_status (failingAt 3 (-38)) None buffers sizes0)
    as (_ & _ & Hsingle).
  apply (Hsingle 3 (BufferArg 103)).
  - vm_compute. right. right. right. left. reflexivity.
  - intros j b _ Hne. unfold failingAt.
    destruct (Z.eqb_spec j 3); [contradiction|reflexivity].
Defined.

(** The arguments of the kernel after the plan for 1000 by 1 by 7 steps. *)
Lemma separationSetKernelArgs_after_plan_witness :
  let d := gpu 1 32 (1024, 1, 1) in
  exists s,
    findRunSizes true gflops1000 (groupSize 32) None sizes0 (onDevice d) d
                 fourStreams (mkIntegralArea 1000 1 7) (request 60 4 false)
    = Value (Planned s) /\
    separationSetKernelArgs (fun _ i a => match a with UIntArg v => v | _ => 0 end)
                            None buffers s
    = Z.lor (Z.lor (Z.lor 24 1000) 1) 7.
Proof.
  cbv zeta. eexists. split; [vm_compute; reflexivity|].
  rewrite (separationSetKernelArgs_after_plan
             (fun _ i a => match a with UIntArg v => v | _ => 0 end)
             true gflops1000 (groupSize 32) None sizes0
             (onDevice (gpu 1 32 (1024, 1, 1))) (gpu 1 32 (1024, 1, 1))
             fourStreams (mkIntegralArea 1000 1 7) (request 60 4 false)).
  - vm_compute. reflexivity.
  - evaluated.
Defined.

(** The CUDA estimate for a device without throughput. *)
Lemma cudaEstimateIterTime_edges_witness :
  is_number (cudaEstimateIterTime (fun _ _ _ => true) cpu (double_of_Z 5) (double_of_Z 0))
  = false.
Proof.
  pose proof (cudaEstimateIterTime_edges (fun _ _ _ => true) cpu (double_of_Z 5)
                (double_of_Z 0)) as H.
  cbv zeta in H. destruct H as [Hzero _].
  apply Hzero. exists false. reflexivity.
Defined.

(** The binary is read back and the program released, but the binary
    cannot be patched. *)
Lemma setProgramFromILKernel_outcome_witness :
  let d := gpu 1 32 (1024, 1, 1) in
  let ext := mkExternals (CL_SUCCESS, onDevice d) true CL_SUCCESS true CL_SUCCESS false
                         CL_SUCCESS CL_SUCCESS CL_SUCCESS NoProgram in
  let run := setProgramFromILKernel 1 ext fourStreams (request 60 0 false)
                                    (mkSetupState (mkCLInfo d SourceProgram) None []) in
  fst run = 1 /\ prog (st_ci (snd run)) = ReleasedProgram.
Proof.
  cbv zeta. split; [reflexivity|].
  assert (Herr : 1 <> CL_SUCCESS) by evaluated.
  pose proof (setProgramFromILKernel_outcome 1 Herr
                (mkExternals (CL_SUCCESS, onDevice (gpu 1 32 (1024, 1, 1))) true
                             CL_SUCCESS true CL_SUCCESS false CL_SUCCESS CL_SUCCESS
                             CL_SUCCESS NoProgram)
                fourStreams (request 60 0 false)
                (mkSetupState (mkCLInfo (gpu 1 32 (1024, 1, 1)) SourceProgram) None []))
    as H.
  cbv zeta in H. destruct H as (_ & _ & _ & Hpatch & _).
  apply Hpatch; reflexivity.
Defined.

(** The binary is not returned, the source is built again, and the
    creation of the kernel fails with -5, which is what is returned. *)
Lemma setupSeparationCL_error_source_witness :
  let d := gpu 1 32 (1024, 1, 1) in
  let ext := noBinary d (-5) in
  exists err st',
    setupSeparationCL true (fun _ => true) (fun _ _ => smallSizes) (fun _ => true)
                      (fun _ => true) 1 ext state0 fourStreams
                      [mkIntegralArea 1000 1 1] (request 60 0 false)
    = Value (err, st') /\
    (err = fst (ext_mwSetupCL ext) \/ err = 1 \/
     err = ext_mwSetProgramFromSrc ext \/ err = ext_mwSetProgramFromSrc_again ext \/
     err = ext_mwCreateKernel ext).
Proof.
  cbv zeta. eexists. eexists.
  match goal with
  | |- ?run = Value (?err, ?st') /\ _ =>
      assert (Hrun : run = Value (err, st')) by (vm_compute; reflexivity)
  end.
  split; [exact Hrun|].
  exact (setupSeparationCL_error_source true (fun _ => true) (fun _ _ => smallSizes)
           (fun _ => true) (fun _ => true) 1 _ _ _ _ _ _ _ Hrun).
Defined.

(** Four streams and 120 convolution points: 36489 operations an item. *)
Lemma estimateWUGFLOPsPerIter_exact_witness :
  perIter fourStreams (mkIntegralArea 500 10000 100) = 36489 * 10000 * 500.
Proof.
  pose proof (estimateWUGFLOPsPerIter_exact fourStreams (mkIntegralArea 500 10000 100))
    as H.
  cbv zeta in H. destruct H as [Hper _]; [evaluated ..|].
  rewrite Hper. reflexivity.
Defined.
